(** * Cypress Network Mock Recorder: a shallow embedding and its properties

    The development follows the layout of the repository:
    - [JS]          the JavaScript primitives the code relies on (strings,
                    objects with insertion order, [Array.prototype.sort],
                    32-bit integer arithmetic, JSON values);
    - [Platform]    the host classes [URL], [URLSearchParams] and [RegExp],
                    taken as an interface so that every general theorem holds
                    for whatever the host implements;
    - [Config]      cypress/config/mock.config.ts;
    - [Matcher]     cypress/support/matcher.ts;
    - [Sanitizer]   cypress/support/sanitizer.ts;
    - [MockStorage] cypress/support/mockStorage.ts and the storage tasks of
                    cypress.config.ts;
    - [Recorder]    cypress/support/networkRecorder.ts;
    - [Host]        a concrete instance of [Platform] for a documented
                    fragment of the WHATWG URL Standard and of ECMAScript
                    regular expressions, used to run the code on inputs;
    - [Sample]      requests, a server and stored mocks to run it on.

    Strings are Rocq strings read as sequences of code units below 256; the
    case mappings are the ASCII ones. *)

From Stdlib Require Import ZArith List String Ascii Bool Lia Permutation.
From Stdlib Require OrderedTypeEx.
From stdpp Require Import gmap strings list fin_maps sorting.

Open Scope string_scope.
Open Scope list_scope.
Open Scope Z_scope.

(* ===================================================================== *)
(** * JavaScript primitives *)
(* ===================================================================== *)

Module JS.

(** [s.charCodeAt(i)] of one character. *)
Definition code (c : ascii) : Z := Z.of_N (N_of_ascii c).

Definition is_upper (c : ascii) : bool := (65 <=? code c) && (code c <=? 90).
Definition is_lower (c : ascii) : bool := (97 <=? code c) && (code c <=? 122).
Definition is_digit (c : ascii) : bool := (48 <=? code c) && (code c <=? 57).

Definition lower_char (c : ascii) : ascii :=
  if is_upper c then ascii_of_N (N_of_ascii c + 32) else c.
Definition upper_char (c : ascii) : ascii :=
  if is_lower c then ascii_of_N (N_of_ascii c - 32) else c.

Fixpoint map_string (f : ascii -> ascii) (s : string) : string :=
  match s with
  | EmptyString => EmptyString
  | String c r => String (f c) (map_string f r)
  end.

Fixpoint filter_string (f : ascii -> bool) (s : string) : string :=
  match s with
  | EmptyString => EmptyString
  | String c r => if f c then String c (filter_string f r) else filter_string f r
  end.

Fixpoint forall_string (f : ascii -> bool) (s : string) : bool :=
  match s with
  | EmptyString => true
  | String c r => f c && forall_string f r
  end.

(** [s.toLowerCase()] and [s.toUpperCase()]. *)
Definition toLowerCase (s : string) : string := map_string lower_char s.
Definition toUpperCase (s : string) : string := map_string upper_char s.

(** A string is truthy when it is not empty. *)
Definition truthy (s : string) : bool :=
  match s with EmptyString => false | _ => true end.

(** [s.startsWith(p)], [s.endsWith(p)], [s.includes(sub)]. *)
Definition startsWith (s p : string) : bool := String.prefix p s.

Fixpoint includes (s sub : string) : bool :=
  String.prefix sub s ||
  match s with
  | EmptyString => false
  | String _ r => includes r sub
  end.

Fixpoint drop (n : nat) (s : string) : string :=
  match n, s with
  | O, _ => s
  | S n', String _ r => drop n' r
  | S _, EmptyString => EmptyString
  end.

Definition endsWith (s p : string) : bool :=
  (String.length p <=? String.length s)%nat &&
  String.eqb (drop (String.length s - String.length p) s) p.

(** [s.split(sep)] for a one-character separator. *)
Fixpoint split (sep : ascii) (s : string) : list string :=
  match s with
  | EmptyString => [EmptyString]
  | String c r =>
      if Ascii.eqb c sep then EmptyString :: split sep r
      else match split sep r with
           | h :: t => String c h :: t
           | [] => [String c EmptyString]
           end
  end.

(** [parts.join(sep)]. *)
Definition join (sep : string) (parts : list string) : string :=
  String.concat sep parts.

(** ** Objects

    An object used as a record of own enumerable string-keyed properties, in
    insertion order (the order [Object.entries], [Object.keys] and
    [JSON.stringify] follow for keys that are not array indices). *)
Definition obj (V : Type) : Type := list (string * V).

Fixpoint obj_get {V} (o : obj V) (k : string) : option V :=
  match o with
  | [] => None
  | (k', v) :: r => if String.eqb k' k then Some v else obj_get r k
  end.

Definition obj_has {V} (o : obj V) (k : string) : bool :=
  match obj_get o k with Some _ => true | None => false end.

Fixpoint obj_put {V} (o : obj V) (k : string) (v : V) : obj V :=
  match o with
  | [] => [(k, v)]
  | (k', v') :: r =>
      if String.eqb k' k then (k', v) :: r else (k', v') :: obj_put r k v
  end.

(** [o[k] = v] on an object created by a literal: an existing property keeps
    its place, a new one is appended; assigning to [__proto__] goes to the
    inherited accessor and creates no own property. *)
Definition obj_set {V} (o : obj V) (k : string) (v : V) : obj V :=
  if String.eqb k "__proto__" then o else obj_put o k v.

Definition obj_keys {V} (o : obj V) : list string := map fst o.

(** The entries an assignment turns into an own property. *)
Definition own_key {V} (kv : string * V) : bool :=
  negb (String.eqb (fst kv) "__proto__").

(** ** [Array.prototype.sort()] without a comparator

    A stable sort on the string conversions of the elements, compared by code
    units. *)
Fixpoint insert_by {A} (str : A -> string) (x : A) (l : list A) : list A :=
  match l with
  | [] => [x]
  | y :: r =>
      if String.leb (str x) (str y) then x :: y :: r
      else y :: insert_by str x r
  end.

Definition sort_by {A} (str : A -> string) (l : list A) : list A :=
  fold_right (insert_by str) [] l.

(** The order [sort_by] sorts along. *)
Definition before {A} (str : A -> string) : relation A :=
  fun x y => String.leb (str x) (str y) = true.

(** The string conversion of a two-element array [[k, v]]. *)
Definition pair_toString (kv : string * string) : string :=
  fst kv +:+ "," +:+ snd kv.

(** ** 32-bit integers *)
Definition ToInt32 (z : Z) : Z :=
  let m := z mod 4294967296 in
  if 2147483648 <=? m then m - 4294967296 else m.

(** [a << n] and [a & b]. *)
Definition shl (a n : Z) : Z := ToInt32 (Z.shiftl (ToInt32 a) (n mod 32)).
Definition band (a b : Z) : Z := ToInt32 (Z.land (ToInt32 a) (ToInt32 b)).

(** [n.toString(radix)] for a non-negative integer and a radix up to 36. *)
Definition digit (d : Z) : ascii :=
  if d <? 10 then ascii_of_N (Z.to_N (48 + d)) else ascii_of_N (Z.to_N (87 + d)).

Fixpoint toStringRadix_go (radix : Z) (fuel : nat) (n : Z) (acc : string) : string :=
  match fuel with
  | O => acc
  | S fuel' =>
      let acc' := String (digit (n mod radix)) acc in
      if n / radix =? 0 then acc' else toStringRadix_go radix fuel' (n / radix) acc'
  end.

(** Each division by a radix of at least two removes a binary digit, so one
    round per binary digit of [n] is enough. *)
Definition toStringRadix (radix : Z) (n : Z) : string :=
  toStringRadix_go radix (S (Z.to_nat (Z.log2 n))) n EmptyString.

Definition toString36 (n : Z) : string := toStringRadix 36 n.

(** [String(n)] for an integer. *)
Definition Z_toString (n : Z) : string :=
  if n <? 0 then "-" +:+ toStringRadix 10 (- n) else toStringRadix 10 n.

(** ** Replacement

    [GetSubstitution] for a match without capture groups: [$$], [$&], [$`]
    and [$'] are expanded, every other character of the template stands for
    itself. *)
Fixpoint getSubstitution (matched before after template : string) : string :=
  match template with
  | EmptyString => EmptyString
  | String c r =>
      if Ascii.eqb c "$" then
        match r with
        | String d r' =>
            if Ascii.eqb d "$" then
              String "$" (getSubstitution matched before after r')
            else if Ascii.eqb d "&" then
              matched +:+ getSubstitution matched before after r'
            else if Ascii.eqb d "`" then
              before +:+ getSubstitution matched before after r'
            else if Ascii.eqb d "'" then
              after +:+ getSubstitution matched before after r'
            else String c (getSubstitution matched before after r)
        | EmptyString => String c EmptyString
        end
      else String c (getSubstitution matched before after r)
  end.

(** [s.replace(pat, template)] for a string pattern: the first occurrence. *)
Fixpoint replaceFirst_go (pat template before s : string) : string :=
  if String.prefix pat s then
    getSubstitution pat before (drop (String.length pat) s) template
    +:+ drop (String.length pat) s
  else
    match s with
    | EmptyString => EmptyString
    | String c r =>
        String c (replaceFirst_go pat template (before +:+ String c EmptyString) r)
    end.

Definition replaceFirst (s pat template : string) : string :=
  replaceFirst_go pat template EmptyString s.

(** [s.replace(new RegExp(e, 'g'), template)] where [e] is a pattern that
    matches exactly the literal [lit]: every occurrence, left to right,
    without overlap; the empty literal matches once at every position.
    [skip] counts the characters of the current match still to pass. *)
Fixpoint replaceAll_go (lit template : string) (skip : nat) (before s : string)
    : string :=
  match s with
  | EmptyString =>
      if String.prefix lit EmptyString
      then getSubstitution lit before EmptyString template
      else EmptyString
  | String c r =>
      let before' := before +:+ String c EmptyString in
      match skip with
      | S k => replaceAll_go lit template k before' r
      | O =>
          if String.prefix lit s then
            getSubstitution lit before (drop (String.length lit) s) template
            +:+ match String.length lit with
                | O => String c (replaceAll_go lit template O before' r)
                | S k => replaceAll_go lit template k before' r
                end
          else String c (replaceAll_go lit template O before' r)
      end
  end.

Definition replaceAll (s lit template : string) : string :=
  replaceAll_go lit template O EmptyString s.

(** ** Values

    The values a JSON document or a request body can hold. Numbers are the
    integers. *)
#[local] Set Warnings "-register-all".
Inductive value : Type :=
| VUndefined
| VNull
| VBool (b : bool)
| VNum (n : Z)
| VStr (s : string)
| VArr (items : list value)
| VObj (props : list (string * value)).

(** Truthiness, as [x ? a : b] and [if (x)] test it. *)
Definition value_truthy (v : value) : bool :=
  match v with
  | VUndefined | VNull => false
  | VBool b => b
  | VNum n => negb (n =? 0)
  | VStr s => truthy s
  | VArr _ | VObj _ => true
  end.

(** [String(v)]. *)
Fixpoint toString (v : value) : string :=
  match v with
  | VUndefined => "undefined"
  | VNull => "null"
  | VBool true => "true"
  | VBool false => "false"
  | VNum n => Z_toString n
  | VStr s => s
  | VArr items =>
      join ","
        (map (fun item =>
                match item with
                | VUndefined | VNull => EmptyString
                | _ => toString item
                end) items)
  | VObj _ => "[object Object]"
  end.

(** [v[k]] on the own properties of an object. *)
Definition get_prop (v : value) (k : string) : option value :=
  match v with
  | VObj props => obj_get props k
  | _ => None
  end.

(** [a === b] where [b] is a string. *)
Definition strict_eq_string (a : value) (b : string) : bool :=
  match a with
  | VStr s => String.eqb s b
  | _ => false
  end.

(** [s.substring(0, n)]. *)
Definition substring0 (n : nat) (s : string) : string := String.substring 0 n s.

(** The values that [JSON.parse (JSON.stringify v)] gives back as they are:
    those with no [undefined] in them. A property that holds [undefined]
    is left out of the text and reads as [undefined] again, so a value
    that is [undefined] itself can be stored as well. *)
Fixpoint json_value (v : value) : bool :=
  match v with
  | VUndefined => false
  | VArr items => forallb json_value items
  | VObj props => forallb (fun kv => json_value (snd kv)) props
  | _ => true
  end.

Definition storable (v : value) : bool :=
  match v with
  | VUndefined => true
  | _ => json_value v
  end.

(** Strings without a brace and strings without a dollar sign, and the
    number of positions of a string at which another one occurs. *)
Definition brace_free (s : string) : bool :=
  forall_string (fun c => negb (Ascii.eqb c "{") && negb (Ascii.eqb c "}")) s.

Definition dollar_free (s : string) : bool :=
  forall_string (fun c => negb (Ascii.eqb c "$")) s.

Fixpoint occurrences (s sub : string) : nat :=
  ((if String.prefix sub s then 1 else 0)
   + match s with
     | EmptyString => 0
     | String _ r => occurrences r sub
     end)%nat.

End JS.

(* ===================================================================== *)
(** * The host platform *)
(* ===================================================================== *)

(** The parts of a parsed [URL] object the code reads ([Web.URL]). [href_prefix] is the
    serialization up to the path (scheme, credentials, host and port), so that
    [toString()] is [href_prefix + pathname + search + hash]. *)
Module Web.
Record URL : Type := mkURL {
  origin : string;
  href_prefix : string;
  pathname : string;
  search : string;
  hash : string
}.
End Web.

(** The host classes, as an interface.
    - [URL_new url base] is [new URL(url, base)]; [None] stands for the
      [TypeError] it throws when [url] does not parse against [base];
    - [URLSearchParams_parse s] is the entry list of [new URLSearchParams(s)],
      which is also the entry list of [urlObj.searchParams] for
      [s = urlObj.search];
    - [URLSearchParams_toString l] is [new URLSearchParams(l).toString()];
    - [RegExp_test_i p s] is [new RegExp(p, 'i').test(s)]; [None] stands for
      the [SyntaxError] thrown for a pattern that does not compile;
    - [Date_toISOString t] is [new Date(t).toISOString()] for an instant [t]
      in milliseconds since the epoch. *)
Class Platform : Type := {
  URL_new : string -> string -> option Web.URL;
  URLSearchParams_parse : string -> list (string * string);
  URLSearchParams_toString : list (string * string) -> string;
  RegExp_test_i : string -> string -> option bool;
  Date_toISOString : Z -> string
}.

(* ===================================================================== *)
(** * cypress/config/mock.config.ts *)
(* ===================================================================== *)

Module Config.

Inductive LogLevel : Type := debug | info | warn | error.

Record MockConfig : Type := mkMockConfig {
  mockDir : string;
  includePatterns : list string;
  excludePatterns : list string;
  sanitizeHeaders : list string;
  autoFallback : bool;
  logLevel : LogLevel;
  simulateLatency : bool;
  dynamicPlaceholder : string
}.

Definition defaultConfig : MockConfig := {|
  mockDir := "cypress/mocks";
  includePatterns :=
    [ "^/api/";
      "^https?://.*/(api|graphql|v[0-9]+)/" ];
  excludePatterns :=
    [ "\.(js|css|png|jpg|jpeg|gif|svg|woff|woff2|ttf|ico)$";
      "^/static/";
      "^/assets/";
      "^/_next/";
      "^/__cypress/" ];
  sanitizeHeaders :=
    [ "authorization";
      "cookie";
      "set-cookie";
      "x-auth-token";
      "x-api-key";
      "x-access-token";
      "x-csrf-token";
      "x-xsrf-token" ];
  autoFallback := true;
  logLevel := info;
  simulateLatency := false;
  dynamicPlaceholder := "{{DYNAMIC}}"
|}.

(** What [Cypress.env] answers for the keys the code reads. *)
Record Env : Type := mkEnv {
  MODE : option string;
  MOCK_DIR : option string;
  AUTO_FALLBACK : option bool;
  LOG_LEVEL : option LogLevel
}.

(** [getConfig()]: the defaults, with [mockDir], [autoFallback] and
    [logLevel] taken from the environment when it sets them. *)
Definition getConfig (env : Env) : MockConfig := {|
  mockDir :=
    match MOCK_DIR env with
    | Some d => if JS.truthy d then d else mockDir defaultConfig
    | None => mockDir defaultConfig
    end;
  includePatterns := includePatterns defaultConfig;
  excludePatterns := excludePatterns defaultConfig;
  sanitizeHeaders := sanitizeHeaders defaultConfig;
  autoFallback :=
    match AUTO_FALLBACK env with
    | Some b => b
    | None => autoFallback defaultConfig
    end;
  logLevel :=
    match LOG_LEVEL env with
    | Some l => l
    | None => logLevel defaultConfig
    end;
  simulateLatency := simulateLatency defaultConfig;
  dynamicPlaceholder := dynamicPlaceholder defaultConfig
|}.

End Config.

(* ===================================================================== *)
(** * cypress/support/matcher.ts *)
(* ===================================================================== *)

Module Matcher.

Record RequestSignature : Type := mkRequestSignature {
  method : string;
  url : string;
  normalizedUrl : string;
  queryParams : JS.obj string;
  pathname : string
}.

Record MockMetadata : Type := mkMockMetadata {
  mock_method : string;
  mock_url : string;
  mock_pathname : string;
  mock_queryParams : option (JS.obj string)
}.

(** [simpleHash]: the 31-multiplier rolling hash on 32-bit integers, printed
    in base 36 and cut to six characters. *)
Definition simpleHash_step (hash : Z) (c : ascii) : Z :=
  let hash := (JS.shl hash 5 - hash) + JS.code c in
  JS.band hash hash.

Definition simpleHash_int (str : string) : Z :=
  fold_left simpleHash_step (list_ascii_of_string str) 0.

Definition simpleHash (str : string) : string :=
  JS.substring0 6 (JS.toString36 (Z.abs (simpleHash_int str))).

(** The three replacements that clean a pathname for the file system. *)
Definition strip_leading_slash (s : string) : string :=
  match s with
  | String "/" r => r
  | _ => s
  end.

Definition slash_to_underscore (c : ascii) : ascii :=
  if Ascii.eqb c "/" then "_"%char else c.

Definition filename_char (c : ascii) : bool :=
  JS.is_lower c || JS.is_upper c || JS.is_digit c ||
  Ascii.eqb c "_" || Ascii.eqb c "-".

(** [/^\d+$/] on a path segment. *)
Definition all_digits (s : string) : bool :=
  JS.truthy s && JS.forall_string JS.is_digit s.

Definition queryString_of (q : JS.obj string) : string :=
  JS.join "&"
    (map (fun k =>
            k +:+ "=" +:+ match JS.obj_get q k with Some v => v | None => "undefined" end)
         (JS.sort_by (fun k => k) (JS.obj_keys q))).

Definition generateMockFilename (signature : RequestSignature) : string :=
  let cleanPath :=
    JS.filter_string filename_char
      (JS.map_string slash_to_underscore
         (strip_leading_slash (pathname signature))) in
  let cleanPath := if JS.truthy cleanPath then cleanPath else "root" in
  let queryString := queryString_of (queryParams signature) in
  let cleanPath :=
    if JS.truthy queryString
    then cleanPath +:+ "_" +:+ simpleHash queryString
    else cleanPath in
  JS.toLowerCase (method signature) +:+ "_" +:+ cleanPath +:+ ".json".

Definition generateMockPath (config : Config.MockConfig)
    (signature : RequestSignature) : string :=
  let filename := generateMockFilename signature in
  let pathSegments :=
    firstn 2
      (List.filter (fun s => JS.truthy s && negb (all_digits s))
         (JS.split "/" (pathname signature))) in
  let subDir := JS.join "/" pathSegments in
  let subDir := if JS.truthy subDir then subDir else "api" in
  Config.mockDir config +:+ "/" +:+ subDir +:+ "/" +:+ filename.

(** [matchRequest]: the three checks, each an early [return false]. *)
Fixpoint queryParams_agree (request : JS.obj string)
    (entries : list (string * string)) : bool :=
  match entries with
  | [] => true
  | (key, value) :: rest =>
      match JS.obj_get request key with
      | Some v => if String.eqb v value then queryParams_agree request rest else false
      | None => false
      end
  end.

Definition matchRequest (request : RequestSignature) (mock : MockMetadata) : bool :=
  if negb (String.eqb (JS.toUpperCase (method request))
                      (JS.toUpperCase (mock_method mock))) then false
  else if negb (String.eqb (pathname request) (mock_pathname mock)) then false
  else match mock_queryParams mock with
       | Some q =>
           if (0 <? length (JS.obj_keys q))%nat
           then queryParams_agree (queryParams request) q
           else true
       | None => true
       end.

(** The callback of [searchParams.forEach] in [extractQueryParams]:
    [params[key] = value]. *)
Definition collect (params : JS.obj string) (kv : string * string) : JS.obj string :=
  JS.obj_set params (fst kv) (snd kv).

Section WithPlatform.
Context {P : Platform}.

(** The base the three URL helpers pass to [new URL]. *)
Definition baseUrl_for (url : string) : string :=
  if JS.startsWith url "http" then "" else "http://localhost".

Definition normalizeUrl (url : string) : string :=
  match URL_new url (baseUrl_for url) with
  | Some urlObj =>
      let params := URLSearchParams_parse (Web.search urlObj) in
      let sortedParams := JS.sort_by JS.pair_toString params in
      let normalizedSearch := URLSearchParams_toString sortedParams in
      let search :=
        if JS.truthy normalizedSearch then "?" +:+ normalizedSearch else "" in
      if JS.startsWith url "http"
      then Web.origin urlObj +:+ Web.pathname urlObj +:+ search
      else Web.pathname urlObj +:+ search
  | None => url
  end.

Definition extractPathname (url : string) : string :=
  match URL_new url (baseUrl_for url) with
  | Some urlObj => Web.pathname urlObj
  | None => hd EmptyString (JS.split "?" url)
  end.

Definition extractQueryParams (url : string) : JS.obj string :=
  match URL_new url (baseUrl_for url) with
  | Some urlObj =>
      fold_left collect (URLSearchParams_parse (Web.search urlObj)) []
  | None => []
  end.

Definition createRequestSignature (method url : string) : RequestSignature := {|
  method := JS.toUpperCase method;
  url := url;
  normalizedUrl := normalizeUrl url;
  queryParams := extractQueryParams url;
  pathname := extractPathname url
|}.

(** A pattern matches a URL when its expression compiles and tests true. *)
Definition matches (url pattern : string) : Prop :=
  RegExp_test_i pattern url = Some true.

Definition compiles (url : string) (patterns : list string) : Prop :=
  forall pattern, In pattern patterns -> RegExp_test_i pattern url <> None.

(** [shouldRecordUrl]: two loops with early returns. [None] is the
    [SyntaxError] of a pattern that does not compile, raised when the loop
    reaches it. *)
Fixpoint any_match (patterns : list string) (url : string) : option bool :=
  match patterns with
  | [] => Some false
  | pattern :: rest =>
      match RegExp_test_i pattern url with
      | Some true => Some true
      | Some false => any_match rest url
      | None => None
      end
  end.

Definition shouldRecordUrl (config : Config.MockConfig) (url : string) : option bool :=
  match any_match (Config.excludePatterns config) url with
  | Some true => Some false
  | Some false =>
      match any_match (Config.includePatterns config) url with
      | Some true => Some true
      | Some false => Some true
      | None => None
      end
  | None => None
  end.

End WithPlatform.

End Matcher.

(* ===================================================================== *)
(** * cypress/support/sanitizer.ts *)
(* ===================================================================== *)

Module Sanitizer.

(** A header value is a string or an array of strings. *)
Inductive HeaderValue : Type :=
| HStr (s : string)
| HArr (l : list string).

Definition Headers : Type := JS.obj HeaderValue.

(** [SanitizeOptions]; an option left out reads as [false]. *)
Record SanitizeOptions : Type := mkSanitizeOptions {
  opt_sanitizeHeaders : bool;
  opt_sanitizeCookies : bool;
  opt_sanitizePII : bool;
  opt_maskAuthValues : bool
}.

Definition defaultSanitizeOptions : SanitizeOptions := {|
  opt_sanitizeHeaders := true;
  opt_sanitizeCookies := true;
  opt_sanitizePII := false;
  opt_maskAuthValues := true
|}.

(** The masking sentinel. *)
Definition REMOVED : string := "***REMOVED***".

(** [piiPatterns] of mock.config.ts: the source of each regular expression
    (all carry the [g] flag) and its replacement. *)
Definition piiPatterns : list (string * string) :=
  [ ("[a-zA-Z0-9._%+-]+@[a-zA-Z0-9.-]+\.[a-zA-Z]{2,}", "***EMAIL***");
    ("(\+?\d{1,3}[-.\s]?)?\(?\d{3}\)?[-.\s]?\d{3}[-.\s]?\d{4}", "***PHONE***");
    ("\b\d{4}[-\s]?\d{4}[-\s]?\d{4}[-\s]?\d{4}\b", "***CARD***");
    ("\b\d{3}[-\s]?\d{2}[-\s]?\d{4}\b", "***SSN***");
    ("eyJ[a-zA-Z0-9_-]*\.eyJ[a-zA-Z0-9_-]*\.[a-zA-Z0-9_-]*", "***JWT***") ].

(** [config.sanitizeHeaders.some(h => lowerKey === h.toLowerCase())]: the
    name is on the list, whatever the case of either. *)
Definition listed (config : Config.MockConfig) (key : string) : bool :=
  let lowerKey := JS.toLowerCase key in
  existsb (fun h => String.eqb lowerKey (JS.toLowerCase h))
    (Config.sanitizeHeaders config).

Definition sanitizeHeaders_step (config : Config.MockConfig)
    (options : SanitizeOptions) (sanitized : Headers)
    (entry : string * HeaderValue) : Headers :=
  let '(key, value) := entry in
  let lowerKey := JS.toLowerCase key in
  if listed config key
  then
    if opt_maskAuthValues options
    then JS.obj_set sanitized key (HStr REMOVED)
    else sanitized
  else if opt_sanitizeCookies options &&
          (String.eqb lowerKey "cookie" || String.eqb lowerKey "set-cookie")
  then JS.obj_set sanitized key (HStr REMOVED)
  else JS.obj_set sanitized key value.

Definition sanitizeHeaders (config : Config.MockConfig) (headers : Headers)
    (options : SanitizeOptions) : Headers :=
  if negb (opt_sanitizeHeaders options) then headers
  else fold_left (sanitizeHeaders_step config options) headers [].

Section Body.

(** [str.replace(new RegExp(source, 'g'), replacement)] of the host. *)
Variable RegExp_replace_g : string -> string -> string -> string.

Definition sanitizeString (str : string) : string :=
  fold_left (fun result pr => RegExp_replace_g (fst pr) (snd pr) result)
    piiPatterns str.

Fixpoint sanitizeBody (body : JS.value) (options : SanitizeOptions) : JS.value :=
  if negb (opt_sanitizePII options) then body
  else
    match body with
    | JS.VStr s => JS.VStr (sanitizeString s)
    | JS.VArr items => JS.VArr (map (fun item => sanitizeBody item options) items)
    | JS.VObj props =>
        JS.VObj
          (fold_left
             (fun sanitized kv =>
                JS.obj_set sanitized (fst kv) (sanitizeBody (snd kv) options))
             props [])
    | _ => body
    end.

End Body.

Definition sensitiveParams : list string :=
  [ "token"; "access_token"; "api_key"; "apikey"; "auth"; "key"; "secret";
    "password"; "pwd" ].

(** [URLSearchParams.prototype.has] and [set] on the entry list: [set]
    rewrites the first entry of that name and removes the others, or appends
    when there is none. *)
Definition params_has (l : list (string * string)) (name : string) : bool :=
  existsb (fun kv => String.eqb (fst kv) name) l.

Fixpoint params_set (l : list (string * string)) (name value : string)
    : list (string * string) :=
  match l with
  | [] => [(name, value)]
  | (k, v) :: r =>
      if String.eqb k name
      then (k, value) :: List.filter (fun kv => negb (String.eqb (fst kv) name)) r
      else (k, v) :: params_set r name value
  end.

(** [escapeRegex] puts a backslash before every character that is special
    in a pattern. *)
Definition regex_special (c : ascii) : bool :=
  existsb (Ascii.eqb c)
    (list_ascii_of_string ".*+?^${}()|[]\").

Fixpoint escapeRegex (str : string) : string :=
  match str with
  | EmptyString => EmptyString
  | String c r =>
      if regex_special c then String "\" (String c (escapeRegex r))
      else String c (escapeRegex r)
  end.

(** The literal that an expression made of characters and escaped characters
    matches: a backslash stands for the character after it. *)
Fixpoint literal_of (pattern : string) : string :=
  match pattern with
  | EmptyString => EmptyString
  | String c r =>
      if Ascii.eqb c "\" then
        match r with
        | String d r' => String d (literal_of r')
        | EmptyString => EmptyString
        end
      else String c (literal_of r)
  end.

(** [applyDynamicPlaceholders] on a string: for every pattern whose value
    the data includes,
    [result.replace(new RegExp(escapeRegex(value), 'g'), `{{${field}}}`)]. *)
Definition applyToString (data : string) (patterns : list (string * string)) : string :=
  fold_left
    (fun result pr =>
       let '(field, value) := pr in
       if JS.includes data value
       then JS.replaceAll result (literal_of (escapeRegex value))
              ("{{" +:+ field +:+ "}}")
       else result)
    patterns data.

(** [patterns.find(p => p.field === key)]. *)
Definition find_pattern (patterns : list (string * string)) (key : string)
    : option (string * string) :=
  List.find (fun p => String.eqb (fst p) key) patterns.

(** The token that stands for a field in a saved string, and the saved
    forms of a string: some occurrences of tracked values, one after the
    other, are replaced by the tokens of their fields. *)
Definition token (field : string) : string := "{{" +:+ field +:+ "}}".

Inductive tokenized (patterns : list (string * string))
    : string -> string -> list (string * string) -> Prop :=
| tokenized_end (chunk : string) : tokenized patterns chunk chunk []
| tokenized_token (chunk field value rest saved : string)
    (tokens : list (string * string)) :
    In (field, value) patterns ->
    tokenized patterns rest saved tokens ->
    tokenized patterns (chunk +:+ value +:+ rest)
      (chunk +:+ token field +:+ saved) ((field, value) :: tokens).

Section WithConfig.
Variable config : Config.MockConfig.

Fixpoint applyDynamicPlaceholders (data : JS.value)
    (patterns : list (string * string)) : JS.value :=
  match data with
  | JS.VStr s => JS.VStr (applyToString s patterns)
  | JS.VArr items =>
      JS.VArr (map (fun item => applyDynamicPlaceholders item patterns) items)
  | JS.VObj props =>
      JS.VObj
        (fold_left
           (fun result kv =>
              let key := fst kv in
              let value := snd kv in
              match find_pattern patterns key with
              | Some matchingPattern =>
                  if JS.strict_eq_string value (snd matchingPattern)
                  then JS.obj_set result key
                         (JS.VStr (Config.dynamicPlaceholder config))
                  else JS.obj_set result key
                         (applyDynamicPlaceholders value patterns)
              | None =>
                  JS.obj_set result key (applyDynamicPlaceholders value patterns)
              end)
           props [])
  | _ => data
  end.

(** [resolveDynamicPlaceholders] on a string. [values['_default'] ?? data]
    falls through to [data] when the entry is missing, [null] or
    [undefined]. *)
Definition resolveString (data : string) (values : JS.obj JS.value) : JS.value :=
  if String.eqb data (Config.dynamicPlaceholder config) then
    match JS.obj_get values "_default" with
    | Some JS.VNull | Some JS.VUndefined | None => JS.VStr data
    | Some v => v
    end
  else
    JS.VStr
      (fold_left
         (fun result kv =>
            JS.replaceFirst result ("{{" +:+ fst kv +:+ "}}") (JS.toString (snd kv)))
         values data).

(** [key in values] is read on the own properties of [values]; the members
    every object inherits are outside this model. *)
Fixpoint resolveDynamicPlaceholders (data : JS.value)
    (values : JS.obj JS.value) : JS.value :=
  match data with
  | JS.VStr s => resolveString s values
  | JS.VArr items =>
      JS.VArr (map (fun item => resolveDynamicPlaceholders item values) items)
  | JS.VObj props =>
      JS.VObj
        (fold_left
           (fun result kv =>
              let key := fst kv in
              let value := snd kv in
              if JS.strict_eq_string value (Config.dynamicPlaceholder config)
                 && JS.obj_has values key
              then JS.obj_set result key
                     (match JS.obj_get values key with
                      | Some v => v
                      | None => JS.VUndefined
                      end)
              else JS.obj_set result key (resolveDynamicPlaceholders value values))
           props [])
  | _ => data
  end.

(** The pattern lists and value maps on which the tokens that saving puts
    in a string cannot be mistaken for one another or for the text around
    them: the keys of the map are pairwise distinct and hold no brace; the
    field of a pattern holds no dollar sign, for it is part of a replacement
    template on save; the value of a pattern is not empty and holds neither
    a brace nor a dollar sign, for it is a replacement template on load; the
    token of a field does not occur in the sentinel; and the value of a
    pattern does not occur in the field of a pattern listed before it, whose
    tokens are in the string already when that value is looked for. *)
Fixpoint fields_clear (patterns : list (string * string)) : bool :=
  match patterns with
  | [] => true
  | (field, _) :: rest =>
      forallb (fun q => negb (JS.includes field (snd q))) rest
      && fields_clear rest
  end.

Definition tokens_safe (patterns : list (string * string))
    (values : JS.obj JS.value) : bool :=
  bool_decide (NoDup (JS.obj_keys values))
  && forallb (fun kv => JS.brace_free (fst kv)) values
  && forallb
       (fun p =>
          JS.dollar_free (fst p)
          && JS.truthy (snd p) && JS.brace_free (snd p) && JS.dollar_free (snd p)
          && negb (JS.includes (Config.dynamicPlaceholder config) (token (fst p))))
       patterns
  && fields_clear patterns.

(** The values on which saving and loading are inverse to one another. A
    string is restorable when it is not the sentinel, holds every tracked
    value at one position at most, and holds no token of a key of the value
    map; a field is tracked when the pattern of its name has its value. A
    value is restorable when its objects have pairwise distinct keys, none
    of them [__proto__], and everything in it but the tracked fields is
    restorable. *)
Definition restorable_string (patterns : list (string * string))
    (values : JS.obj JS.value) (s : string) : bool :=
  negb (String.eqb s (Config.dynamicPlaceholder config))
  && forallb (fun p => (JS.occurrences s (snd p) <=? 1)%nat) patterns
  && forallb (fun kv => negb (JS.includes s (token (fst kv)))) values.

Definition tracked (patterns : list (string * string)) (key : string)
    (value : JS.value) : bool :=
  match find_pattern patterns key with
  | Some matchingPattern => JS.strict_eq_string value (snd matchingPattern)
  | None => false
  end.

Fixpoint restorable (patterns : list (string * string))
    (values : JS.obj JS.value) (data : JS.value) : bool :=
  match data with
  | JS.VStr s => restorable_string patterns values s
  | JS.VArr items => forallb (restorable patterns values) items
  | JS.VObj props =>
      bool_decide (NoDup (JS.obj_keys props))
      && forallb
           (fun kv =>
              JS.own_key kv
              && (tracked patterns (fst kv) (snd kv)
                  || restorable patterns values (snd kv)))
           props
  | _ => true
  end.

End WithConfig.

Section WithPlatform.
Context {P : Platform}.

Definition search_of_query (q : string) : string :=
  if JS.truthy q then "?" +:+ q else EmptyString.

(** One round of the loop over [sensitiveParams]: the entry list of
    [urlObj.searchParams] and the [search] of the URL it updates. *)
Definition sanitizeUrl_step (st : list (string * string) * string)
    (param : string) : list (string * string) * string :=
  let '(params, search) := st in
  if params_has params param then
    let params' := params_set params param REMOVED in
    (params', search_of_query (URLSearchParams_toString params'))
  else (params, search).

Definition sanitizeUrl (url : string) : string :=
  match URL_new url (Matcher.baseUrl_for url) with
  | Some urlObj =>
      let '(_, search) :=
        fold_left sanitizeUrl_step sensitiveParams
          (URLSearchParams_parse (Web.search urlObj), Web.search urlObj) in
      if JS.startsWith url "http"
      then Web.href_prefix urlObj +:+ Web.pathname urlObj +:+ search
           +:+ Web.hash urlObj
      else Web.pathname urlObj +:+ search
  | None => url
  end.

Record RecordedData : Type := mkRecordedData {
  rd_url : string;
  rd_requestHeaders : option Headers;
  rd_responseHeaders : option Headers;
  rd_requestBody : JS.value;
  rd_responseBody : JS.value
}.

Definition sanitizeRecordedData
    (RegExp_replace_g : string -> string -> string -> string)
    (config : Config.MockConfig) (data : RecordedData)
    (options : SanitizeOptions) : RecordedData := {|
  rd_url := sanitizeUrl (rd_url data);
  rd_requestHeaders :=
    match rd_requestHeaders data with
    | Some h => Some (sanitizeHeaders config h options)
    | None => None
    end;
  rd_responseHeaders :=
    match rd_responseHeaders data with
    | Some h => Some (sanitizeHeaders config h options)
    | None => None
    end;
  rd_requestBody :=
    if JS.value_truthy (rd_requestBody data)
    then sanitizeBody RegExp_replace_g (rd_requestBody data) options
    else JS.VUndefined;
  rd_responseBody :=
    if JS.value_truthy (rd_responseBody data)
    then sanitizeBody RegExp_replace_g (rd_responseBody data) options
    else JS.VUndefined
|}.

End WithPlatform.

End Sanitizer.

(* ===================================================================== *)
(** * cypress/support/mockStorage.ts and the tasks of cypress.config.ts *)
(* ===================================================================== *)

Module MockStorage.

Record RecordedMock : Type := mkRecordedMock {
  method : string;
  url : string;
  pathname : string;
  queryParams : JS.obj string;
  status : Z;
  statusMessage : option string;
  requestHeaders : option Sanitizer.Headers;
  responseHeaders : option Sanitizer.Headers;
  requestBody : JS.value;
  response : JS.value;
  responseTime : option Z;
  recordedAt : string;
  version : option string;
  metadata : option (JS.obj JS.value)
}.

(** What a file under the mock directory holds, as [JSON.parse] sees it: a
    recorded mock, the document [null], or text that is not JSON. *)
Inductive FileContent : Type :=
| MockFile (m : RecordedMock)
| NullFile
| CorruptFile.

(** What the interceptor hands to its handler, and what the server answers. *)
Record Request : Type := mkRequest {
  req_method : string;
  req_url : string;
  req_headers : Sanitizer.Headers;
  req_body : JS.value
}.

Record Response : Type := mkResponse {
  res_statusCode : Z;
  res_statusMessage : string;
  res_headers : option Sanitizer.Headers;
  res_body : JS.value
}.

Inductive TaskCall : Type :=
| ReadMock (filePath : string)
| WriteMock (filePath : string) (data : RecordedMock)
| ListMocks (dirPath : string)
| ClearMocks (dirPath : string)
| MockExists (filePath : string).

(** The state the code reads and writes: the module variables of
    mockStorage.ts and networkRecorder.ts, the files behind the tasks, the
    clock, and two logs, of the task calls made and of the requests that
    reached the real server. *)
Record World : Type := mkWorld {
  mockCache : gmap string RecordedMock;
  sessionMocks : list string;
  isRecording : bool;
  isReplaying : bool;
  interceptedRequests : Z;
  recordedRequests : Z;
  replayedRequests : Z;
  files : gmap string FileContent;
  clock : Z;
  taskLog : list TaskCall;
  serverLog : list Request
}.

Definition with_mockCache (f : gmap string RecordedMock -> gmap string RecordedMock)
    (w : World) : World :=
  mkWorld (f (mockCache w)) (sessionMocks w) (isRecording w) (isReplaying w)
    (interceptedRequests w) (recordedRequests w) (replayedRequests w)
    (files w) (clock w) (taskLog w) (serverLog w).

Definition with_sessionMocks (f : list string -> list string) (w : World) : World :=
  mkWorld (mockCache w) (f (sessionMocks w)) (isRecording w) (isReplaying w)
    (interceptedRequests w) (recordedRequests w) (replayedRequests w)
    (files w) (clock w) (taskLog w) (serverLog w).

Definition with_flags (recording replaying : bool) (w : World) : World :=
  mkWorld (mockCache w) (sessionMocks w) recording replaying
    (interceptedRequests w) (recordedRequests w) (replayedRequests w)
    (files w) (clock w) (taskLog w) (serverLog w).

Definition with_counters (f : Z * Z * Z -> Z * Z * Z) (w : World) : World :=
  let '(i, r, p) :=
    f (interceptedRequests w, recordedRequests w, replayedRequests w) in
  mkWorld (mockCache w) (sessionMocks w) (isRecording w) (isReplaying w)
    i r p (files w) (clock w) (taskLog w) (serverLog w).

Definition with_files (f : gmap string FileContent -> gmap string FileContent)
    (w : World) : World :=
  mkWorld (mockCache w) (sessionMocks w) (isRecording w) (isReplaying w)
    (interceptedRequests w) (recordedRequests w) (replayedRequests w)
    (f (files w)) (clock w) (taskLog w) (serverLog w).

Definition with_clock (f : Z -> Z) (w : World) : World :=
  mkWorld (mockCache w) (sessionMocks w) (isRecording w) (isReplaying w)
    (interceptedRequests w) (recordedRequests w) (replayedRequests w)
    (files w) (f (clock w)) (taskLog w) (serverLog w).

Definition with_taskLog (f : list TaskCall -> list TaskCall) (w : World) : World :=
  mkWorld (mockCache w) (sessionMocks w) (isRecording w) (isReplaying w)
    (interceptedRequests w) (recordedRequests w) (replayedRequests w)
    (files w) (clock w) (f (taskLog w)) (serverLog w).

Definition with_serverLog (f : list Request -> list Request) (w : World) : World :=
  mkWorld (mockCache w) (sessionMocks w) (isRecording w) (isReplaying w)
    (interceptedRequests w) (recordedRequests w) (replayedRequests w)
    (files w) (clock w) (taskLog w) (f (serverLog w)).

(** ** Commands

    A command runs on the world and either fails, which ends the chain it is
    part of, or yields a value. *)
Inductive Failure : Type :=
| TaskFailed (call : TaskCall)
| PatternSyntaxError.

Definition Cy (A : Type) : Type := World -> World * (Failure + A).

#[export] Instance Cy_ret : MRet Cy := fun A a w => (w, inr a).

#[export] Instance Cy_bind : MBind Cy := fun A B k m w =>
  match m w with
  | (w', inr a) => k a w'
  | (w', inl e) => (w', inl e)
  end.

Definition fail {A} (e : Failure) : Cy A := fun w => (w, inl e).
Definition gets {A} (f : World -> A) : Cy A := fun w => (w, inr (f w)).
Definition modify (f : World -> World) : Cy unit := fun w => (f w, inr tt).

(** A [for] loop over a list, one command per element. *)
Fixpoint forEach {A} (l : list A) (body : A -> Cy unit) : Cy unit :=
  match l with
  | [] => mret tt
  | x :: r => body x ≫= fun _ => forEach r body
  end.

(** ** The tasks of cypress.config.ts *)

(** [readMock]: [null] for a missing file, the parsed document otherwise;
    [JSON.parse] throws on text that is not JSON and the task fails. *)
Definition task_readMock (filePath : string) : Cy (option RecordedMock) :=
  modify (with_taskLog (fun l => l ++ [ReadMock filePath])) ≫= fun _ =>
  gets files ≫= fun fs =>
  match fs !! filePath with
  | None => mret None
  | Some (MockFile m) => mret (Some m)
  | Some NullFile => mret None
  | Some CorruptFile => fail (TaskFailed (ReadMock filePath))
  end.

Definition task_writeMock (filePath : string) (data : RecordedMock) : Cy bool :=
  modify (with_taskLog (fun l => l ++ [WriteMock filePath data])) ≫= fun _ =>
  modify (with_files (fun fs => <[filePath := MockFile data]> fs)) ≫= fun _ =>
  mret true.

(** The relative paths that [path.resolve] and [path.relative] leave as
    they are written: every segment is a name, neither empty nor [.] nor
    [..]. On such paths a file is known by the string that names it. *)
Definition plain_path (rel : string) : bool :=
  forallb (fun segment =>
             JS.truthy segment
             && negb (String.eqb segment ".") && negb (String.eqb segment ".."))
    (JS.split "/" rel).

(** The path of a file relative to a directory, when it lies under it. *)
Definition relative_to (dirPath filePath : string) : option string :=
  if JS.startsWith filePath (dirPath +:+ "/")
  then Some (JS.drop (String.length dirPath + 1) filePath)
  else None.

Definition listing (fs : gmap string FileContent) (dirPath : string) : list string :=
  omap (fun kv =>
          match relative_to dirPath (fst kv) with
          | Some rel => if JS.endsWith rel ".json" then Some rel else None
          | None => None
          end)
       (map_to_list fs).

Definition task_listMocks (dirPath : string) : Cy (list string) :=
  modify (with_taskLog (fun l => l ++ [ListMocks dirPath])) ≫= fun _ =>
  gets files ≫= fun fs => mret (listing fs dirPath).

Definition task_clearMocks (dirPath : string) : Cy bool :=
  modify (with_taskLog (fun l => l ++ [ClearMocks dirPath])) ≫= fun _ =>
  modify (with_files
            (filter (fun kv => JS.startsWith (fst kv) (dirPath +:+ "/") = false)))
  ≫= fun _ => mret true.

Definition task_mockExists (filePath : string) : Cy bool :=
  modify (with_taskLog (fun l => l ++ [MockExists filePath])) ≫= fun _ =>
  gets files ≫= fun fs =>
  mret (match fs !! filePath with Some _ => true | None => false end).

(** ** mockStorage.ts *)

Record SaveRequest : Type := mkSaveRequest {
  sreq_method : string;
  sreq_url : string;
  sreq_headers : option Sanitizer.Headers;
  sreq_body : JS.value
}.

Record SaveResponse : Type := mkSaveResponse {
  sres_statusCode : Z;
  sres_statusMessage : option string;
  sres_headers : option Sanitizer.Headers;
  sres_body : JS.value
}.

Inductive ConsoleMethod : Type := console_log | console_warn | console_error.

Section WithPlatform.
Context {P : Platform}.
Variable env : Config.Env.

Definition cacheKey_of (signature : Matcher.RequestSignature) : string :=
  Matcher.method signature +:+ ":" +:+ Matcher.normalizedUrl signature.

(** The object literal [saveMock] builds, at the instant [now]. *)
Definition mock_of (signature : Matcher.RequestSignature) (request : SaveRequest)
    (response : SaveResponse) (responseTime : option Z) (now : Z) : RecordedMock := {|
  method := Matcher.method signature;
  url := sreq_url request;
  pathname := Matcher.pathname signature;
  queryParams := Matcher.queryParams signature;
  status := sres_statusCode response;
  statusMessage := sres_statusMessage response;
  requestHeaders := sreq_headers request;
  responseHeaders := sres_headers response;
  requestBody := sreq_body request;
  response := sres_body response;
  responseTime := responseTime;
  recordedAt := Date_toISOString now;
  version := None;
  metadata := None
|}.

Definition saveMock (request : SaveRequest) (response : SaveResponse)
    (responseTime : option Z) : Cy string :=
  let signature :=
    Matcher.createRequestSignature (sreq_method request) (sreq_url request) in
  let filePath := Matcher.generateMockPath (Config.getConfig env) signature in
  gets clock ≫= fun now =>
  let mock := mock_of signature request response responseTime now in
  task_writeMock filePath mock ≫= fun _ =>
  modify (with_sessionMocks (fun l => l ++ [filePath])) ≫= fun _ =>
  mret filePath.

Definition loadMock (signature : Matcher.RequestSignature)
    : Cy (option RecordedMock) :=
  let filePath := Matcher.generateMockPath (Config.getConfig env) signature in
  let cacheKey := cacheKey_of signature in
  gets mockCache ≫= fun cache =>
  match cache !! cacheKey with
  | Some cached => mret (Some cached)
  | None =>
      task_readMock filePath ≫= fun mock =>
      match mock with
      | Some m =>
          modify (with_mockCache (fun c => <[cacheKey := m]> c)) ≫= fun _ =>
          mret (Some m)
      | None => mret None
      end
  end.

Definition mockExists (signature : Matcher.RequestSignature) : Cy bool :=
  task_mockExists (Matcher.generateMockPath (Config.getConfig env) signature).

Definition listMocks : Cy (list string) :=
  task_listMocks (Config.mockDir (Config.getConfig env)).

Definition clearAllMocks : Cy bool :=
  modify (with_mockCache (fun _ => ∅)) ≫= fun _ =>
  modify (with_sessionMocks (fun _ => [])) ≫= fun _ =>
  task_clearMocks (Config.mockDir (Config.getConfig env)).

Definition getSessionMocks : Cy (list string) := gets sessionMocks.

Definition clearCache : Cy unit := modify (with_mockCache (fun _ => ∅)).

(** The body of the loop of [preloadMocks] for one listed file. *)
Definition preloadOne (file : string) : Cy unit :=
  let filePath := Config.mockDir (Config.getConfig env) +:+ "/" +:+ file in
  task_readMock filePath ≫= fun mock =>
  match mock with
  | Some m =>
      let signature := Matcher.createRequestSignature (method m) (url m) in
      modify (with_mockCache (fun c => <[cacheKey_of signature := m]> c))
  | None => mret tt
  end.

(** The mock [m] is stored in one of the listed files and [k] is the key
    [preloadMocks] caches it under. *)
Definition stored_under (w : World) (listed : list string) (k : string)
    (m : RecordedMock) : Prop :=
  exists file,
    In file listed
    /\ files w !! (Config.mockDir (Config.getConfig env) +:+ "/" +:+ file)
       = Some (MockFile m)
    /\ cacheKey_of (Matcher.createRequestSignature (method m) (url m)) = k.

Definition preloadMocks : Cy Z :=
  listMocks ≫= fun files =>
  forEach files preloadOne ≫= fun _ =>
  gets (fun w => Z.of_nat (size (mockCache w))).

(** [log]: what reaches the console, as the method called and the line
    printed, or nothing when the level of the message is below the
    configured one. [level_index] is [levels.indexOf]. *)
Definition level_index (level : Config.LogLevel) : Z :=
  match level with
  | Config.debug => 0
  | Config.info => 1
  | Config.warn => 2
  | Config.error => 3
  end.

Definition log (level : Config.LogLevel) (message : string)
    : option (ConsoleMethod * string) :=
  let configLevel := level_index (Config.logLevel (Config.getConfig env)) in
  let msgLevel := level_index level in
  if configLevel <=? msgLevel then
    match level with
    | Config.debug => Some (console_log, "[MOCK DEBUG] " +:+ message)
    | Config.info => Some (console_log, "[MOCK] " +:+ message)
    | Config.warn => Some (console_warn, "[MOCK WARN] " +:+ message)
    | Config.error => Some (console_error, "[MOCK ERROR] " +:+ message)
    end
  else None.

End WithPlatform.

End MockStorage.

(* ===================================================================== *)
(** * cypress/support/networkRecorder.ts *)
(* ===================================================================== *)

Module Recorder.

Import MockStorage.

Inductive Mode : Type := record | replay | passthrough.

(** The argument of [req.reply]. *)
Record StaticResponse : Type := mkStaticResponse {
  reply_statusCode : Z;
  reply_body : JS.value;
  reply_headers : option Sanitizer.Headers
}.

(** How an intercepted call ends for the test: with the answer of the real
    server, or with the reply the handler made up. *)
Inductive Outcome : Type :=
| Forwarded (res : Response)
| Replied (r : StaticResponse).

Record NetworkRecorderState : Type := mkNetworkRecorderState {
  st_isRecording : bool;
  st_isReplaying : bool;
  st_interceptedRequests : Z;
  st_recordedRequests : Z;
  st_replayedRequests : Z
}.

Definition getMode (env : Config.Env) : Mode :=
  match Config.MODE env with
  | Some m =>
      let mode := JS.toLowerCase m in
      if String.eqb mode "record" then record
      else if String.eqb mode "replay" || String.eqb mode "mock" then replay
      else passthrough
  | None => passthrough
  end.

Definition getRecorderState : Cy NetworkRecorderState :=
  gets (fun w =>
          mkNetworkRecorderState (isRecording w) (isReplaying w)
            (interceptedRequests w) (recordedRequests w) (replayedRequests w)).

Definition stopNetworkRecorder : Cy unit := modify (with_flags false false).

Section WithPlatform.
Context {P : Platform}.
Variable env : Config.Env.

(** The real server: its answer to a request and the time it takes, in
    milliseconds. *)
Variable server : Request -> Response * Z.

(** [req.continue(...)]: the request goes to the real server. *)
Definition req_continue (req : Request) : Cy Response :=
  modify (with_serverLog (fun l => l ++ [req])) ≫= fun _ =>
  modify (with_clock (fun t => t + snd (server req))) ≫= fun _ =>
  mret (fst (server req)).

Definition shouldRecord (url : string) : Cy bool :=
  match Matcher.shouldRecordUrl (Config.getConfig env) url with
  | Some b => mret b
  | None => fail PatternSyntaxError
  end.

(** The two object literals both modes pass to [saveMock] once the server
    has answered. *)
Definition request_to_save (req : Request) : SaveRequest := {|
  sreq_method := req_method req;
  sreq_url := req_url req;
  sreq_headers :=
    Some (Sanitizer.sanitizeHeaders (Config.getConfig env)
            (req_headers req) Sanitizer.defaultSanitizeOptions);
  sreq_body := req_body req
|}.

Definition response_to_save (res : Response) : SaveResponse := {|
  sres_statusCode := res_statusCode res;
  sres_statusMessage := Some (res_statusMessage res);
  sres_headers :=
    match res_headers res with
    | Some h =>
        Some (Sanitizer.sanitizeHeaders (Config.getConfig env) h
                Sanitizer.defaultSanitizeOptions)
    | None => None
    end;
  sres_body := res_body res
|}.

Definition saveExchange (req : Request) (res : Response) (responseTime : Z)
    : Cy string :=
  saveMock env (request_to_save req) (response_to_save res) (Some responseTime).

(** The handler [setupRecordMode] installs. *)
Definition recordHandler (req : Request) : Cy Outcome :=
  let url := req_url req in
  shouldRecord url ≫= fun ok =>
  if negb ok then
    req_continue req ≫= fun res => mret (Forwarded res)
  else
    modify (with_counters (fun '(i, r, p) => (i + 1, r, p))) ≫= fun _ =>
    gets clock ≫= fun startTime =>
    req_continue req ≫= fun res =>
    gets clock ≫= fun endTime =>
    let responseTime := endTime - startTime in
    saveExchange req res responseTime ≫= fun _ =>
    modify (with_counters (fun '(i, r, p) => (i, r + 1, p))) ≫= fun _ =>
    mret (Forwarded res).

(** The body of the reply for a missing mock when fallback is off. *)
Definition mockNotFound (req : Request) : StaticResponse := {|
  reply_statusCode := 500;
  reply_body :=
    JS.VObj
      [ ("error", JS.VStr "Mock not found");
        ("message",
         JS.VStr ("No mock available for " +:+ req_method req +:+ " "
                  +:+ req_url req));
        ("hint",
         JS.VStr "Run tests with MODE=record first, or enable AUTO_FALLBACK") ];
  reply_headers := None
|}.

(** The handler [setupReplayMode] installs. *)
Definition replayHandler (req : Request) : Cy Outcome :=
  let config := Config.getConfig env in
  let url := req_url req in
  shouldRecord url ≫= fun ok =>
  if negb ok then
    req_continue req ≫= fun res => mret (Forwarded res)
  else
    modify (with_counters (fun '(i, r, p) => (i + 1, r, p))) ≫= fun _ =>
    let signature := Matcher.createRequestSignature (req_method req) url in
    loadMock env signature ≫= fun mock =>
    match mock with
    | Some mock =>
        modify (with_counters (fun '(i, r, p) => (i, r, p + 1))) ≫= fun _ =>
        mret (Replied {| reply_statusCode := status mock;
                         reply_body := response mock;
                         reply_headers := responseHeaders mock |})
    | None =>
        if Config.autoFallback config then
          gets clock ≫= fun startTime =>
          req_continue req ≫= fun res =>
          gets clock ≫= fun endTime =>
          let responseTime := endTime - startTime in
          saveExchange req res responseTime ≫= fun _ =>
          mret (Forwarded res)
        else
          mret (Replied (mockNotFound req))
    end.

(** [initNetworkRecorder]: the counters are reset, the flags are set, and the
    handler of the mode is the one every later request meets. *)
Definition initNetworkRecorder : Cy Mode :=
  let mode := getMode env in
  modify (with_counters (fun _ => (0, 0, 0))) ≫= fun _ =>
  match mode with
  | record => modify (with_flags true false)
  | replay => modify (with_flags false true)
  | passthrough => modify (with_flags false false)
  end ≫= fun _ => mret mode.

Definition intercept (mode : Mode) (req : Request) : Cy Outcome :=
  match mode with
  | record => recordHandler req
  | replay => replayHandler req
  | passthrough => req_continue req ≫= fun res => mret (Forwarded res)
  end.

End WithPlatform.

End Recorder.

(* ===================================================================== *)
(** * A concrete host *)
(* ===================================================================== *)

(** An instance of [Platform] to run the code on inputs. It follows the
    WHATWG URL Standard, the ECMAScript [RegExp] semantics and
    [Date.prototype.toISOString] on the fragment described at each
    definition; the general theorems below do not depend on it. *)
Module Host.

(** ** Percent-encoding *)

Definition hex_digit (d : Z) : ascii :=
  if d <? 10 then ascii_of_N (Z.to_N (48 + d)) else ascii_of_N (Z.to_N (55 + d)).

Definition percent_encode_char (c : ascii) : string :=
  String "%" (String (hex_digit (JS.code c / 16))
                (String (hex_digit (JS.code c mod 16)) EmptyString)).

Fixpoint percent_encode (in_set : ascii -> bool) (s : string) : string :=
  match s with
  | EmptyString => EmptyString
  | String c r =>
      if in_set c then percent_encode_char c +:+ percent_encode in_set r
      else String c (percent_encode in_set r)
  end.

Definition one_of (chars : string) (c : ascii) : bool :=
  existsb (Ascii.eqb c) (list_ascii_of_string chars).

Definition c0_or_beyond (c : ascii) : bool :=
  (JS.code c <=? 31) || (126 <? JS.code c).

Definition quote_char : ascii := ascii_of_N 34.

(** The query, special-query, path and fragment percent-encode sets. *)
Definition query_set (c : ascii) : bool :=
  c0_or_beyond c || one_of " #<>" c || Ascii.eqb c quote_char.
Definition special_query_set (c : ascii) : bool :=
  query_set c || Ascii.eqb c "'".
Definition path_set (c : ascii) : bool :=
  query_set c || one_of "?^`{}" c.
Definition fragment_set (c : ascii) : bool :=
  c0_or_beyond c || one_of " <>`" c || Ascii.eqb c quote_char.

(** The application/x-www-form-urlencoded percent-encode set: everything but
    the ASCII alphanumerics and [*-._]. *)
Definition form_set (c : ascii) : bool :=
  negb (JS.is_lower c || JS.is_upper c || JS.is_digit c || one_of "*-._" c).

Definition hex_value (c : ascii) : option Z :=
  if JS.is_digit c then Some (JS.code c - 48)
  else if (65 <=? JS.code c) && (JS.code c <=? 70) then Some (JS.code c - 55)
  else if (97 <=? JS.code c) && (JS.code c <=? 102) then Some (JS.code c - 87)
  else None.

Fixpoint percent_decode (s : string) : string :=
  match s with
  | EmptyString => EmptyString
  | String c r =>
      match r with
      | String h (String l r') =>
          match Ascii.eqb c "%", hex_value h, hex_value l with
          | true, Some hv, Some lv =>
              String (ascii_of_N (Z.to_N (16 * hv + lv))) (percent_decode r')
          | _, _, _ => String c (percent_decode r)
          end
      | _ => String c (percent_decode r)
      end
  end.

(** ** [URLSearchParams] *)

Definition plus_to_space (c : ascii) : ascii :=
  if Ascii.eqb c "+" then " "%char else c.

(** The part of [s] before the first [sep] and the part after it, if any. *)
Fixpoint cut (sep : ascii) (s : string) : string * option string :=
  match s with
  | EmptyString => (EmptyString, None)
  | String c r =>
      if Ascii.eqb c sep then (EmptyString, Some r)
      else let '(a, b) := cut sep r in (String c a, b)
  end.

Definition form_decode (s : string) : string :=
  percent_decode (JS.map_string plus_to_space s).

(** The application/x-www-form-urlencoded parser, after the leading [?] the
    constructor drops. Names and values are read as ASCII. *)
Definition URLSearchParams_parse (s : string) : list (string * string) :=
  let s := match s with String "?" r => r | _ => s end in
  omap (fun sequence =>
          if JS.truthy sequence then
            let '(name, value) := cut "=" sequence in
            Some (form_decode name,
                  form_decode (match value with Some v => v | None => EmptyString end))
          else None)
       (JS.split "&" s).

(** The serializer writes a space as [+] and percent-encodes the bytes of the
    form set. *)
Fixpoint form_serialize (s : string) : string :=
  match s with
  | EmptyString => EmptyString
  | String c r =>
      if Ascii.eqb c " " then String "+" (form_serialize r)
      else if form_set c then percent_encode_char c +:+ form_serialize r
      else String c (form_serialize r)
  end.

Definition URLSearchParams_toString (l : list (string * string)) : string :=
  JS.join "&"
    (map (fun kv => form_serialize (fst kv) +:+ "=" +:+ form_serialize (snd kv)) l).

(** ** [new URL(url, base)]

    Two bases reach the constructor. The empty string is not a URL: the base
    is parsed first and its failure is the failure of the constructor,
    whatever [url] is. Against [http://localhost] the model covers the inputs
    without a scheme and without an authority ([//host]): an absolute or
    relative path, a query, a fragment. An input that starts with a scheme,
    or with two slashes, is outside the fragment and answered [None]. *)

Definition is_alpha (c : ascii) : bool := JS.is_lower c || JS.is_upper c.

Fixpoint scheme_rest (s : string) : bool :=
  match s with
  | EmptyString => false
  | String c r =>
      if Ascii.eqb c ":" then true
      else if is_alpha c || JS.is_digit c || one_of "+-." c then scheme_rest r
      else false
  end.

Definition has_scheme (s : string) : bool :=
  match s with
  | String c r => is_alpha c && scheme_rest r
  | EmptyString => false
  end.

(** Leading and trailing C0 controls and spaces are stripped; tabs and
    newlines are removed. *)
Definition c0_or_space (c : ascii) : bool := JS.code c <=? 32.

Fixpoint strip_leading (s : string) : string :=
  match s with
  | String c r => if c0_or_space c then strip_leading r else s
  | EmptyString => EmptyString
  end.

Fixpoint strip_trailing (s : string) : string :=
  match s with
  | EmptyString => EmptyString
  | String c r =>
      match strip_trailing r with
      | EmptyString => if c0_or_space c then EmptyString else String c EmptyString
      | r' => String c r'
      end
  end.

Definition tab_or_newline (c : ascii) : bool :=
  (JS.code c =? 9) || (JS.code c =? 10) || (JS.code c =? 13).

Definition clean_input (s : string) : string :=
  JS.filter_string (fun c => negb (tab_or_newline c))
    (strip_trailing (strip_leading s)).

Definition single_dot (s : string) : bool :=
  let l := JS.toLowerCase s in
  String.eqb l "." || String.eqb l "%2e".

Definition double_dot (s : string) : bool :=
  let l := JS.toLowerCase s in
  String.eqb l ".." || String.eqb l ".%2e" || String.eqb l "%2e." ||
  String.eqb l "%2e%2e".

(** The path state: the segments are pushed on the path, in reverse here;
    a double-dot segment removes the last one, a single-dot segment adds
    nothing, and either leaves an empty segment when it comes last. *)
Fixpoint path_segments (segments : list string) (rev_path : list string)
    : list string :=
  match segments with
  | [] => rev_path
  | s :: rest =>
      let last := match rest with [] => true | _ => false end in
      if double_dot s then
        let popped := tl rev_path in
        path_segments rest (if last then EmptyString :: popped else popped)
      else if single_dot s then
        path_segments rest (if last then EmptyString :: rev_path else rev_path)
      else path_segments rest (percent_encode path_set s :: rev_path)
  end.

Definition backslash_to_slash (c : ascii) : ascii :=
  if Ascii.eqb c "\" then "/"%char else c.

Definition parse_relative (input : string) : option Web.URL :=
  let input := clean_input input in
  if has_scheme input then None
  else
    let '(before_hash, fragment) := cut "#" input in
    let '(raw_path, query) := cut "?" before_hash in
    let raw_path := JS.map_string backslash_to_slash raw_path in
    if JS.startsWith raw_path "//" then None
    else
      let segments :=
        match raw_path with
        | EmptyString => []
        | String "/" r => JS.split "/" r
        | _ => JS.split "/" raw_path
        end in
      let path := JS.join "/" (rev (path_segments segments [])) in
      let query := match query with Some q => percent_encode special_query_set q
                                  | None => EmptyString end in
      let fragment := match fragment with Some f => percent_encode fragment_set f
                                        | None => EmptyString end in
      Some {| Web.origin := "http://localhost";
              Web.href_prefix := "http://localhost";
              Web.pathname := "/" +:+ path;
              Web.search := if JS.truthy query then "?" +:+ query else EmptyString;
              Web.hash := if JS.truthy fragment then "#" +:+ fragment else EmptyString |}.

Definition URL_new (url base : string) : option Web.URL :=
  if String.eqb base "http://localhost" then parse_relative url
  else None.

(** ** [RegExp]

    The fragment: literals, [.], the anchors [^] and [$] (not repeated, not
    under a quantifier), groups, alternation, the quantifiers [*], [+] and
    [?] (greedy or lazy), classes with ranges and negation, and the escapes
    [\d \D \w \W \s \S \n \r \t \f \v] and escaped punctuation. A pattern
    outside the fragment is answered like one that does not compile. Matching
    is by derivatives over the subject framed by a start and an end mark,
    which the anchors consume. *)

Inductive symbol : Type := SStart | SEnd | SChar (c : ascii).

Inductive atom : Type :=
| AnySymbol
| AtStart
| AtEnd
| Class (negated : bool) (ranges : list (Z * Z)).

Inductive re : Type :=
| Void
| Eps
| Atom (a : atom)
| Cat (r1 r2 : re)
| Alt (r1 r2 : re)
| Star (r : re).

Definition in_ranges (ranges : list (Z * Z)) (n : Z) : bool :=
  existsb (fun r => (fst r <=? n) && (n <=? snd r)) ranges.

(** With the [i] flag a character matches when one of its case variants
    does. *)
Definition class_matches (negated : bool) (ranges : list (Z * Z)) (c : ascii) : bool :=
  xorb negated
    (in_ranges ranges (JS.code c) ||
     in_ranges ranges (JS.code (JS.lower_char c)) ||
     in_ranges ranges (JS.code (JS.upper_char c))).

Definition atom_matches (a : atom) (x : symbol) : bool :=
  match a, x with
  | AnySymbol, _ => true
  | AtStart, SStart => true
  | AtEnd, SEnd => true
  | Class negated ranges, SChar c => class_matches negated ranges c
  | _, _ => false
  end.

Definition cat (r1 r2 : re) : re :=
  match r1, r2 with
  | Void, _ => Void
  | _, Void => Void
  | Eps, _ => r2
  | _, _ => Cat r1 r2
  end.

Definition alt (r1 r2 : re) : re :=
  match r1, r2 with
  | Void, _ => r2
  | _, Void => r1
  | _, _ => Alt r1 r2
  end.

Fixpoint nullable (r : re) : bool :=
  match r with
  | Void => false
  | Eps => true
  | Atom _ => false
  | Cat r1 r2 => nullable r1 && nullable r2
  | Alt r1 r2 => nullable r1 || nullable r2
  | Star _ => true
  end.

Fixpoint deriv (x : symbol) (r : re) : re :=
  match r with
  | Void => Void
  | Eps => Void
  | Atom a => if atom_matches a x then Eps else Void
  | Cat r1 r2 =>
      if nullable r1
      then alt (cat (deriv x r1) r2) (deriv x r2)
      else cat (deriv x r1) r2
  | Alt r1 r2 => alt (deriv x r1) (deriv x r2)
  | Star r1 => cat (deriv x r1) (Star r1)
  end.

Definition frame (s : string) : list symbol :=
  SStart :: map SChar (list_ascii_of_string s) ++ [SEnd].

(** [test]: the expression matches somewhere in the subject. *)
Definition re_test (r : re) (s : string) : bool :=
  nullable
    (fold_left (fun r x => deriv x r) (frame s)
       (Cat (Star (Atom AnySymbol)) (Cat r (Star (Atom AnySymbol))))).

Definition is_anchor (r : re) : bool :=
  match r with
  | Atom AtStart | Atom AtEnd => true
  | _ => false
  end.

Definition digits : list (Z * Z) := [(48, 57)].
Definition word : list (Z * Z) := [(48, 57); (65, 90); (95, 95); (97, 122)].
Definition space : list (Z * Z) := [(9, 13); (32, 32); (160, 160)].

(** The class an escape stands for; [None] for the escapes outside the
    fragment. *)
Definition escape (e : ascii) : option (bool * list (Z * Z)) :=
  if Ascii.eqb e "d" then Some (false, digits)
  else if Ascii.eqb e "D" then Some (true, digits)
  else if Ascii.eqb e "w" then Some (false, word)
  else if Ascii.eqb e "W" then Some (true, word)
  else if Ascii.eqb e "s" then Some (false, space)
  else if Ascii.eqb e "S" then Some (true, space)
  else if Ascii.eqb e "n" then Some (false, [(10, 10)])
  else if Ascii.eqb e "r" then Some (false, [(13, 13)])
  else if Ascii.eqb e "t" then Some (false, [(9, 9)])
  else if Ascii.eqb e "f" then Some (false, [(12, 12)])
  else if Ascii.eqb e "v" then Some (false, [(11, 11)])
  else if is_alpha e || JS.is_digit e then None
  else Some (false, [(JS.code e, JS.code e)]).

(** One member of a class: a character or an escape. *)
Definition class_atom (s : string) : option (list (Z * Z) * string) :=
  match s with
  | String c r =>
      if Ascii.eqb c "\" then
        match r with
        | String e r' =>
            match escape e with
            | Some (false, ranges) => Some (ranges, r')
            | _ => None
            end
        | EmptyString => None
        end
      else Some ([(JS.code c, JS.code c)], r)
  | EmptyString => None
  end.

Fixpoint class_items (fuel : nat) (s : string) (acc : list (Z * Z))
    : option (list (Z * Z) * string) :=
  match fuel with
  | O => None
  | S fuel' =>
      match s with
      | EmptyString => None
      | String c r =>
          if Ascii.eqb c "]" then Some (acc, r)
          else
            match class_atom s with
            | Some ([(lo, _)], String dash after) =>
                if Ascii.eqb dash "-" && negb (JS.startsWith after "]") then
                  match class_atom after with
                  | Some ([(hi, _)], rest) =>
                      if lo <=? hi then class_items fuel' rest (acc ++ [(lo, hi)])
                      else None
                  | _ => None
                  end
                else class_items fuel' (String dash after) (acc ++ [(lo, lo)])
            | Some (ranges, rest) => class_items fuel' rest (acc ++ ranges)
            | None => None
            end
      end
  end.

Definition quantified (r : re) (s : string) : option (re * string) :=
  let lazy (rest : string) : string :=
    match rest with
    | String c rest' => if Ascii.eqb c "?" then rest' else rest
    | EmptyString => rest
    end in
  match s with
  | String q rest =>
      if Ascii.eqb q "*" then
        if is_anchor r then None else Some (Star r, lazy rest)
      else if Ascii.eqb q "+" then
        if is_anchor r then None else Some (Cat r (Star r), lazy rest)
      else if Ascii.eqb q "?" then
        if is_anchor r then None else Some (Alt Eps r, lazy rest)
      else Some (r, s)
  | EmptyString => Some (r, s)
  end.

Fixpoint parse_alt (fuel : nat) (s : string) : option (re * string) :=
  match fuel with
  | O => None
  | S fuel' =>
      match parse_seq fuel' s with
      | Some (r1, String c rest) =>
          if Ascii.eqb c "|" then
            match parse_alt fuel' rest with
            | Some (r2, rest') => Some (Alt r1 r2, rest')
            | None => None
            end
          else Some (r1, String c rest)
      | other => other
      end
  end
with parse_seq (fuel : nat) (s : string) : option (re * string) :=
  match fuel with
  | O => None
  | S fuel' =>
      match s with
      | EmptyString => Some (Eps, s)
      | String c _ =>
          if Ascii.eqb c "|" || Ascii.eqb c ")" then Some (Eps, s)
          else
            match parse_atom fuel' s with
            | Some (a, rest) =>
                match quantified a rest with
                | Some (a', rest') =>
                    match parse_seq fuel' rest' with
                    | Some (r, rest'') => Some (cat a' r, rest'')
                    | None => None
                    end
                | None => None
                end
            | None => None
            end
      end
  end
with parse_atom (fuel : nat) (s : string) : option (re * string) :=
  match fuel with
  | O => None
  | S fuel' =>
      match s with
      | EmptyString => None
      | String c rest =>
          if Ascii.eqb c "(" then
            let body := if JS.startsWith rest "?:" then JS.drop 2 rest else rest in
            if JS.startsWith body "?" then None
            else
              match parse_alt fuel' body with
              | Some (r, String close rest') =>
                  if Ascii.eqb close ")" then Some (r, rest') else None
              | _ => None
              end
          else if Ascii.eqb c "[" then
            let '(negated, body) :=
              match rest with
              | String n rest' =>
                  if Ascii.eqb n "^" then (true, rest') else (false, rest)
              | EmptyString => (false, rest)
              end in
            match class_items (S (String.length body)) body [] with
            | Some (ranges, rest') => Some (Atom (Class negated ranges), rest')
            | None => None
            end
          else if Ascii.eqb c "." then
            Some (Atom (Class true [(10, 10); (13, 13)]), rest)
          else if Ascii.eqb c "^" then Some (Atom AtStart, rest)
          else if Ascii.eqb c "$" then Some (Atom AtEnd, rest)
          else if Ascii.eqb c "\" then
            match rest with
            | String e rest' =>
                match escape e with
                | Some (negated, ranges) => Some (Atom (Class negated ranges), rest')
                | None => None
                end
            | EmptyString => None
            end
          else if one_of "*+?{}" c then None
          else Some (Atom (Class false [(JS.code c, JS.code c)]), rest)
      end
  end.

(** Every call consumes a character or is one of the three steps from an
    alternative to its first atom, so three rounds per character and three
    more suffice. *)
Definition compile (pattern : string) : option re :=
  match parse_alt (3 * String.length pattern + 3) pattern with
  | Some (r, EmptyString) => Some r
  | _ => None
  end.

Definition RegExp_test_i (pattern s : string) : option bool :=
  match compile pattern with
  | Some r => Some (re_test r s)
  | None => None
  end.

(** ** [Date.prototype.toISOString]

    For the years 0000 to 9999, by the civil-from-days computation on the
    proleptic Gregorian calendar. *)
Definition pad (width : nat) (n : Z) : string :=
  let s := JS.Z_toString n in
  string_of_list_ascii (repeat "0"%char (width - String.length s)) +:+ s.

Definition Date_toISOString (t : Z) : string :=
  let days := t / 86400000 in
  let ms := t mod 86400000 in
  let z := days + 719468 in
  let era := z / 146097 in
  let doe := z mod 146097 in
  let yoe := (doe - doe / 1460 + doe / 36524 - doe / 146096) / 365 in
  let doy := doe - (365 * yoe + yoe / 4 - yoe / 100) in
  let mp := (5 * doy + 2) / 153 in
  let d := doy - (153 * mp + 2) / 5 + 1 in
  let m := if mp <? 10 then mp + 3 else mp - 9 in
  let y := yoe + era * 400 + (if m <=? 2 then 1 else 0) in
  pad 4 y +:+ "-" +:+ pad 2 m +:+ "-" +:+ pad 2 d +:+ "T"
  +:+ pad 2 (ms / 3600000) +:+ ":" +:+ pad 2 (ms / 60000 mod 60) +:+ ":"
  +:+ pad 2 (ms / 1000 mod 60) +:+ "." +:+ pad 3 (ms mod 1000) +:+ "Z".

Definition platform : Platform :=
  Build_Platform URL_new URLSearchParams_parse URLSearchParams_toString
    RegExp_test_i Date_toISOString.

End Host.

(* ===================================================================== *)
(** * Sample data *)
(* ===================================================================== *)

(** Environments, a world, a server and requests in the style of the sample
    tests (cypress/e2e/sample.cy.ts), to run the code on. *)
Module Sample.

Import MockStorage.

Definition env_record : Config.Env :=
  Config.mkEnv (Some "record") None None None.

Definition env_replay : Config.Env :=
  Config.mkEnv (Some "replay") None None None.

Definition env_replay_strict : Config.Env :=
  Config.mkEnv (Some "replay") None (Some false) None.

(** Nothing cached, nothing stored, on 2026-01-13 at 16:00 UTC. *)
Definition world0 : World :=
  mkWorld ∅ [] false false 0 0 0 ∅ 1768320000000 [] [].

Definition posts_mock : RecordedMock := {|
  method := "GET";
  url := "/posts";
  pathname := "/posts";
  queryParams := [];
  status := 200;
  statusMessage := Some "OK";
  requestHeaders := Some [("accept", Sanitizer.HStr "application/json")];
  responseHeaders := Some [("content-type", Sanitizer.HStr "application/json")];
  requestBody := JS.VUndefined;
  response := JS.VArr [JS.VObj [("id", JS.VNum 1); ("title", JS.VStr "First Post")]];
  responseTime := Some 150;
  recordedAt := "2026-01-13T16:00:00.000Z";
  version := None;
  metadata := None
|}.

Definition posts_path : string := "cypress/mocks/posts/get_posts.json".

(** The world after a run that recorded [GET /posts]. *)
Definition world_recorded : World :=
  with_files (fun fs => <[posts_path := MockFile posts_mock]> fs) world0.


(** A server that answers every request alike, in 150 ms, and sets a
    cookie. *)
Definition server (req : Request) : Response * Z :=
  ({| res_statusCode := 200;
      res_statusMessage := "OK";
      res_headers :=
        Some [ ("content-type", Sanitizer.HStr "application/json");
               ("Set-Cookie", Sanitizer.HArr ["sid=s3cr3t; HttpOnly"]) ];
      res_body := JS.VObj [("ok", JS.VBool true)] |},
   150).

Definition get_posts : Request := {|
  req_method := "GET";
  req_url := "/posts";
  req_headers := [("accept", Sanitizer.HStr "application/json")];
  req_body := JS.VUndefined
|}.

Definition delete_post : Request := {|
  req_method := "DELETE";
  req_url := "/posts/1";
  req_headers := [];
  req_body := JS.VUndefined
|}.

(** A request with a bearer token in a header and a token in its query. *)
Definition get_users_with_token : Request := {|
  req_method := "GET";
  req_url := "https://api.example.com/users?token=abc123";
  req_headers :=
    [ ("Authorization", Sanitizer.HStr "Bearer abc123");
      ("accept", Sanitizer.HStr "application/json") ];
  req_body := JS.VUndefined
|}.

End Sample.

(* ===================================================================== *)
(** * Properties *)
(* ===================================================================== *)


(** ** Objects *)

Section ObjectFacts.
Context {V : Type}.
Implicit Types (o : JS.obj V) (k : string) (v : V).

Lemma obj_get_In o k v : JS.obj_get o k = Some v -> In (k, v) o.
Proof.
  induction o as [|[k' v'] o IH]; simpl; [discriminate|].
  destruct (String.eqb_spec k' k) as [->|Hne].
  - intros [= ->]. now left.
  - intros H. right. now apply IH.
Qed.

Lemma obj_get_put_same o k v : JS.obj_get (JS.obj_put o k v) k = Some v.
Proof.
  induction o as [|[k' v'] o IH]; simpl.
  - now rewrite String.eqb_refl.
  - destruct (String.eqb_spec k' k) as [->|Hne]; simpl.
    + now rewrite String.eqb_refl.
    + apply String.eqb_neq in Hne. now rewrite Hne.
Qed.

Lemma obj_get_put_other o k k' v :
  k <> k' -> JS.obj_get (JS.obj_put o k v) k' = JS.obj_get o k'.
Proof.
  intros Hne. induction o as [|[k0 v0] o IH]; simpl.
  - apply String.eqb_neq in Hne. now rewrite Hne.
  - destruct (String.eqb_spec k0 k) as [->|Hne0]; simpl.
    + apply String.eqb_neq in Hne. now rewrite Hne.
    + now rewrite IH.
Qed.

Lemma obj_get_set_same o k v :
  k <> "__proto__" -> JS.obj_get (JS.obj_set o k v) k = Some v.
Proof.
  intros Hk. unfold JS.obj_set. apply String.eqb_neq in Hk. rewrite Hk.
  apply obj_get_put_same.
Qed.

Lemma obj_get_set_other o k k' v :
  k <> k' -> JS.obj_get (JS.obj_set o k v) k' = JS.obj_get o k'.
Proof.
  intros Hne. unfold JS.obj_set. destruct (String.eqb k "__proto__"); [reflexivity|].
  now apply obj_get_put_other.
Qed.

Lemma obj_get_app_fresh o k v :
  JS.obj_get o k = None -> JS.obj_put o k v = o ++ [(k, v)].
Proof.
  induction o as [|[k' v'] o IH]; simpl; [reflexivity|].
  destruct (String.eqb k' k); [discriminate|].
  intros H. now rewrite IH.
Qed.

End ObjectFacts.

(** ** Printing an integer *)

(** The rounds [toStringRadix] allows are enough: more of them change
    nothing. *)
Lemma toStringRadix_go_enough (radix : Z) (fuel extra : nat) (n : Z) (acc : string) :
  2 <= radix -> 0 <= n -> Z.log2 n < Z.of_nat fuel ->
  JS.toStringRadix_go radix (fuel + extra) n acc = JS.toStringRadix_go radix fuel n acc.
Proof.
  intros Hradix. revert n acc. induction fuel as [|fuel IH]; intros n acc Hn Hlog.
  - pose proof (Z.log2_nonneg n). lia.
  - cbn [Nat.add JS.toStringRadix_go].
    destruct (n / radix =? 0) eqn:Hq; [reflexivity|].
    apply Z.eqb_neq in Hq. apply IH.
    + apply Z.div_pos; lia.
    + assert (Hge : radix <= n).
      { destruct (Z_lt_le_dec n radix) as [Hlt|Hle]; [|exact Hle].
        exfalso. apply Hq. apply Z.div_small. lia. }
      assert (Hhalf : n / radix <= n / 2)
        by (apply Z.div_le_compat_l; lia).
      assert (Hlog2 : Z.log2 (n / 2) = Z.log2 n - 1).
      { change 2 with (2 ^ 1). rewrite <- Z.shiftr_div_pow2 by lia.
        rewrite Z.log2_shiftr by lia.
        assert (1 <= Z.log2 n) by (apply (Z.log2_le_mono 2 n); lia). lia. }
      pose proof (Z.log2_le_mono _ _ Hhalf). lia.
Qed.

(** ** [matchRequest] *)

Lemma queryParams_agree_spec (request : JS.obj string) (entries : list (string * string)) :
  Matcher.queryParams_agree request entries = true <->
  forall key value, In (key, value) entries -> JS.obj_get request key = Some value.
Proof.
  induction entries as [|[k v] entries IH]; simpl.
  - split; [intros _ ? ? []|reflexivity].
  - destruct (JS.obj_get request k) as [v'|] eqn:Hget.
    + destruct (String.eqb_spec v' v) as [->|Hne].
      * rewrite IH. split.
        -- intros H key value [[= <- <-]|Hin]; [assumption|now apply H].
        -- intros H key value Hin. apply H. now right.
      * split; [discriminate|]. intros H.
        specialize (H k v (or_introl eq_refl)). congruence.
    + split; [discriminate|]. intros H.
      specialize (H k v (or_introl eq_refl)). congruence.
Qed.

(** C10. [matchRequest] answers [true] exactly when the methods agree once
    upper-cased, the pathnames are equal, and every entry of the query
    parameters of the mock is an entry of those of the request. Hence a
    request with the same method and pathname that carries at least the
    parameters of a matching request matches too, and for a mock whose query
    parameters are absent or empty the method and the pathname decide
    alone. *)
Theorem matchRequest_spec (request : Matcher.RequestSignature)
    (mock : Matcher.MockMetadata) :
  let same_method (r : Matcher.RequestSignature) :=
    JS.toUpperCase (Matcher.method r) = JS.toUpperCase (Matcher.mock_method mock) in
  let same_pathname (r : Matcher.RequestSignature) :=
    Matcher.pathname r = Matcher.mock_pathname mock in
  (Matcher.matchRequest request mock = true <->
     same_method request /\ same_pathname request /\
     forall q key value,
       Matcher.mock_queryParams mock = Some q -> In (key, value) q ->
       JS.obj_get (Matcher.queryParams request) key = Some value)
  /\ (forall request' : Matcher.RequestSignature,
        Matcher.matchRequest request mock = true ->
        same_method request' -> same_pathname request' ->
        (forall key value,
           JS.obj_get (Matcher.queryParams request) key = Some value ->
           JS.obj_get (Matcher.queryParams request') key = Some value) ->
        Matcher.matchRequest request' mock = true)
  /\ (Matcher.mock_queryParams mock = None \/ Matcher.mock_queryParams mock = Some [] ->
        (Matcher.matchRequest request mock = true <->
           same_method request /\ same_pathname request)).
Proof.
  intros same_method same_pathname.
  assert (Hiff : forall r : Matcher.RequestSignature,
    Matcher.matchRequest r mock = true <->
    same_method r /\ same_pathname r /\
    forall q key value,
      Matcher.mock_queryParams mock = Some q -> In (key, value) q ->
      JS.obj_get (Matcher.queryParams r) key = Some value).
  { intros r. unfold Matcher.matchRequest, same_method, same_pathname.
    destruct (String.eqb_spec (JS.toUpperCase (Matcher.method r))
                (JS.toUpperCase (Matcher.mock_method mock))) as [Hm|Hm]; simpl.
    2: { split; [discriminate|]. intros [H _]. contradiction. }
    destruct (String.eqb_spec (Matcher.pathname r) (Matcher.mock_pathname mock))
      as [Hp|Hp]; simpl.
    2: { split; [discriminate|]. intros (_ & H & _). contradiction. }
    destruct (Matcher.mock_queryParams mock) as [q|].
    - replace (if (0 <? length (JS.obj_keys q))%nat
               then Matcher.queryParams_agree (Matcher.queryParams r) q
               else true)
        with (Matcher.queryParams_agree (Matcher.queryParams r) q)
        by (destruct q as [|[? ?] ?]; reflexivity).
      rewrite queryParams_agree_spec. split.
      + intros H. repeat split; try assumption.
        intros q' key value [= <-]. apply H.
      + intros (_ & _ & H) key value. now apply H.
    - split; [|reflexivity]. intros _. repeat split; try assumption.
      intros q key value [=]. }
  split; [apply Hiff|]. split.
  - intros request' Hmatch Hm Hp Hsub.
    apply Hiff in Hmatch as (_ & _ & Hq).
    apply Hiff. repeat split; try assumption.
    intros q key value Hsome Hin. apply Hsub. now apply (Hq q).
  - intros Hempty. rewrite Hiff. split.
    + intros (Hm & Hp & _). now split.
    + intros [Hm Hp]. repeat split; try assumption.
      intros q key value Hsome Hin.
      destruct Hempty as [Hnone|Hnil]; rewrite Hsome in *; [discriminate|].
      injection Hnil as ->. destruct Hin.
Qed.

(** A request with one more parameter than the mock, and a method in another
    case. *)
Example matchRequest_extra_param :
  Matcher.matchRequest
    (@Matcher.createRequestSignature Host.platform "get" "/posts?userId=1&page=2")
    (Matcher.mkMockMetadata "GET" "/posts?userId=1" "/posts" (Some [("userId", "1")]))
  = true.
Proof. reflexivity. Qed.

Example matchRequest_other_value :
  Matcher.matchRequest
    (@Matcher.createRequestSignature Host.platform "GET" "/posts?userId=2")
    (Matcher.mkMockMetadata "GET" "/posts?userId=1" "/posts" (Some [("userId", "1")]))
  = false.
Proof. reflexivity. Qed.

(** ** [shouldRecordUrl] *)

Section ShouldRecord.
Context {P : Platform}.

Lemma any_match_true (patterns : list string) (url : string) :
  Matcher.compiles url patterns ->
  Exists (Matcher.matches url) patterns ->
  Matcher.any_match patterns url = Some true.
Proof.
  intros Hc Hex. induction patterns as [|p patterns IH]; simpl.
  - inversion Hex.
  - destruct (RegExp_test_i p url) as [[|]|] eqn:Ht.
    + reflexivity.
    + apply IH.
      * intros q Hq. apply Hc. now right.
      * inversion Hex as [? ? Hm|? ? Hm]; subst; [|assumption].
        unfold Matcher.matches in Hm. congruence.
    + exfalso. apply (Hc p); [now left|assumption].
Qed.

Lemma any_match_false (patterns : list string) (url : string) :
  Matcher.compiles url patterns ->
  ~ Exists (Matcher.matches url) patterns ->
  Matcher.any_match patterns url = Some false.
Proof.
  intros Hc Hex. induction patterns as [|p patterns IH]; simpl.
  - reflexivity.
  - destruct (RegExp_test_i p url) as [[|]|] eqn:Ht.
    + exfalso. apply Hex. now left.
    + apply IH.
      * intros q Hq. apply Hc. now right.
      * intros H. apply Hex. now right.
    + exfalso. apply (Hc p); [now left|assumption].
Qed.

(** C4. With patterns that compile, [shouldRecordUrl] looks at the exclude
    patterns first and answers [false] as soon as one matches, whatever the
    include patterns are; otherwise it answers [true], whether an include
    pattern matches or none does. In particular a URL that matches an include
    and an exclude pattern is refused, and a URL that matches neither list is
    accepted. *)
Theorem shouldRecordUrl_spec (config : Config.MockConfig) (url : string) :
  Matcher.compiles url (Config.excludePatterns config) ->
  (Exists (Matcher.matches url) (Config.excludePatterns config) ->
     Matcher.shouldRecordUrl config url = Some false)
  /\ (Matcher.compiles url (Config.includePatterns config) ->
      ~ Exists (Matcher.matches url) (Config.excludePatterns config) ->
      Exists (Matcher.matches url) (Config.includePatterns config) ->
      Matcher.shouldRecordUrl config url = Some true)
  /\ (Matcher.compiles url (Config.includePatterns config) ->
      ~ Exists (Matcher.matches url) (Config.excludePatterns config) ->
      ~ Exists (Matcher.matches url) (Config.includePatterns config) ->
      Matcher.shouldRecordUrl config url = Some true).
Proof.
  intros Hex. unfold Matcher.shouldRecordUrl. repeat split.
  - intros Hm. now rewrite (any_match_true _ _ Hex Hm).
  - intros Hin Hno Hm. rewrite (any_match_false _ _ Hex Hno).
    now rewrite (any_match_true _ _ Hin Hm).
  - intros Hin Hno Hno'. rewrite (any_match_false _ _ Hex Hno).
    now rewrite (any_match_false _ _ Hin Hno').
Qed.

End ShouldRecord.

Ltac in_list H :=
  simpl in H;
  repeat match type of H with
         | _ \/ _ => destruct H as [H|H]
         | False => destruct H
         end.

Lemma shouldRecordUrl_spec_witness :
  @Matcher.shouldRecordUrl Host.platform Config.defaultConfig "/api/logo.png"
  = Some false.
Proof.
  apply (@shouldRecordUrl_spec Host.platform Config.defaultConfig "/api/logo.png").
  - intros pattern Hin. in_list Hin; subst pattern; vm_compute; discriminate.
  - apply Exists_cons_hd. vm_compute. reflexivity.
Defined.

(** The cases on the configured patterns: refused although an include
    pattern matches, in either case of the letters; accepted on an include
    pattern; accepted by default. *)
Example shouldRecordUrl_cases :
  map (@Matcher.shouldRecordUrl Host.platform Config.defaultConfig)
    [ "/api/logo.png"; "/API/Logo.PNG"; "/api/users"; "/posts/1" ]
  = [ Some false; Some false; Some true; Some true ].
Proof. vm_compute. reflexivity. Qed.

(** ** [normalizeUrl] *)

(** C7, as amended. When the constructor of [URL] throws, [normalizeUrl]
    returns its argument; it is a total function, so it never throws. *)
Theorem normalizeUrl_fail_open {P : Platform} (url : string) :
  URL_new url (Matcher.baseUrl_for url) = None ->
  Matcher.normalizeUrl url = url.
Proof. intros H. unfold Matcher.normalizeUrl. now rewrite H. Qed.

Lemma normalizeUrl_fail_open_witness :
  @Matcher.normalizeUrl Host.platform "http://" = "http://".
Proof. apply (@normalizeUrl_fail_open Host.platform "http://"). reflexivity. Defined.

(** C7, as stated, fails on its own example: [not a url] does not start with
    [http], is resolved against [http://localhost] as a relative path, and
    comes back with a leading slash and its spaces percent-encoded. *)
Lemma normalizeUrl_not_a_url_changed :
  @URL_new Host.platform "not a url" (Matcher.baseUrl_for "not a url") <> None
  /\ @Matcher.normalizeUrl Host.platform "not a url" = "/not%20a%20url"
  /\ @Matcher.normalizeUrl Host.platform "not a url" <> "not a url".
Proof. repeat split; vm_compute; discriminate. Qed.

(** ** Sorting *)

Lemma leb_trans (a b c : string) :
  String.leb a b = true -> String.leb b c = true -> String.leb a c = true.
Proof.
  unfold String.leb.
  destruct (String.compare a b) eqn:Hab; try discriminate;
    destruct (String.compare b c) eqn:Hbc; try discriminate; intros _ _.
  - apply String.compare_eq_iff in Hab, Hbc. subst.
    assert (Hcc : String.compare c c = Eq)
      by now apply OrderedTypeEx.String_as_OT.cmp_eq.
    now rewrite Hcc.
  - apply String.compare_eq_iff in Hab. subst. now rewrite Hbc.
  - apply String.compare_eq_iff in Hbc. subst. now rewrite Hab.
  - apply OrderedTypeEx.String_as_OT.cmp_lt in Hab, Hbc.
    pose proof (OrderedTypeEx.String_as_OT.lt_trans _ _ _ Hab Hbc) as Hac.
    apply OrderedTypeEx.String_as_OT.cmp_lt in Hac.
    unfold OrderedTypeEx.String_as_OT.cmp in Hac. now rewrite Hac.
Qed.

Section Sorting.
Context {A : Type} (str : A -> string).

#[local] Instance before_trans : Transitive (JS.before str).
Proof. intros x y z. unfold JS.before. apply leb_trans. Qed.

Lemma insert_by_perm (x : A) (l : list A) : JS.insert_by str x l ≡ₚ x :: l.
Proof.
  induction l as [|y l IH]; simpl; [reflexivity|].
  destruct (String.leb (str x) (str y)); [reflexivity|].
  rewrite IH. apply perm_swap.
Qed.

Lemma sort_by_perm (l : list A) : JS.sort_by str l ≡ₚ l.
Proof.
  induction l as [|x l IH]; simpl; [reflexivity|].
  fold (JS.sort_by str l). rewrite insert_by_perm. now rewrite IH.
Qed.

Lemma insert_by_sorted (x : A) (l : list A) :
  Sorted (JS.before str) l -> Sorted (JS.before str) (JS.insert_by str x l).
Proof.
  induction 1 as [|y l Hs IH Hhd]; simpl.
  - repeat constructor.
  - destruct (String.leb (str x) (str y)) eqn:Hxy.
    + constructor; [now constructor|]. now constructor.
    + constructor; [assumption|].
      assert (Hyx : JS.before str y x).
      { unfold JS.before. destruct (String.leb_total (str x) (str y)); congruence. }
      destruct Hhd as [|z l Hyz]; simpl.
      * now constructor.
      * destruct (String.leb (str x) (str z)); now constructor.
Qed.

Lemma sort_by_sorted (l : list A) : Sorted (JS.before str) (JS.sort_by str l).
Proof.
  induction l as [|x l IH]; simpl; [constructor|].
  now apply insert_by_sorted.
Qed.

(** Two arrays with the same elements sort to the same array, as long as
    elements with the same string conversion are the same element. *)
Lemma sort_by_perm_eq (l1 l2 : list A) :
  (forall x y, In x l1 -> In y l1 -> str x = str y -> x = y) ->
  l1 ≡ₚ l2 -> JS.sort_by str l1 = JS.sort_by str l2.
Proof.
  intros Hinj Hperm.
  apply (Sorted_unique_strong (JS.before str)).
  - intros x y Hx Hy Hxy Hyx.
    apply Hinj.
    + apply list_elem_of_In. now rewrite <- (sort_by_perm l1).
    + apply list_elem_of_In. rewrite Hperm. now rewrite <- (sort_by_perm l2).
    + now apply String.leb_antisym.
  - apply sort_by_sorted.
  - apply sort_by_sorted.
  - now rewrite !sort_by_perm.
Qed.

End Sorting.

(** The string conversion of a pair tells the pairs apart when no name holds
    a comma. *)
Lemma includes_comma_cons (c : ascii) (s : string) :
  JS.includes (String c s) "," = false -> c <> ","%char /\ JS.includes s "," = false.
Proof.
  change (JS.includes (String c s) ",")
    with (String.prefix "," (String c s) || JS.includes s ",").
  intros H. apply orb_false_elim in H as [Hp Hi]. split; [|exact Hi].
  intros ->. destruct s; cbv in Hp; discriminate.
Qed.

Lemma append_nil_l (s : string) : EmptyString +:+ s = s.
Proof. reflexivity. Qed.

Lemma append_cons (c : ascii) (s t : string) :
  String c s +:+ t = String c (s +:+ t).
Proof. reflexivity. Qed.

Lemma pair_toString_inj (e e' : string * string) :
  JS.includes (fst e) "," = false -> JS.includes (fst e') "," = false ->
  JS.pair_toString e = JS.pair_toString e' -> e = e'.
Proof.
  destruct e as [k v], e' as [k' v']. unfold JS.pair_toString. cbn [fst snd].
  revert k'. induction k as [|c k IH]; intros [|c' k'] Hk Hk' Heq;
    rewrite ?append_cons, ?append_nil_l in Heq.
  - now injection Heq as ->.
  - apply includes_comma_cons in Hk' as [Hc _]. injection Heq as Hc' _. congruence.
  - apply includes_comma_cons in Hk as [Hc _]. injection Heq as Hc' _. congruence.
  - injection Heq as -> Heq.
    apply includes_comma_cons in Hk as [_ Hk], Hk' as [_ Hk'].
    specialize (IH k' Hk Hk' Heq). now injection IH as -> ->.
Qed.

(** ** The object [extractQueryParams] builds *)

Lemma obj_get_None_keys {V} (o : JS.obj V) (k : string) :
  ~ In k (JS.obj_keys o) -> JS.obj_get o k = None.
Proof.
  induction o as [|[k' v'] o IH]; simpl; [reflexivity|].
  intros H. destruct (String.eqb_spec k' k) as [->|Hne].
  - exfalso. apply H. now left.
  - apply IH. intros Hin. apply H. now right.
Qed.

Lemma collect_distinct (l : list (string * string)) (acc : JS.obj string) :
  NoDup (map fst l) ->
  (forall k, In k (map fst l) -> ~ In k (JS.obj_keys acc)) ->
  fold_left Matcher.collect l acc = acc ++ List.filter JS.own_key l.
Proof.
  revert acc. induction l as [|[k v] l IH]; intros acc Hnd Hfresh; simpl.
  - now rewrite app_nil_r.
  - inversion Hnd as [|? ? Hk Hnd']; subst.
    unfold Matcher.collect at 2, JS.own_key at 1, JS.obj_set. simpl fst. simpl snd.
    destruct (String.eqb k "__proto__") eqn:Hproto; simpl.
    + apply IH; [assumption|]. intros k' Hk'. apply Hfresh. now right.
    + rewrite obj_get_app_fresh.
      2: { apply obj_get_None_keys. apply Hfresh. now left. }
      rewrite IH; [now rewrite <- app_assoc|assumption|].
      intros k' Hk'. unfold JS.obj_keys. rewrite map_app, in_app_iff.
      intros [Hin|[<-|[]]].
      * apply (Hfresh k'); [now right|assumption].
      * apply Hk. apply list_elem_of_In. exact Hk'.
Qed.

Lemma obj_get_nodup {V} (o : JS.obj V) (k : string) (v : V) :
  NoDup (JS.obj_keys o) -> In (k, v) o -> JS.obj_get o k = Some v.
Proof.
  induction o as [|[k' v'] o IH]; simpl; [intros _ []|].
  intros Hnd [[= -> ->]|Hin].
  - now rewrite String.eqb_refl.
  - inversion Hnd as [|? ? Hk Hnd']; subst.
    destruct (String.eqb_spec k' k) as [->|Hne].
    + exfalso. apply Hk. apply list_elem_of_In.
      change k with (fst (k, v)). now apply in_map.
    + now apply IH.
Qed.

Lemma obj_get_perm {V} (o1 o2 : JS.obj V) (k : string) :
  NoDup (JS.obj_keys o1) -> o1 ≡ₚ o2 -> JS.obj_get o1 k = JS.obj_get o2 k.
Proof.
  intros Hnd Hperm.
  assert (Hnd2 : NoDup (JS.obj_keys o2)).
  { unfold JS.obj_keys in *. now rewrite <- (Permutation_map fst Hperm). }
  destruct (JS.obj_get o1 k) as [v|] eqn:H1.
  - symmetry. apply obj_get_nodup; [assumption|].
    eapply Permutation_in; [exact Hperm|]. now apply obj_get_In.
  - destruct (JS.obj_get o2 k) as [v|] eqn:H2; [|reflexivity].
    apply obj_get_In in H2.
    apply (Permutation_in _ (Permutation_sym Hperm)) in H2.
    apply (obj_get_nodup _ _ _ Hnd) in H2. congruence.
Qed.

Lemma filter_keys_nodup (f : string * string -> bool) (l : list (string * string)) :
  NoDup (map fst l) -> NoDup (map fst (List.filter f l)).
Proof.
  induction l as [|e l IH]; simpl; [constructor|].
  intros Hnd. inversion Hnd as [|? ? Hk Hnd']; subst.
  destruct (f e); simpl; [|now apply IH].
  constructor; [|now apply IH].
  intros Hin. apply Hk. apply list_elem_of_In.
  apply list_elem_of_In, in_map_iff in Hin as (e' & He' & Hin).
  apply filter_In in Hin as [Hin _]. rewrite <- He'. now apply in_map.
Qed.

Lemma queryString_of_perm (q1 q2 : JS.obj string) :
  NoDup (JS.obj_keys q1) -> q1 ≡ₚ q2 ->
  Matcher.queryString_of q1 = Matcher.queryString_of q2.
Proof.
  intros Hnd Hperm. unfold Matcher.queryString_of.
  rewrite (sort_by_perm_eq (fun k => k) (JS.obj_keys q1) (JS.obj_keys q2)).
  - f_equal. apply map_ext. intros k. now rewrite (obj_get_perm q1 q2 k Hnd Hperm).
  - intros x y _ _ H. exact H.
  - unfold JS.obj_keys. now apply Permutation_map.
Qed.

(** ** Query-order invariance *)

(** C3, as amended. Two URLs that parse, with the same origin and pathname
    and query parameters that are a rearrangement of one another, have the
    same [normalizedUrl] when no parameter name holds a comma, and the same
    mock filename when the parameter names are pairwise distinct. *)
Theorem query_order_invariance {P : Platform} (method u1 u2 : string)
    (o1 o2 : Web.URL) :
  let l1 := URLSearchParams_parse (Web.search o1) in
  let l2 := URLSearchParams_parse (Web.search o2) in
  URL_new u1 (Matcher.baseUrl_for u1) = Some o1 ->
  URL_new u2 (Matcher.baseUrl_for u2) = Some o2 ->
  JS.startsWith u1 "http" = JS.startsWith u2 "http" ->
  Web.origin o1 = Web.origin o2 ->
  Web.pathname o1 = Web.pathname o2 ->
  l1 ≡ₚ l2 ->
  (Forall (fun e => JS.includes (fst e) "," = false) l1 ->
     Matcher.normalizeUrl u1 = Matcher.normalizeUrl u2)
  /\ (NoDup (map fst l1) ->
      Matcher.generateMockFilename (Matcher.createRequestSignature method u1) =
      Matcher.generateMockFilename (Matcher.createRequestSignature method u2)).
Proof.
  intros l1 l2 H1 H2 Hhttp Horigin Hpath Hperm. split.
  - intros Hcomma. unfold Matcher.normalizeUrl. rewrite H1, H2, Hhttp, Horigin, Hpath.
    fold l1 l2.
    rewrite (sort_by_perm_eq JS.pair_toString l1 l2); [reflexivity| |assumption].
    rewrite Forall_forall in Hcomma.
    intros e e' He He'.
    apply pair_toString_inj; apply Hcomma; now apply list_elem_of_In.
  - intros Hnd.
    unfold Matcher.generateMockFilename, Matcher.createRequestSignature. simpl.
    unfold Matcher.extractPathname, Matcher.extractQueryParams.
    rewrite H1, H2, Hpath. fold l1 l2.
    assert (Hnd2 : NoDup (map fst l2)).
    { now rewrite <- (Permutation_map fst Hperm). }
    rewrite !collect_distinct by (assumption || (intros k _ [])). simpl.
    rewrite (queryString_of_perm (List.filter JS.own_key l1) (List.filter JS.own_key l2)).
    + reflexivity.
    + now apply filter_keys_nodup.
    + clear -Hperm. induction Hperm; simpl.
      * reflexivity.
      * destruct (JS.own_key x); [now constructor|assumption].
      * destruct (JS.own_key x), (JS.own_key y); try reflexivity. apply perm_swap.
      * etransitivity; eassumption.
Qed.

Lemma query_order_invariance_witness :
  @Matcher.normalizeUrl Host.platform "/posts?b=2&a=1"
  = @Matcher.normalizeUrl Host.platform "/posts?a=1&b=2"
  /\ Matcher.generateMockFilename
       (@Matcher.createRequestSignature Host.platform "GET" "/posts?b=2&a=1")
     = Matcher.generateMockFilename
       (@Matcher.createRequestSignature Host.platform "GET" "/posts?a=1&b=2").
Proof.
  destruct (@query_order_invariance Host.platform "GET"
              "/posts?b=2&a=1" "/posts?a=1&b=2"
              (Web.mkURL "http://localhost" "http://localhost" "/posts" "?b=2&a=1" "")
              (Web.mkURL "http://localhost" "http://localhost" "/posts" "?a=1&b=2" "")
              eq_refl eq_refl eq_refl eq_refl eq_refl (perm_swap _ _ _))
    as [Hurl Hfile].
  split.
  - apply Hurl. repeat constructor.
  - apply Hfile. apply (bool_decide_unpack _). vm_compute. exact I.
Defined.

(** C3, as stated, fails when a parameter name is repeated: the two URLs
    below differ only in the order of their parameters, yet the object of
    query parameters keeps the last value of [a], and the filenames carry
    the hash of [a=2] and of [a=1]. *)
Lemma query_order_repeated_name :
  let u1 := "/posts?a=1&a=2" in
  let u2 := "/posts?a=2&a=1" in
  (exists o1 o2 : Web.URL,
     @URL_new Host.platform u1 (Matcher.baseUrl_for u1) = Some o1 /\
     @URL_new Host.platform u2 (Matcher.baseUrl_for u2) = Some o2 /\
     Web.origin o1 = Web.origin o2 /\
     Web.pathname o1 = Web.pathname o2 /\
     @URLSearchParams_parse Host.platform (Web.search o1)
       ≡ₚ @URLSearchParams_parse Host.platform (Web.search o2))
  /\ Matcher.generateMockFilename (@Matcher.createRequestSignature Host.platform "GET" u1)
     = "get_posts_21fa.json"
  /\ Matcher.generateMockFilename (@Matcher.createRequestSignature Host.platform "GET" u2)
     = "get_posts_21f9.json"
  /\ Matcher.generateMockFilename (@Matcher.createRequestSignature Host.platform "GET" u1)
     <> Matcher.generateMockFilename (@Matcher.createRequestSignature Host.platform "GET" u2).
Proof.
  split.
  - eexists _, _. split; [reflexivity|]. split; [reflexivity|].
    split; [reflexivity|]. split; [reflexivity|]. apply perm_swap.
  - repeat split; vm_compute; discriminate.
Qed.

(** The same URLs written with a scheme are left as they are by this host,
    because the empty base they are parsed against is not a URL; and a name
    with a comma can tie with a name without one. *)
Example normalizeUrl_absolute :
  @Matcher.normalizeUrl Host.platform "http://host/posts?b=2&a=1"
  = "http://host/posts?b=2&a=1".
Proof. reflexivity. Qed.

Example normalizeUrl_comma :
  @Matcher.normalizeUrl Host.platform "/p?a,b=c&a=b,c" = "/p?a%2Cb=c&a=b%2Cc"
  /\ @Matcher.normalizeUrl Host.platform "/p?a=b,c&a,b=c" = "/p?a=b%2Cc&a%2Cb=c".
Proof. split; vm_compute; reflexivity. Qed.

(** ** Dynamic placeholders *)

(** Induction on values, with the hypothesis on every item of an array and
    every property of an object. *)
Fixpoint value_nested_ind (Q : JS.value -> Prop)
    (Hundefined : Q JS.VUndefined) (Hnull : Q JS.VNull)
    (Hbool : forall b, Q (JS.VBool b)) (Hnum : forall n, Q (JS.VNum n))
    (Hstr : forall s, Q (JS.VStr s))
    (Harr : forall items, Forall Q items -> Q (JS.VArr items))
    (Hobj : forall props, Forall (fun kv => Q (snd kv)) props -> Q (JS.VObj props))
    (v : JS.value) {struct v} : Q v :=
  let rec := value_nested_ind Q Hundefined Hnull Hbool Hnum Hstr Harr Hobj in
  match v with
  | JS.VUndefined => Hundefined
  | JS.VNull => Hnull
  | JS.VBool b => Hbool b
  | JS.VNum n => Hnum n
  | JS.VStr s => Hstr s
  | JS.VArr items =>
      Harr items
        ((fix go (l : list JS.value) : Forall Q l :=
            match l with
            | [] => List.Forall_nil Q
            | x :: r => List.Forall_cons Q x r (rec x) (go r)
            end) items)
  | JS.VObj props =>
      Hobj props
        ((fix go (l : list (string * JS.value)) : Forall (fun kv => Q (snd kv)) l :=
            match l with
            | [] => List.Forall_nil _
            | x :: r => List.Forall_cons _ x r (rec (snd x)) (go r)
            end) props)
  end.

Lemma replaceFirst_absent (pat template : string) (s : string) :
  JS.includes s pat = false -> JS.replaceFirst s pat template = s.
Proof.
  unfold JS.replaceFirst. generalize EmptyString as before.
  induction s as [|c s IH]; intros before Hinc.
  - cbn in Hinc |- *. apply orb_false_elim in Hinc as [Hp _]. now rewrite Hp.
  - change (JS.includes (String c s) pat)
      with (String.prefix pat (String c s) || JS.includes s pat) in Hinc.
    apply orb_false_elim in Hinc as [Hp Hinc].
    change (JS.replaceFirst_go pat template before (String c s))
      with (if String.prefix pat (String c s)
            then JS.getSubstitution pat before
                   (JS.drop (String.length pat) (String c s)) template
                 +:+ JS.drop (String.length pat) (String c s)
            else String c
                   (JS.replaceFirst_go pat template
                      (before +:+ String c EmptyString) s)).
    rewrite Hp. f_equal. now apply IH.
Qed.

(** The expression built from an escaped value matches that value. *)
Lemma literal_of_escapeRegex (value : string) :
  Sanitizer.literal_of (Sanitizer.escapeRegex value) = value.
Proof.
  induction value as [|c value IH]; [reflexivity|].
  cbn [Sanitizer.escapeRegex].
  destruct (Sanitizer.regex_special c) eqn:Hspecial.
  - cbn [Sanitizer.literal_of]. change (Ascii.eqb "\" "\") with true. cbv iota.
    now rewrite IH.
  - cbn [Sanitizer.literal_of].
    destruct (Ascii.eqb_spec c "\") as [->|Hne]; [discriminate Hspecial|].
    now rewrite IH.
Qed.

(** ** Commands *)

Import MockStorage.

Lemma bind_run {A B : Type} (m : Cy A) (k : A -> Cy B) (w : World) :
  (m ≫= k) w =
  match m w with
  | (w', inr a) => k a w'
  | (w', inl e) => (w', inl e)
  end.
Proof. reflexivity. Qed.

Lemma mret_run {A : Type} (a : A) (w : World) : mret (M := Cy) a w = (w, inr a).
Proof. reflexivity. Qed.

Lemma modify_run (f : World -> World) (w : World) : modify f w = (f w, inr tt).
Proof. reflexivity. Qed.

Lemma gets_run {A : Type} (f : World -> A) (w : World) : gets f w = (w, inr (f w)).
Proof. reflexivity. Qed.

Lemma fail_run {A : Type} (e : Failure) (w : World) : fail (A := A) e w = (w, inl e).
Proof. reflexivity. Qed.

Ltac run_cy := repeat first [rewrite bind_run | progress cbn].

(** One step of a chain of commands, without unfolding the state. *)
Ltac step_cy :=
  rewrite bind_run;
  rewrite ?mret_run, ?modify_run, ?gets_run, ?fail_run;
  cbv beta iota.

Lemma task_readMock_run (filePath : string) (w : World) :
  task_readMock filePath w =
  (with_taskLog (fun l => l ++ [ReadMock filePath]) w,
   match files w !! filePath with
   | None | Some NullFile => inr None
   | Some (MockFile m) => inr (Some m)
   | Some CorruptFile => inl (TaskFailed (ReadMock filePath))
   end).
Proof.
  unfold task_readMock. run_cy.
  now destruct (files w !! filePath) as [[m| |]|].
Qed.

(** ** [loadMock] *)

Section LoadMock.
Context {P : Platform}.
Variable env : Config.Env.

(** C6. [loadMock] looks in the cache under [METHOD:normalizedUrl] first. On
    a hit it returns the cached mock and leaves the world as it is: no task
    is called. On a miss it calls [readMock] once on the path of the
    signature; a mock that is found is put in the cache under that key and
    returned, and for a missing file the answer is [null], not a failure,
    and the cache is as before. *)
Theorem loadMock_cache_aside (signature : Matcher.RequestSignature) (w : World) :
  let cacheKey := cacheKey_of signature in
  let filePath := Matcher.generateMockPath (Config.getConfig env) signature in
  let w_read := with_taskLog (fun l => l ++ [ReadMock filePath]) w in
  cacheKey = Matcher.method signature +:+ ":" +:+ Matcher.normalizedUrl signature
  /\ (forall cached,
        mockCache w !! cacheKey = Some cached ->
        loadMock env signature w = (w, inr (Some cached)))
  /\ (forall mock,
        mockCache w !! cacheKey = None ->
        files w !! filePath = Some (MockFile mock) ->
        loadMock env signature w
        = (with_mockCache (fun c => <[cacheKey := mock]> c) w_read, inr (Some mock)))
  /\ (mockCache w !! cacheKey = None ->
      files w !! filePath = None ->
      loadMock env signature w = (w_read, inr None)
      /\ mockCache w_read = mockCache w).
Proof.
  intros cacheKey filePath w_read. split; [reflexivity|].
  unfold loadMock. fold cacheKey filePath. split; [|split].
  - intros cached Hhit. rewrite bind_run. cbn. now rewrite Hhit.
  - intros mock Hmiss Hfile. rewrite bind_run. cbn. rewrite Hmiss.
    rewrite bind_run, task_readMock_run, Hfile. reflexivity.
  - intros Hmiss Hfile. split; [|reflexivity].
    rewrite bind_run. cbn. rewrite Hmiss.
    rewrite bind_run, task_readMock_run, Hfile. reflexivity.
Qed.

(** Whatever it answers, [loadMock] sends nothing to the server and changes
    no file. *)
Lemma loadMock_quiet (signature : Matcher.RequestSignature) (w w' : World)
    (r : Failure + option RecordedMock) :
  loadMock env signature w = (w', r) ->
  serverLog w' = serverLog w /\ files w' = files w.
Proof.
  unfold loadMock. rewrite bind_run. cbn.
  destruct (mockCache w !! cacheKey_of signature) as [cached|].
  - intros [= <- _]. now split.
  - rewrite bind_run, task_readMock_run.
    destruct (files w !! _) as [[m| |]|]; intros [= <- _]; now split.
Qed.

End LoadMock.

Lemma loadMock_cache_aside_witness :
  let signature := @Matcher.createRequestSignature Host.platform "GET" "/posts" in
  let cached :=
    with_mockCache (fun c => <["GET:/posts" := Sample.posts_mock]> c) Sample.world0 in
  loadMock Sample.env_replay signature cached
  = (cached, inr (Some Sample.posts_mock))
  /\ fst (loadMock Sample.env_replay signature Sample.world_recorded)
     = with_mockCache (fun c => <["GET:/posts" := Sample.posts_mock]> c)
         (with_taskLog (fun l => l ++ [ReadMock Sample.posts_path]) Sample.world_recorded)
  /\ loadMock Sample.env_replay signature Sample.world0
     = (with_taskLog (fun l => l ++ [ReadMock Sample.posts_path]) Sample.world0,
        inr None).
Proof.
  intros signature cached.
  pose proof (loadMock_cache_aside Sample.env_replay signature)
    as Hspec.
  split; [|split].
  - apply (Hspec cached). reflexivity.
  - destruct (Hspec Sample.world_recorded) as (_ & _ & Hfound & _).
    rewrite (Hfound Sample.posts_mock); reflexivity.
  - destruct (Hspec Sample.world0) as (_ & _ & _ & Habsent).
    apply Habsent; reflexivity.
Defined.

(** ** Replay without fallback *)

Section Replay.
Context {P : Platform}.
Variable env : Config.Env.
Variable server : Request -> Response * Z.

Lemma with_counters_taskLog (f : Z * Z * Z -> Z * Z * Z)
    (g : list TaskCall -> list TaskCall) (w : World) :
  with_taskLog g (with_counters f w) = with_counters f (with_taskLog g w).
Proof.
  unfold with_counters, with_taskLog. cbn.
  now destruct (f (interceptedRequests w, recordedRequests w, replayedRequests w))
    as [[i r] p].
Qed.

Lemma with_counters_mockCache (f : Z * Z * Z -> Z * Z * Z)
    (g : gmap string RecordedMock -> gmap string RecordedMock) (w : World) :
  with_mockCache g (with_counters f w) = with_counters f (with_mockCache g w).
Proof.
  unfold with_counters, with_mockCache. cbn.
  now destruct (f (interceptedRequests w, recordedRequests w, replayedRequests w))
    as [[i r] p].
Qed.

Lemma with_counters_fields (f : Z * Z * Z -> Z * Z * Z) (w : World) :
  mockCache (with_counters f w) = mockCache w
  /\ files (with_counters f w) = files w
  /\ serverLog (with_counters f w) = serverLog w
  /\ taskLog (with_counters f w) = taskLog w.
Proof.
  unfold with_counters.
  now destruct (f (interceptedRequests w, recordedRequests w, replayedRequests w))
    as [[i r] p].
Qed.

(** The counters play no part in [loadMock]. *)
Lemma loadMock_counters (f : Z * Z * Z -> Z * Z * Z)
    (signature : Matcher.RequestSignature) (w : World) :
  loadMock env signature (with_counters f w) =
  (with_counters f (fst (loadMock env signature w)), snd (loadMock env signature w)).
Proof.
  unfold loadMock. rewrite !bind_run. cbn.
  destruct (with_counters_fields f w) as (-> & Hfiles & _ & _).
  destruct (mockCache w !! cacheKey_of signature) as [cached|]; [reflexivity|].
  rewrite !bind_run, !task_readMock_run. rewrite with_counters_taskLog.
  destruct (with_counters_fields f w) as (_ & -> & _ & _).
  destruct (files w !! _) as [[m| |]|]; try reflexivity.
  rewrite bind_run. cbn. now rewrite with_counters_mockCache.
Qed.

(** C5. In replay mode with fallback off, when the URL passes the filter and
    [loadMock] has no mock for the request, the call is answered by the
    handler itself: status 500, and a body whose [error] field says that the
    mock was not found and whose [message] names the method and the URL of
    the request. The request is counted as intercepted and nothing is sent
    to the server. *)
Theorem replay_miss_without_fallback (req : Request) (w w1 : World) :
  Config.autoFallback (Config.getConfig env) = false ->
  Matcher.shouldRecordUrl (Config.getConfig env) (req_url req) = Some true ->
  loadMock env (Matcher.createRequestSignature (req_method req) (req_url req)) w
  = (w1, inr None) ->
  let w' := with_counters (fun '(i, r, p) => (i + 1, r, p)) w1 in
  let reply := Recorder.mockNotFound req in
  Recorder.replayHandler env server req w = (w', inr (Recorder.Replied reply))
  /\ serverLog w' = serverLog w
  /\ Recorder.reply_statusCode reply = 500
  /\ JS.get_prop (Recorder.reply_body reply) "error" = Some (JS.VStr "Mock not found")
  /\ JS.get_prop (Recorder.reply_body reply) "message"
     = Some (JS.VStr ("No mock available for " +:+ req_method req +:+ " "
                      +:+ req_url req)).
Proof.
  intros Hfallback Hfilter Hload w' reply.
  split; [|split; [|repeat split]].
  - unfold Recorder.replayHandler, Recorder.shouldRecord.
    rewrite Hfilter. step_cy. cbn [negb]. step_cy.
    rewrite bind_run, loadMock_counters, Hload. cbn [fst snd].
    now rewrite Hfallback.
  - apply loadMock_quiet in Hload as [Hlog _]. unfold w'.
    destruct (with_counters_fields (fun '(i, r, p) => (i + 1, r, p)) w1)
      as (_ & _ & -> & _).
    exact Hlog.
Qed.

End Replay.

Lemma replay_miss_without_fallback_witness :
  exists w' : World,
    @Recorder.replayHandler Host.platform Sample.env_replay_strict Sample.server
      Sample.delete_post Sample.world0
    = (w', inr (Recorder.Replied (Recorder.mockNotFound Sample.delete_post)))
    /\ serverLog w' = []
    /\ interceptedRequests w' = 1
    /\ JS.get_prop (Recorder.reply_body (Recorder.mockNotFound Sample.delete_post))
         "message"
       = Some (JS.VStr "No mock available for DELETE /posts/1").
Proof.
  eexists.
  destruct (@replay_miss_without_fallback Host.platform Sample.env_replay_strict
              Sample.server Sample.delete_post Sample.world0 _
              eq_refl eq_refl eq_refl)
    as (Hrun & Hlog & _ & _ & Hmessage).
  split; [exact Hrun|]. split; [exact Hlog|]. split; [reflexivity|exact Hmessage].
Defined.

(** ** [sanitizeHeaders] *)

Section Headers.
Variable config : Config.MockConfig.
Variable options : Sanitizer.SanitizeOptions.
Hypothesis sanitizing : Sanitizer.opt_sanitizeHeaders options = true.
Hypothesis masking : Sanitizer.opt_maskAuthValues options = true.

#[local] Abbreviation masked := (Sanitizer.HStr Sanitizer.REMOVED).

Lemma obj_get_set_inv {V : Type} (o : JS.obj V) (key k : string) (x v : V) :
  JS.obj_get (JS.obj_set o key x) k = Some v ->
  (k = key /\ v = x) \/ JS.obj_get o k = Some v.
Proof.
  destruct (String.eqb_spec key "__proto__") as [->|Hproto].
  - unfold JS.obj_set. simpl. now right.
  - destruct (String.eqb_spec key k) as [<-|Hne].
    + rewrite obj_get_set_same by assumption. intros [= <-]. now left.
    + rewrite obj_get_set_other by assumption. now right.
Qed.

(** In what [sanitizeHeaders] returns, a listed name holds the sentinel and
    nothing else. *)
Lemma sanitizeHeaders_only_masked (headers : Sanitizer.Headers) (k : string)
    (v : Sanitizer.HeaderValue) :
  JS.obj_get (Sanitizer.sanitizeHeaders config headers options) k = Some v ->
  Sanitizer.listed config k = true ->
  v = masked.
Proof.
  unfold Sanitizer.sanitizeHeaders. rewrite sanitizing. cbn [negb].
  intros Hget Hlisted. revert Hget.
  assert (Hinv : forall acc : Sanitizer.Headers,
             (forall v', JS.obj_get acc k = Some v' -> v' = masked) ->
             forall v', JS.obj_get
                          (fold_left (Sanitizer.sanitizeHeaders_step config options)
                             headers acc) k = Some v' -> v' = masked).
  { induction headers as [|[key value] headers IH]; intros acc Hacc; [exact Hacc|].
    cbn [fold_left]. apply IH. intros v'.
    unfold Sanitizer.sanitizeHeaders_step.
    destruct (Sanitizer.listed config key) eqn:Hkey.
    - rewrite masking. intros Hv.
      apply obj_get_set_inv in Hv as [[_ ->]|Hv]; [reflexivity|now apply Hacc].
    - assert (Hne : k <> key) by (intros ->; congruence).
      destruct (_ && _); intros Hv;
        (apply obj_get_set_inv in Hv as [[Heq _]|Hv]; [contradiction|now apply Hacc]). }
  apply Hinv. intros v' [=].
Qed.

(** A listed name that the headers carry is there afterwards, with the
    sentinel for value. *)
Lemma sanitizeHeaders_masks (headers : Sanitizer.Headers) (k : string)
    (original : Sanitizer.HeaderValue) :
  In (k, original) headers ->
  Sanitizer.listed config k = true ->
  k <> "__proto__" ->
  JS.obj_get (Sanitizer.sanitizeHeaders config headers options) k = Some masked.
Proof.
  unfold Sanitizer.sanitizeHeaders. rewrite sanitizing. cbn [negb].
  intros Hin Hlisted Hproto.
  assert (Hgen : forall acc : Sanitizer.Headers,
             JS.obj_get acc k = Some masked \/ In (k, original) headers ->
             JS.obj_get
               (fold_left (Sanitizer.sanitizeHeaders_step config options) headers acc)
               k = Some masked).
  { clear Hin. induction headers as [|[key value] headers IH]; intros acc Hcase.
    - destruct Hcase as [Hacc|[]]. exact Hacc.
    - cbn [fold_left]. apply IH.
      unfold Sanitizer.sanitizeHeaders_step.
      destruct (String.eqb_spec key k) as [->|Hne].
      + left. rewrite Hlisted, masking. now apply obj_get_set_same.
      + destruct Hcase as [Hacc|[[= Heq _]|Hin]]; [|contradiction|now right].
        left. destruct (Sanitizer.listed config key).
        * rewrite masking. now rewrite obj_get_set_other.
        * destruct (_ && _); now rewrite obj_get_set_other. }
  apply Hgen. now right.
Qed.

End Headers.

(** The configured list is the default one, whatever the environment, and
    [__proto__] is not on it. *)
Lemma listed_not_proto (env : Config.Env) (k : string) :
  Sanitizer.listed (Config.getConfig env) k = true -> k <> "__proto__".
Proof. intros H ->. vm_compute in H. discriminate. Qed.

(** ** Recording *)

Section Recording.
Context {P : Platform}.
Variable env : Config.Env.
Variable server : Request -> Response * Z.

Lemma saveMock_run (request : SaveRequest) (response : SaveResponse)
    (responseTime : option Z) (w : World) :
  let signature :=
    Matcher.createRequestSignature (sreq_method request) (sreq_url request) in
  let filePath := Matcher.generateMockPath (Config.getConfig env) signature in
  let mock := mock_of signature request response responseTime (clock w) in
  saveMock env request response responseTime w =
  (with_sessionMocks (fun l => l ++ [filePath])
     (with_files (fun fs => <[filePath := MockFile mock]> fs)
        (with_taskLog (fun l => l ++ [WriteMock filePath mock]) w)),
   inr filePath).
Proof. reflexivity. Qed.

Lemma req_continue_run (req : Request) (w : World) :
  Recorder.req_continue server req w =
  (with_clock (fun t => t + snd (server req))
     (with_serverLog (fun l => l ++ [req]) w),
   inr (fst (server req))).
Proof. reflexivity. Qed.

(** What a recorded exchange leaves behind: the request counted as
    intercepted and as recorded, sent once to the server, and one mock
    written. *)
Lemma recordHandler_run (req : Request) (w : World) :
  Matcher.shouldRecordUrl (Config.getConfig env) (req_url req) = Some true ->
  let res := fst (server req) in
  let w1 := with_counters (fun '(i, r, p) => (i + 1, r, p)) w in
  let w2 := with_clock (fun t => t + snd (server req))
              (with_serverLog (fun l => l ++ [req]) w1) in
  let responseTime := clock w2 - clock w1 in
  Recorder.recordHandler env server req w =
  (with_counters (fun '(i, r, p) => (i, r + 1, p))
     (fst (saveMock env (Recorder.request_to_save env req)
             (Recorder.response_to_save env res) (Some responseTime) w2)),
   inr (Recorder.Forwarded res)).
Proof.
  intros Hfilter res w1 w2 responseTime.
  unfold Recorder.recordHandler, Recorder.shouldRecord. rewrite Hfilter.
  step_cy. cbn [negb]. step_cy. step_cy.
  rewrite bind_run, req_continue_run. cbv beta iota. step_cy.
  unfold Recorder.saveExchange. rewrite bind_run, saveMock_run. cbv beta iota zeta.
  step_cy. reflexivity.
Qed.

(** C2. In record mode, for a request whose URL passes the filter, what the
    test receives is the response of the server as it is, and the mock
    written to the file of the request holds the sentinel, and so not the
    original value, under every header name of the request and of the
    response that is on the configured list, whatever the case of the
    name. *)
Theorem record_masks_listed_headers (req : Request) (w : World) :
  Matcher.shouldRecordUrl (Config.getConfig env) (req_url req) = Some true ->
  let res := fst (server req) in
  let filePath :=
    Matcher.generateMockPath (Config.getConfig env)
      (Matcher.createRequestSignature (req_method req) (req_url req)) in
  let masked := Sanitizer.HStr Sanitizer.REMOVED in
  exists (w' : World) (mock : RecordedMock),
    Recorder.recordHandler env server req w = (w', inr (Recorder.Forwarded res))
    /\ files w' !! filePath = Some (MockFile mock)
    /\ (forall name original,
          In (name, original) (req_headers req) ->
          Sanitizer.listed (Config.getConfig env) name = true ->
          exists hs,
            requestHeaders mock = Some hs
            /\ JS.obj_get hs name = Some masked
            /\ (original <> masked -> JS.obj_get hs name <> Some original))
    /\ (forall headers name original,
          res_headers res = Some headers ->
          In (name, original) headers ->
          Sanitizer.listed (Config.getConfig env) name = true ->
          exists hs,
            responseHeaders mock = Some hs
            /\ JS.obj_get hs name = Some masked
            /\ (original <> masked -> JS.obj_get hs name <> Some original)).
Proof.
  intros Hfilter res filePath masked.
  rewrite (recordHandler_run req w Hfilter). rewrite saveMock_run.
  cbv beta iota zeta. cbn [fst].
  eexists _, _. split; [reflexivity|]. split.
  - rewrite (proj1 (proj2 (with_counters_fields _ _))).
    cbn [files with_sessionMocks with_files]. apply lookup_insert_eq.
  - split.
    + intros name original Hin Hlisted. eexists. split; [reflexivity|].
      assert (Hmasked :
        JS.obj_get
          (Sanitizer.sanitizeHeaders (Config.getConfig env) (req_headers req)
             Sanitizer.defaultSanitizeOptions) name = Some masked).
      { apply (sanitizeHeaders_masks _ Sanitizer.defaultSanitizeOptions
                 eq_refl eq_refl _ _ original);
          [assumption|assumption|]. now apply (listed_not_proto env). }
      split; [exact Hmasked|]. intros Hne. rewrite Hmasked. congruence.
    + intros headers name original Hres Hin Hlisted.
      cbn [mock_of responseHeaders Recorder.response_to_save sres_headers].
      fold res. rewrite Hres. eexists. split; [reflexivity|].
      assert (Hmasked :
        JS.obj_get
          (Sanitizer.sanitizeHeaders (Config.getConfig env) headers
             Sanitizer.defaultSanitizeOptions) name = Some masked).
      { apply (sanitizeHeaders_masks _ Sanitizer.defaultSanitizeOptions
                 eq_refl eq_refl _ _ original);
          [assumption|assumption|]. now apply (listed_not_proto env). }
      split; [exact Hmasked|]. intros Hne. rewrite Hmasked. congruence.
Qed.

End Recording.

Lemma record_masks_listed_headers_witness :
  exists (w' : World) (mock : RecordedMock) (sent received : Sanitizer.Headers),
    @Recorder.recordHandler Host.platform Sample.env_record Sample.server
      Sample.get_users_with_token Sample.world0
    = (w', inr (Recorder.Forwarded (fst (Sample.server Sample.get_users_with_token))))
    /\ files w' !! "cypress/mocks/https:/api.example.com/get_https__apiexamplecom_users.json"
       = Some (MockFile mock)
    /\ requestHeaders mock = Some sent
    /\ JS.obj_get sent "Authorization" = Some (Sanitizer.HStr "***REMOVED***")
    /\ responseHeaders mock = Some received
    /\ JS.obj_get received "Set-Cookie" = Some (Sanitizer.HStr "***REMOVED***").
Proof.
  destruct (@record_masks_listed_headers Host.platform Sample.env_record
              Sample.server Sample.get_users_with_token Sample.world0 eq_refl)
    as (w' & mock & Hrun & Hfile & Hrequest & Hresponse).
  destruct (Hrequest "Authorization" (Sanitizer.HStr "Bearer abc123")
              (or_introl eq_refl) eq_refl) as (sent & Hsent & Hauth & _).
  destruct (Hresponse _ "Set-Cookie" (Sanitizer.HArr ["sid=s3cr3t; HttpOnly"])
              eq_refl (or_intror (or_introl eq_refl)) eq_refl)
    as (received & Hreceived & Hcookie & _).
  exists w', mock, sent, received. repeat split; assumption.
Defined.

(** The mock that recording writes carries the URL of the request as it
    came, and the query parameters read from it. *)
Lemma record_persists_url_verbatim {P : Platform} (env : Config.Env)
    (server : Request -> Response * Z) (req : Request) (w : World) :
  Matcher.shouldRecordUrl (Config.getConfig env) (req_url req) = Some true ->
  exists (w' : World) (mock : RecordedMock),
    Recorder.recordHandler env server req w
    = (w', inr (Recorder.Forwarded (fst (server req))))
    /\ taskLog w'
       = taskLog w
         ++ [WriteMock
               (Matcher.generateMockPath (Config.getConfig env)
                  (Matcher.createRequestSignature (req_method req) (req_url req)))
               mock]
    /\ url mock = req_url req
    /\ queryParams mock = Matcher.extractQueryParams (req_url req)
    /\ requestBody mock = req_body req
    /\ response mock = res_body (fst (server req)).
Proof.
  intros Hfilter. rewrite (recordHandler_run env server req w Hfilter).
  rewrite saveMock_run. cbv beta iota zeta. cbn [fst].
  eexists _, _. split; [reflexivity|].
  rewrite (proj2 (proj2 (proj2 (with_counters_fields _ _)))).
  cbn [taskLog with_sessionMocks with_files with_taskLog with_clock with_serverLog].
  rewrite (proj2 (proj2 (proj2 (with_counters_fields _ _)))).
  repeat split; reflexivity.
Qed.

(** C1, on the code: the record path stores the URL without masking it. A
    request whose query carries [token=abc123] is recorded with that URL,
    token included, and with the token among the stored query parameters,
    both for the absolute URL an intercepted request has and for a relative
    one; on the relative one [sanitizeUrl], the first stage of
    [sanitizeRecordedData], would have masked the token. *)
Theorem record_persists_token :
  (exists (w' : World) (mock : RecordedMock),
     @Recorder.recordHandler Host.platform Sample.env_record Sample.server
       Sample.get_users_with_token Sample.world0
     = (w', inr (Recorder.Forwarded (fst (Sample.server Sample.get_users_with_token))))
     /\ taskLog w'
        = [WriteMock
             "cypress/mocks/https:/api.example.com/get_https__apiexamplecom_users.json"
             mock]
     /\ url mock = "https://api.example.com/users?token=abc123"
     /\ JS.includes (url mock) "abc123" = true)
  /\ (let req :=
        mkRequest "GET" "/users?token=abc123"
          [("Authorization", Sanitizer.HStr "Bearer abc123")] JS.VUndefined in
      exists (w' : World) (mock : RecordedMock),
        @Recorder.recordHandler Host.platform Sample.env_record Sample.server
          req Sample.world0
        = (w', inr (Recorder.Forwarded (fst (Sample.server req))))
        /\ taskLog w' = [WriteMock "cypress/mocks/users/get_users_vm277w.json" mock]
        /\ url mock = "/users?token=abc123"
        /\ queryParams mock = [("token", "abc123")]
        /\ @Sanitizer.sanitizeUrl Host.platform "/users?token=abc123"
           = "/users?token=***REMOVED***"
        /\ url mock <> @Sanitizer.sanitizeUrl Host.platform (url mock)).
Proof.
  split.
  - destruct (@record_persists_url_verbatim Host.platform Sample.env_record
                Sample.server Sample.get_users_with_token Sample.world0 eq_refl)
      as (w' & mock & Hrun & Hlog & Hurl & _).
    exists w', mock. split; [exact Hrun|]. split; [exact Hlog|].
    split; [exact Hurl|]. rewrite Hurl. reflexivity.
  - intros req.
    destruct (@record_persists_url_verbatim Host.platform Sample.env_record
                Sample.server req Sample.world0 eq_refl)
      as (w' & mock & Hrun & Hlog & Hurl & Hquery & _).
    exists w', mock. split; [exact Hrun|]. split; [exact Hlog|].
    split; [exact Hurl|]. split; [rewrite Hquery; reflexivity|].
    split; [reflexivity|]. rewrite Hurl. vm_compute. discriminate.
Qed.

(** ** [preloadMocks] *)

Section Preload.
Context {P : Platform}.
Variable env : Config.Env.

#[local] Abbreviation path_of file :=
  (Config.mockDir (Config.getConfig env) +:+ "/" +:+ file).
#[local] Abbreviation key_of m :=
  (cacheKey_of (Matcher.createRequestSignature (method m) (url m))).

Lemma preloadOne_run (file : string) (w : World) :
  preloadOne env file w =
  let w_read := with_taskLog (fun l => l ++ [ReadMock (path_of file)]) w in
  match files w !! path_of file with
  | Some (MockFile m) =>
      (with_mockCache (fun c => <[key_of m := m]> c) w_read, inr tt)
  | Some CorruptFile => (w_read, inl (TaskFailed (ReadMock (path_of file))))
  | Some NullFile | None => (w_read, inr tt)
  end.
Proof.
  unfold preloadOne. rewrite bind_run, task_readMock_run.
  now destruct (files w !! path_of file) as [[m| |]|].
Qed.

#[local] Abbreviation from_files := (stored_under env).

(** A mock in the cache stays there through the loop unless a later file
    with the same key takes its place. *)
Lemma forEach_preload (files_read : list string) (w : World) :
  (forall file, In file files_read -> files w !! path_of file <> Some CorruptFile) ->
  exists w',
    forEach files_read (preloadOne env) w = (w', inr tt)
    /\ files w' = files w
    /\ serverLog w' = serverLog w
    /\ (forall k v, mockCache w !! k = Some v ->
          mockCache w' !! k = Some v
          \/ exists m, mockCache w' !! k = Some m /\ from_files w files_read k m)
    /\ (forall file m,
          In file files_read -> files w !! path_of file = Some (MockFile m) ->
          exists m', mockCache w' !! key_of m = Some m'
                     /\ from_files w files_read (key_of m) m').
Proof.
  revert w. induction files_read as [|file0 rest IH]; intros w Hok.
  - exists w. cbn. repeat split; try reflexivity.
    + intros k v Hk. now left.
    + intros file m [].
  - cbn [forEach]. rewrite bind_run, preloadOne_run. cbv zeta.
    set (w_read := with_taskLog (fun l => l ++ [ReadMock (path_of file0)]) w).
    assert (Hhead := Hok file0 (or_introl eq_refl)).
    assert (Hstep : exists w1,
      match files w !! path_of file0 with
      | Some (MockFile m) =>
          (with_mockCache (fun c => <[key_of m := m]> c) w_read, inr tt)
      | Some CorruptFile => (w_read, inl (TaskFailed (ReadMock (path_of file0))))
      | _ => (w_read, inr tt)
      end = (w1, inr tt)
      /\ files w1 = files w /\ serverLog w1 = serverLog w
      /\ (forall k v, mockCache w !! k = Some v ->
            mockCache w1 !! k = Some v
            \/ exists m, files w !! path_of file0 = Some (MockFile m)
                         /\ key_of m = k /\ mockCache w1 !! k = Some m)
      /\ (forall m, files w !! path_of file0 = Some (MockFile m) ->
            mockCache w1 !! key_of m = Some m)).
    { destruct (files w !! path_of file0) as [[m| |]|] eqn:Hfile; try congruence.
      - eexists. split; [reflexivity|]. repeat split.
        + intros k v Hk. cbn. destruct (decide (key_of m = k)) as [<-|Hne].
          * right. exists m. split; [reflexivity|]. split; [reflexivity|].
            apply lookup_insert_eq.
          * left. now rewrite lookup_insert_ne.
        + intros m' [= <-]. cbn. apply lookup_insert_eq.
      - eexists. split; [reflexivity|]. repeat split.
        + intros k v Hk. now left.
        + intros m' [=].
      - eexists. split; [reflexivity|]. repeat split.
        + intros k v Hk. now left.
        + intros m' [=]. }
    destruct Hstep as (w1 & -> & Hfiles1 & Hlog1 & Hkeep1 & Hput1).
    destruct (IH w1) as (w' & Hrun & Hfiles & Hlog & Hkeep & Hput).
    { intros file Hin. rewrite Hfiles1. apply Hok. now right. }
    exists w'. split; [exact Hrun|]. split; [congruence|]. split; [congruence|].
    assert (Hlift : forall k m, from_files w1 rest k m -> from_files w (file0 :: rest) k m).
    { intros k m (file & Hin & Hfile & Hkey). exists file.
      rewrite Hfiles1 in Hfile. repeat split; [now right|assumption|assumption]. }
    assert (Hafter : forall k v, mockCache w1 !! k = Some v ->
                       from_files w (file0 :: rest) k v ->
                       exists m, mockCache w' !! k = Some m
                                 /\ from_files w (file0 :: rest) k m).
    { intros k v Hk Hfrom. destruct (Hkeep k v Hk) as [Hsame|(m & Hm & Hfrom')].
      - now exists v.
      - exists m. split; [assumption|now apply Hlift]. }
    split.
    + intros k v Hk. destruct (Hkeep1 k v Hk) as [Hsame|(m & Hfile & Hkey & Hm)].
      * destruct (Hkeep k v Hsame) as [Hsame'|(m & Hm & Hfrom)]; [now left|].
        right. exists m. split; [assumption|now apply Hlift].
      * right. apply (Hafter k m Hm). exists file0. repeat split; [now left|assumption|assumption].
    + intros file m [<-|Hin] Hfile.
      * apply (Hafter (key_of m) m (Hput1 m Hfile)).
        exists file0. repeat split; [now left|assumption].
      * rewrite <- Hfiles1 in Hfile.
        destruct (Hput file m Hin Hfile) as (m' & Hm' & Hfrom).
        exists m'. split; [assumption|now apply Hlift].
Qed.



End Preload.



(* ===================================================================== *)
(** * Further properties *)
(* ===================================================================== *)

(** ** Strings *)

Lemma append_nil_r (s : string) : s +:+ EmptyString = s.
Proof. induction s as [|c s IH]; [reflexivity|]. now rewrite append_cons, IH. Qed.

Lemma append_assoc (a b c : string) : (a +:+ b) +:+ c = a +:+ (b +:+ c).
Proof.
  induction a as [|x a IH]; [reflexivity|]. now rewrite !append_cons, IH.
Qed.

Lemma length_append (a b : string) :
  String.length (a +:+ b) = (String.length a + String.length b)%nat.
Proof.
  induction a as [|x a IH]; [reflexivity|].
  rewrite append_cons. cbn [String.length]. now rewrite IH.
Qed.

Lemma prefix_nil (s : string) : String.prefix EmptyString s = true.
Proof. now destruct s. Qed.

Lemma prefix_cons (c d : ascii) (a s : string) :
  String.prefix (String c a) (String d s) = Ascii.eqb c d && String.prefix a s.
Proof.
  cbn [String.prefix]. destruct (ascii_dec c d) as [->|Hne].
  - now rewrite Ascii.eqb_refl.
  - apply Ascii.eqb_neq in Hne. now rewrite Hne.
Qed.

Lemma prefix_append (a b : string) : String.prefix a (a +:+ b) = true.
Proof.
  induction a as [|c a IH]; [apply prefix_nil|].
  now rewrite append_cons, prefix_cons, Ascii.eqb_refl, IH.
Qed.

Lemma prefix_split (a s : string) :
  String.prefix a s = true -> s = a +:+ JS.drop (String.length a) s.
Proof.
  revert s. induction a as [|c a IH]; intros s H; [reflexivity|].
  destruct s as [|d s]; [discriminate|].
  rewrite prefix_cons in H. apply andb_prop in H as [Hc H].
  apply Ascii.eqb_eq in Hc. subst d.
  cbn [String.length JS.drop]. rewrite append_cons. f_equal. now apply IH.
Qed.

Lemma drop_append (a b : string) : JS.drop (String.length a) (a +:+ b) = b.
Proof. induction a as [|c a IH]; [reflexivity|]. now rewrite append_cons. Qed.

Lemma endsWith_append (a suffix : string) : JS.endsWith (a +:+ suffix) suffix = true.
Proof.
  unfold JS.endsWith. rewrite length_append.
  replace (String.length a + String.length suffix - String.length suffix)%nat
    with (String.length a) by lia.
  rewrite drop_append, String.eqb_refl.
  apply andb_true_intro. split; [|reflexivity]. apply Nat.leb_le. lia.
Qed.

Lemma forall_string_append (f : ascii -> bool) (a b : string) :
  JS.forall_string f (a +:+ b) = JS.forall_string f a && JS.forall_string f b.
Proof.
  induction a as [|c a IH]; [reflexivity|].
  rewrite append_cons. cbn [JS.forall_string]. now rewrite IH, andb_assoc.
Qed.

(** [s.split(sep)[0]] holds no separator, and [s] is that part alone or that
    part, a separator and a rest. *)
Lemma split_head (sep : ascii) (s : string) :
  let head := hd EmptyString (JS.split sep s) in
  JS.forall_string (fun c => negb (Ascii.eqb c sep)) head = true
  /\ (s = head \/ exists rest, s = head +:+ String sep rest).
Proof.
  induction s as [|c s IH]; cbn [JS.split].
  - split; [reflexivity|now left].
  - destruct (Ascii.eqb_spec c sep) as [->|Hne].
    + split; [reflexivity|]. right. now exists s.
    + destruct IH as [Hall Hcase].
      destruct (JS.split sep s) as [|h t] eqn:Hsplit; cbn [hd] in *.
      * destruct Hcase as [->|[rest ->]].
        -- split; [|now left]. cbn. apply Ascii.eqb_neq in Hne. now rewrite Hne.
        -- split; [|right; now exists rest].
           cbn. apply Ascii.eqb_neq in Hne. now rewrite Hne.
      * split.
        -- cbn [JS.forall_string]. apply Ascii.eqb_neq in Hne. now rewrite Hne.
        -- destruct Hcase as [->|[rest ->]]; [now left|].
           right. exists rest. now rewrite append_cons.
Qed.

(** ** Signatures of URLs that do not parse *)

Section SignatureFailOpen.
Context {P : Platform}.

(** X1. When the constructor of [URL] throws on a URL, the signature built
    from it falls back on the string: the normalized URL is the URL itself,
    there are no query parameters, and the pathname is the part of the URL
    before its first question mark. *)
Theorem signature_fail_open (method url : string) :
  URL_new url (Matcher.baseUrl_for url) = None ->
  let signature := Matcher.createRequestSignature method url in
  Matcher.normalizedUrl signature = url
  /\ Matcher.queryParams signature = []
  /\ JS.forall_string (fun c => negb (Ascii.eqb c "?")) (Matcher.pathname signature) = true
  /\ (url = Matcher.pathname signature
      \/ exists query, url = Matcher.pathname signature +:+ String "?" query).
Proof.
  intros Hfail.
  cbn [Matcher.createRequestSignature Matcher.normalizedUrl Matcher.queryParams
       Matcher.pathname].
  unfold Matcher.normalizeUrl, Matcher.extractQueryParams, Matcher.extractPathname.
  rewrite Hfail. split; [reflexivity|]. split; [reflexivity|].
  apply split_head.
Qed.

(** X2. Two URLs on which the constructor of [URL] throws and that agree up
    to their first question mark get the same mock file for a method,
    whatever their query strings are. *)
Theorem unparsed_urls_share_a_file (config : Config.MockConfig)
    (method url1 url2 : string) :
  URL_new url1 (Matcher.baseUrl_for url1) = None ->
  URL_new url2 (Matcher.baseUrl_for url2) = None ->
  hd EmptyString (JS.split "?" url1) = hd EmptyString (JS.split "?" url2) ->
  Matcher.generateMockPath config (Matcher.createRequestSignature method url1)
  = Matcher.generateMockPath config (Matcher.createRequestSignature method url2).
Proof.
  intros H1 H2 Hhead.
  unfold Matcher.generateMockPath, Matcher.generateMockFilename,
    Matcher.createRequestSignature.
  cbn [Matcher.pathname Matcher.queryParams Matcher.method].
  unfold Matcher.extractQueryParams, Matcher.extractPathname.
  now rewrite H1, H2, Hhead.
Qed.

End SignatureFailOpen.

Lemma signature_fail_open_witness :
  let signature :=
    @Matcher.createRequestSignature Host.platform "get"
      "http://host/posts?userId=1" in
  Matcher.normalizedUrl signature = "http://host/posts?userId=1"
  /\ Matcher.queryParams signature = []
  /\ Matcher.pathname signature = "http://host/posts".
Proof.
  destruct (@signature_fail_open Host.platform "get" "http://host/posts?userId=1"
              eq_refl) as (Hurl & Hquery & _ & _).
  split; [exact Hurl|]. split; [exact Hquery|]. reflexivity.
Defined.

Lemma unparsed_urls_share_a_file_witness :
  Matcher.generateMockPath Config.defaultConfig
    (@Matcher.createRequestSignature Host.platform "GET" "http://host/posts?userId=1")
  = Matcher.generateMockPath Config.defaultConfig
      (@Matcher.createRequestSignature Host.platform "GET" "http://host/posts?userId=2").
Proof.
  apply (@unparsed_urls_share_a_file Host.platform Config.defaultConfig "GET"
           "http://host/posts?userId=1" "http://host/posts?userId=2");
    reflexivity.
Defined.

(** ** The keys of an object built by assignment *)

Section ObjectKeys.
Context {V : Type}.
Implicit Types (o : JS.obj V) (k : string) (v : V).

Lemma obj_get_app (a b : JS.obj V) k :
  JS.obj_get (a ++ b) k
  = match JS.obj_get a k with Some v => Some v | None => JS.obj_get b k end.
Proof.
  induction a as [|[k' v'] a IH]; simpl; [reflexivity|].
  now destruct (String.eqb k' k).
Qed.

Lemma obj_get_keys_None o k : JS.obj_get o k = None -> ~ In k (JS.obj_keys o).
Proof.
  induction o as [|[k' v'] o IH]; simpl; [tauto|].
  destruct (String.eqb_spec k' k) as [->|Hne]; [discriminate|].
  intros H [Heq|Hin]; [contradiction|]. now apply IH.
Qed.

Lemma obj_keys_put o k v :
  JS.obj_keys (JS.obj_put o k v)
  = match JS.obj_get o k with
    | Some _ => JS.obj_keys o
    | None => JS.obj_keys o ++ [k]
    end.
Proof.
  induction o as [|[k' v'] o IH]; simpl; [reflexivity|].
  destruct (String.eqb k' k); simpl; [reflexivity|].
  rewrite IH. now destruct (JS.obj_get o k).
Qed.

Lemma obj_keys_put_nodup o k v :
  NoDup (JS.obj_keys o) -> NoDup (JS.obj_keys (JS.obj_put o k v)).
Proof.
  intros Hnd. rewrite obj_keys_put.
  destruct (JS.obj_get o k) eqn:Hget; [assumption|].
  apply NoDup_app. split; [assumption|]. split; [|apply NoDup_singleton].
  intros x Hx Hk. apply list_elem_of_In in Hx.
  apply list_elem_of_In in Hk as [<-|[]].
  now apply (obj_get_keys_None o k).
Qed.

Lemma obj_keys_set_nodup o k v :
  NoDup (JS.obj_keys o) -> NoDup (JS.obj_keys (JS.obj_set o k v)).
Proof.
  intros Hnd. unfold JS.obj_set. destruct (String.eqb k "__proto__"); [assumption|].
  now apply obj_keys_put_nodup.
Qed.

Lemma obj_keys_set_in o k v k' :
  In k' (JS.obj_keys (JS.obj_set o k v)) ->
  In k' (JS.obj_keys o) \/ (k' = k /\ k <> "__proto__").
Proof.
  unfold JS.obj_set. destruct (String.eqb_spec k "__proto__") as [->|Hne]; [tauto|].
  rewrite obj_keys_put. destruct (JS.obj_get o k); [tauto|].
  rewrite in_app_iff. intros [H|[<-|[]]]; tauto.
Qed.

Lemma obj_keys_set_keeps o k v k' :
  In k' (JS.obj_keys o) -> In k' (JS.obj_keys (JS.obj_set o k v)).
Proof.
  unfold JS.obj_set. destruct (String.eqb k "__proto__"); [tauto|].
  rewrite obj_keys_put. destruct (JS.obj_get o k); [tauto|].
  rewrite in_app_iff. tauto.
Qed.

End ObjectKeys.

(** ** The query parameters of a signature *)

Lemma fold_collect_spec (l : list (string * string)) (acc : JS.obj string) :
  NoDup (JS.obj_keys acc) -> ~ In "__proto__" (JS.obj_keys acc) ->
  NoDup (JS.obj_keys (fold_left Matcher.collect l acc))
  /\ ~ In "__proto__" (JS.obj_keys (fold_left Matcher.collect l acc))
  /\ forall k, k <> "__proto__" ->
       JS.obj_get (fold_left Matcher.collect l acc) k
       = match JS.obj_get (rev l) k with
         | Some v => Some v
         | None => JS.obj_get acc k
         end.
Proof.
  revert acc. induction l as [|[k' v'] l IH]; intros acc Hnd Hproto.
  - simpl. auto.
  - cbn [fold_left].
    destruct (IH (Matcher.collect acc (k', v'))) as (Hnd' & Hproto' & Hget).
    + now apply obj_keys_set_nodup.
    + intros Hin. apply obj_keys_set_in in Hin as [Hin|[Heq Hne]]; [tauto|].
      cbn [fst] in Heq, Hne. congruence.
    + split; [assumption|]. split; [assumption|].
      intros k Hk. rewrite (Hget k Hk). cbn [rev]. rewrite obj_get_app.
      destruct (JS.obj_get (rev l) k); [reflexivity|].
      unfold Matcher.collect. cbn [fst snd JS.obj_get].
      destruct (String.eqb_spec k' k) as [->|Hne].
      * now apply obj_get_set_same.
      * now apply obj_get_set_other.
Qed.

(** X3. The query parameters of a URL that parses form an object with
    pairwise distinct names, none of them [__proto__], in which every other
    name holds the value of its last occurrence in the query string. *)
Theorem extractQueryParams_last_wins {P : Platform} (url : string)
    (urlObj : Web.URL) :
  URL_new url (Matcher.baseUrl_for url) = Some urlObj ->
  let entries := URLSearchParams_parse (Web.search urlObj) in
  let params := Matcher.extractQueryParams url in
  NoDup (JS.obj_keys params)
  /\ ~ In "__proto__" (JS.obj_keys params)
  /\ forall k, k <> "__proto__" ->
       JS.obj_get params k = JS.obj_get (rev entries) k.
Proof.
  intros Hparse. cbv zeta. unfold Matcher.extractQueryParams. rewrite Hparse.
  destruct (fold_collect_spec (URLSearchParams_parse (Web.search urlObj)) [])
    as (Hnd & Hproto & Hget); [constructor|simpl; tauto|].
  split; [assumption|]. split; [assumption|].
  intros k Hk. rewrite (Hget k Hk).
  now destruct (JS.obj_get (rev (URLSearchParams_parse (Web.search urlObj))) k).
Qed.

Lemma extractQueryParams_last_wins_witness :
  JS.obj_get (@Matcher.extractQueryParams Host.platform "/posts?a=1&b=3&a=2") "a"
  = Some "2".
Proof.
  destruct (@extractQueryParams_last_wins Host.platform "/posts?a=1&b=3&a=2"
              (Web.mkURL "http://localhost" "http://localhost" "/posts"
                 "?a=1&b=3&a=2" "")
              eq_refl) as (_ & _ & Hget).
  rewrite (Hget "a"); [reflexivity|discriminate].
Defined.

(** ** The characters of a mock file name *)

Lemma forall_string_impl (f g : ascii -> bool) (s : string) :
  (forall c, f c = true -> g c = true) ->
  JS.forall_string f s = true -> JS.forall_string g s = true.
Proof.
  intros Himpl. induction s as [|c s IH]; cbn [JS.forall_string]; [reflexivity|].
  intros H. apply andb_prop in H as [Hc Hs].
  now rewrite (Himpl c Hc), (IH Hs).
Qed.

Lemma forall_string_filter (f : ascii -> bool) (s : string) :
  JS.forall_string f (JS.filter_string f s) = true.
Proof.
  induction s as [|c s IH]; cbn [JS.filter_string]; [reflexivity|].
  destruct (f c) eqn:Hc; [|exact IH].
  cbn [JS.forall_string]. now rewrite Hc, IH.
Qed.

Lemma substring0_forall (f : ascii -> bool) (n : nat) (s : string) :
  JS.forall_string f s = true -> JS.forall_string f (JS.substring0 n s) = true.
Proof.
  unfold JS.substring0. revert s.
  induction n as [|n IH]; intros [|c s] H; cbn; try reflexivity.
  cbn [JS.forall_string] in H. apply andb_prop in H as [Hc Hs].
  now rewrite Hc, (IH s Hs).
Qed.

Lemma substring0_length (n : nat) (s : string) :
  String.length (JS.substring0 n s) = Nat.min n (String.length s).
Proof.
  unfold JS.substring0. revert s.
  induction n as [|n IH]; intros [|c s]; cbn; try reflexivity.
  now rewrite IH.
Qed.

(** A digit of a base up to 36 prints as one of [0-9a-z]. *)
Lemma digit_base36 (d : Z) :
  0 <= d < 36 -> JS.is_digit (JS.digit d) || JS.is_lower (JS.digit d) = true.
Proof.
  intros Hd. rewrite <- (Z2Nat.id d) by lia.
  assert (Hn : (Z.to_nat d < 36)%nat) by lia.
  revert Hn. generalize (Z.to_nat d). intros n Hn.
  do 36 (destruct n as [|n]; [vm_compute; reflexivity|]). lia.
Qed.

Lemma toStringRadix_go_base36 (fuel : nat) (n : Z) (acc : string) :
  0 <= n ->
  JS.forall_string (fun c => JS.is_digit c || JS.is_lower c) acc = true ->
  JS.forall_string (fun c => JS.is_digit c || JS.is_lower c)
    (JS.toStringRadix_go 36 fuel n acc) = true.
Proof.
  revert n acc. induction fuel as [|fuel IH]; intros n acc Hn Hacc;
    cbn [JS.toStringRadix_go]; [exact Hacc|].
  assert (Hacc' : JS.forall_string (fun c => JS.is_digit c || JS.is_lower c)
                    (String (JS.digit (n mod 36)) acc) = true).
  { cbn [JS.forall_string]. rewrite Hacc, digit_base36; [reflexivity|].
    apply Z.mod_pos_bound. lia. }
  destruct (n / 36 =? 0); [exact Hacc'|].
  apply IH; [apply Z.div_pos; lia|exact Hacc'].
Qed.

Lemma toStringRadix_go_length (radix : Z) (fuel : nat) (n : Z) (acc : string) :
  (String.length acc <= String.length (JS.toStringRadix_go radix fuel n acc))%nat
  /\ (fuel <> O ->
      (1 <= String.length (JS.toStringRadix_go radix fuel n acc))%nat).
Proof.
  revert n acc. induction fuel as [|fuel IH]; intros n acc;
    cbn [JS.toStringRadix_go]; [split; [lia|congruence]|].
  destruct (n / radix =? 0); cbn [String.length]; [split; lia|].
  destruct (IH (n / radix) (String (JS.digit (n mod radix)) acc)) as [Hle _].
  cbn [String.length] in Hle. split; lia.
Qed.

Lemma toString36_base36 (n : Z) :
  0 <= n ->
  JS.forall_string (fun c => JS.is_digit c || JS.is_lower c) (JS.toString36 n) = true.
Proof.
  intros Hn. unfold JS.toString36, JS.toStringRadix.
  apply toStringRadix_go_base36; [exact Hn|reflexivity].
Qed.

(** X4. The hash of a query string is one to six characters long and made
    of digits and lower-case letters only. *)
Theorem simpleHash_shape (str : string) :
  (1 <= String.length (Matcher.simpleHash str) <= 6)%nat
  /\ JS.forall_string (fun c => JS.is_digit c || JS.is_lower c)
       (Matcher.simpleHash str) = true.
Proof.
  unfold Matcher.simpleHash. split.
  - rewrite substring0_length. unfold JS.toString36, JS.toStringRadix.
    destruct (toStringRadix_go_length 36
                (S (Z.to_nat (Z.log2 (Z.abs (Matcher.simpleHash_int str)))))
                (Z.abs (Matcher.simpleHash_int str)) EmptyString) as [_ Hpos].
    specialize (Hpos ltac:(discriminate)). lia.
  - apply substring0_forall, toString36_base36. lia.
Qed.

Lemma truthy_append_l (a b : string) : JS.truthy a = true -> JS.truthy (a +:+ b) = true.
Proof. destruct a; [discriminate|]. now rewrite append_cons. Qed.

(** X5. A mock file name is the lower-cased method, an underscore, a
    non-empty body made of letters, digits, underscores and hyphens only,
    and the extension [.json]: nothing of the pathname or of the query
    string reaches the name but such characters. *)
Theorem generateMockFilename_shape (signature : Matcher.RequestSignature) :
  exists body,
    Matcher.generateMockFilename signature
    = JS.toLowerCase (Matcher.method signature) +:+ "_" +:+ body +:+ ".json"
    /\ JS.truthy body = true
    /\ JS.forall_string Matcher.filename_char body = true.
Proof.
  unfold Matcher.generateMockFilename.
  set (cleaned := JS.filter_string Matcher.filename_char
                    (JS.map_string Matcher.slash_to_underscore
                       (Matcher.strip_leading_slash (Matcher.pathname signature)))).
  set (cleanPath := if JS.truthy cleaned then cleaned else "root").
  assert (Htruthy : JS.truthy cleanPath = true).
  { unfold cleanPath. now destruct (JS.truthy cleaned) eqn:H. }
  assert (Hsafe : JS.forall_string Matcher.filename_char cleanPath = true).
  { unfold cleanPath. destruct (JS.truthy cleaned); [|reflexivity].
    apply forall_string_filter. }
  destruct (JS.truthy (Matcher.queryString_of (Matcher.queryParams signature))).
  - eexists. split; [reflexivity|]. split.
    + now apply truthy_append_l.
    + rewrite !forall_string_append, Hsafe. cbn [andb].
      change (JS.forall_string Matcher.filename_char "_") with true. cbn [andb].
      apply (forall_string_impl (fun c => JS.is_digit c || JS.is_lower c)).
      * intros c Hc. unfold Matcher.filename_char.
        destruct (JS.is_lower c), (JS.is_digit c), (JS.is_upper c);
          try reflexivity; discriminate.
      * unfold Matcher.simpleHash. apply substring0_forall, toString36_base36. lia.
  - exists cleanPath. auto.
Qed.

(** ** A signature and the mock saved for it *)

Lemma upper_char_idem (c : ascii) : JS.upper_char (JS.upper_char c) = JS.upper_char c.
Proof. destruct c as [[] [] [] [] [] [] [] []]; reflexivity. Qed.

Lemma toUpperCase_idem (s : string) :
  JS.toUpperCase (JS.toUpperCase s) = JS.toUpperCase s.
Proof.
  unfold JS.toUpperCase. induction s as [|c s IH]; cbn [JS.map_string]; [reflexivity|].
  now rewrite upper_char_idem, IH.
Qed.

Lemma queryParams_agree_refl (q : JS.obj string) :
  NoDup (JS.obj_keys q) -> Matcher.queryParams_agree q q = true.
Proof.
  intros Hnd. apply queryParams_agree_spec. intros key value Hin.
  now apply obj_get_nodup.
Qed.

Lemma extractQueryParams_nodup {P : Platform} (url : string) :
  NoDup (JS.obj_keys (Matcher.extractQueryParams url)).
Proof.
  unfold Matcher.extractQueryParams.
  destruct (URL_new url (Matcher.baseUrl_for url)) as [urlObj|]; [|constructor].
  apply fold_collect_spec; [constructor|simpl; tauto].
Qed.

(** X6. The signature of a request matches the mock [saveMock] builds for
    that request, whatever the case of the method and whatever the URL, the
    response and the instant are. *)
Theorem matchRequest_saved_mock {P : Platform} (request : MockStorage.SaveRequest)
    (response : MockStorage.SaveResponse) (responseTime : option Z) (now : Z) :
  let signature :=
    Matcher.createRequestSignature (MockStorage.sreq_method request)
      (MockStorage.sreq_url request) in
  let mock := MockStorage.mock_of signature request response responseTime now in
  Matcher.matchRequest signature
    {| Matcher.mock_method := MockStorage.method mock;
       Matcher.mock_url := MockStorage.url mock;
       Matcher.mock_pathname := MockStorage.pathname mock;
       Matcher.mock_queryParams := Some (MockStorage.queryParams mock) |}
  = true.
Proof.
  cbv zeta. unfold Matcher.matchRequest.
  cbn [Matcher.mock_method Matcher.mock_pathname Matcher.mock_queryParams
       MockStorage.mock_of MockStorage.method MockStorage.pathname
       MockStorage.queryParams Matcher.createRequestSignature Matcher.method
       Matcher.pathname Matcher.queryParams].
  rewrite !String.eqb_refl. cbn [negb].
  rewrite queryParams_agree_refl by apply extractQueryParams_nodup.
  now destruct (0 <? length (JS.obj_keys (Matcher.extractQueryParams
                                             (MockStorage.sreq_url request))))%nat.
Qed.

(** ** Where a mock is stored *)

Lemma generateMockFilename_json (signature : Matcher.RequestSignature) :
  exists stem, Matcher.generateMockFilename signature = stem +:+ ".json".
Proof.
  unfold Matcher.generateMockFilename. cbv zeta.
  match goal with
  | |- exists stem, ?a +:+ "_" +:+ ?b +:+ ".json" = _ => exists (a +:+ "_" +:+ b)
  end.
  now rewrite !append_assoc.
Qed.

Lemma generateMockPath_shape (config : Config.MockConfig)
    (signature : Matcher.RequestSignature) :
  exists rel,
    Matcher.generateMockPath config signature = Config.mockDir config +:+ "/" +:+ rel
    /\ JS.endsWith rel ".json" = true.
Proof.
  unfold Matcher.generateMockPath. cbv zeta.
  destruct (generateMockFilename_json signature) as [stem ->].
  eexists. split; [reflexivity|].
  rewrite <- !append_assoc. apply endsWith_append.
Qed.

Lemma relative_to_under (dirPath rel : string) :
  relative_to dirPath (dirPath +:+ "/" +:+ rel) = Some rel.
Proof.
  unfold relative_to, JS.startsWith. rewrite <- append_assoc, prefix_append.
  replace (String.length dirPath + 1)%nat with (String.length (dirPath +:+ "/"))
    by (rewrite length_append; reflexivity).
  now rewrite drop_append.
Qed.

Lemma relative_to_inv (dirPath filePath rel : string) :
  relative_to dirPath filePath = Some rel -> filePath = dirPath +:+ "/" +:+ rel.
Proof.
  unfold relative_to, JS.startsWith.
  destruct (String.prefix (dirPath +:+ "/") filePath) eqn:Hprefix; [|discriminate].
  intros [= <-]. apply prefix_split in Hprefix.
  rewrite length_append in Hprefix. cbn [String.length] in Hprefix.
  now rewrite <- append_assoc.
Qed.

(** The listing of a directory holds the relative paths of its [.json]
    files and nothing else. *)
Lemma listing_spec (fs : gmap string FileContent) (dirPath rel : string) :
  In rel (listing fs dirPath)
  <-> JS.endsWith rel ".json" = true
      /\ exists content, fs !! (dirPath +:+ "/" +:+ rel) = Some content.
Proof.
  unfold listing. rewrite <- list_elem_of_In, list_elem_of_omap. split.
  - intros ([filePath content] & Hin & Hsome). cbn [fst] in Hsome.
    apply elem_of_map_to_list in Hin.
    destruct (relative_to dirPath filePath) as [rel'|] eqn:Hrel; [|discriminate].
    destruct (JS.endsWith rel' ".json") eqn:Hjson; [|discriminate].
    injection Hsome as <-. apply relative_to_inv in Hrel. subst filePath.
    split; [exact Hjson|]. now exists content.
  - intros (Hjson & content & Hfile).
    exists (dirPath +:+ "/" +:+ rel, content). split.
    + now apply elem_of_map_to_list.
    + cbn [fst]. now rewrite relative_to_under, Hjson.
Qed.

Ltac world_simpl :=
  cbn [mockCache sessionMocks isRecording isReplaying interceptedRequests
       recordedRequests replayedRequests files clock taskLog serverLog
       with_mockCache with_sessionMocks with_flags with_counters with_files
       with_clock with_taskLog with_serverLog fst snd].

Section Storage.
Context {P : Platform}.
Variable env : Config.Env.

#[local] Abbreviation mockDir := (Config.mockDir (Config.getConfig env)).
#[local] Abbreviation path_for signature :=
  (Matcher.generateMockPath (Config.getConfig env) signature).

Lemma loadMock_hit_run (signature : Matcher.RequestSignature) (w : World)
    (cached : RecordedMock) :
  mockCache w !! cacheKey_of signature = Some cached ->
  loadMock env signature w = (w, inr (Some cached)).
Proof. intros Hhit. unfold loadMock. rewrite bind_run. cbn. now rewrite Hhit. Qed.

Lemma loadMock_miss_run (signature : Matcher.RequestSignature) (w : World) :
  mockCache w !! cacheKey_of signature = None ->
  loadMock env signature w =
  let w_read := with_taskLog (fun l => l ++ [ReadMock (path_for signature)]) w in
  match files w !! path_for signature with
  | Some (MockFile m) =>
      (with_mockCache (fun c => <[cacheKey_of signature := m]> c) w_read,
       inr (Some m))
  | Some CorruptFile => (w_read, inl (TaskFailed (ReadMock (path_for signature))))
  | Some NullFile | None => (w_read, inr None)
  end.
Proof.
  intros Hmiss. unfold loadMock. rewrite bind_run. cbn. rewrite Hmiss.
  rewrite bind_run, task_readMock_run.
  now destruct (files w !! path_for signature) as [[m| |]|].
Qed.

(** X7. A mock saved for a request whose key is not in the cache is the
    mock [loadMock] returns for the signature of that request: read back
    from the file with every field as saved, and put in the cache. Nothing
    is sent to the server on the way. The bodies are to be values that the
    JSON text of the file gives back as they are. *)
Theorem save_then_load (request : SaveRequest) (response : SaveResponse)
    (responseTime : option Z) (w : World) :
  let signature :=
    Matcher.createRequestSignature (sreq_method request) (sreq_url request) in
  let saved := mock_of signature request response responseTime (clock w) in
  JS.storable (sreq_body request) = true ->
  JS.storable (sres_body response) = true ->
  mockCache w !! cacheKey_of signature = None ->
  exists w1 w2,
    saveMock env request response responseTime w = (w1, inr (path_for signature))
    /\ loadMock env signature w1 = (w2, inr (Some saved))
    /\ mockCache w2 !! cacheKey_of signature = Some saved
    /\ serverLog w2 = serverLog w.
Proof.
  intros signature saved _ _ Hmiss. eexists. eexists.
  split; [apply saveMock_run|]. fold signature. cbv zeta. fold saved.
  rewrite loadMock_miss_run by exact Hmiss.
  cbn [files with_sessionMocks with_files with_taskLog].
  rewrite lookup_insert_eq. cbv zeta.
  split; [reflexivity|]. split; [|reflexivity].
  cbn [mockCache with_mockCache with_taskLog with_sessionMocks with_files].
  apply lookup_insert_eq.
Qed.

(** X8. Saving does not touch the cache: when the key of the request is in
    the cache already, [saveMock] hands the new mock to [writeMock] for the
    file of the request, and [loadMock] still answers with the cached one,
    without reading the file. *)
Theorem save_leaves_cache_stale (request : SaveRequest) (response : SaveResponse)
    (responseTime : option Z) (w : World) (cached : RecordedMock) :
  let signature :=
    Matcher.createRequestSignature (sreq_method request) (sreq_url request) in
  let saved := mock_of signature request response responseTime (clock w) in
  mockCache w !! cacheKey_of signature = Some cached ->
  exists w1,
    saveMock env request response responseTime w = (w1, inr (path_for signature))
    /\ taskLog w1 = taskLog w ++ [WriteMock (path_for signature) saved]
    /\ mockCache w1 = mockCache w
    /\ loadMock env signature w1 = (w1, inr (Some cached)).
Proof.
  intros signature saved Hhit. eexists.
  split; [apply saveMock_run|]. fold signature. cbv zeta. fold saved.
  split; [reflexivity|]. split; [reflexivity|].
  now apply loadMock_hit_run.
Qed.

(** X9. After [saveMock] the file of the request exists for [mockExists],
    and [listMocks] reports it under the name that, put after the mock
    directory as [preloadMocks] does, is the path it was written to. The
    tasks resolve the paths they are given, so this is for a request whose
    path under the mock directory, method and pathname taken together, is
    made of names only: no empty segment and no dot segment. *)
Theorem saved_mock_is_listed (request : SaveRequest) (response : SaveResponse)
    (responseTime : option Z) (w : World) :
  let signature :=
    Matcher.createRequestSignature (sreq_method request) (sreq_url request) in
  plain_path (JS.drop (String.length mockDir + 1) (path_for signature)) = true ->
  exists w1 w2 w3 listed file,
    saveMock env request response responseTime w = (w1, inr (path_for signature))
    /\ mockExists env signature w1 = (w2, inr true)
    /\ listMocks env w2 = (w3, inr listed)
    /\ In file listed
    /\ mockDir +:+ "/" +:+ file = path_for signature.
Proof.
  intros signature _.
  destruct (generateMockPath_shape (Config.getConfig env) signature)
    as (rel & Hpath & Hjson).
  eexists. eexists. eexists. eexists. exists rel.
  split; [apply saveMock_run|]. fold signature. cbv zeta.
  split.
  { unfold mockExists, task_mockExists. step_cy. step_cy.
    cbn [files with_sessionMocks with_files with_taskLog].
    rewrite lookup_insert_eq. reflexivity. }
  split; [reflexivity|]. split; [|now rewrite Hpath].
  apply listing_spec. split; [exact Hjson|].
  cbn [files with_sessionMocks with_files with_taskLog].
  rewrite <- Hpath, lookup_insert_eq. eauto.
Qed.

(** X10. After [clearAllMocks] the cache and the list of the session are
    empty, [listMocks] finds nothing, and [loadMock] answers [null] for
    every signature whose path under the mock directory, method and
    pathname taken together, is made of names only, so that it cannot name
    a file outside the directory that is removed. *)
Theorem clearAllMocks_forgets (w : World) :
  exists w1,
    clearAllMocks env w = (w1, inr true)
    /\ mockCache w1 = ∅
    /\ sessionMocks w1 = []
    /\ snd (listMocks env w1) = inr []
    /\ forall signature,
         plain_path (JS.drop (String.length mockDir + 1) (path_for signature))
         = true ->
         snd (loadMock env signature w1) = inr None.
Proof.
  eexists. split; [reflexivity|].
  cbn [mockCache sessionMocks with_files with_taskLog with_sessionMocks
       with_mockCache].
  split; [reflexivity|]. split; [reflexivity|]. split.
  - unfold listMocks, task_listMocks. step_cy. step_cy. rewrite mret_run.
    cbn [snd files with_files with_taskLog with_sessionMocks with_mockCache].
    f_equal.
    destruct (listing _ mockDir) as [|rel rest] eqn:Hlisting; [reflexivity|].
    assert (Hin : In rel (listing
              (filter (fun kv => JS.startsWith (fst kv) (mockDir +:+ "/") = false)
                 (files w)) mockDir)) by (rewrite Hlisting; now left).
    apply listing_spec in Hin as (_ & content & Hfile).
    apply map_lookup_filter_Some in Hfile as [_ Hout]. cbn [fst] in Hout.
    unfold JS.startsWith in Hout.
    rewrite <- append_assoc, prefix_append in Hout. discriminate.
  - intros signature _. rewrite loadMock_miss_run by apply lookup_empty.
    cbn [files with_files with_taskLog with_sessionMocks with_mockCache].
    destruct (generateMockPath_shape (Config.getConfig env) signature)
      as (rel & Hpath & _).
    rewrite (proj2 (map_lookup_filter_None _ _ _)); [reflexivity|].
    right. intros content _. cbn [fst]. rewrite Hpath. unfold JS.startsWith.
    rewrite <- append_assoc, prefix_append. discriminate.
Qed.

(** X12. [clearCache] makes the next [loadMock] read the file again: a
    mock saved for a request, whatever the cache held for it, is the mock
    [loadMock] returns once the cache is cleared. The bodies are to be
    values that the JSON text of the file gives back as they are. *)
Theorem clearCache_refreshes (request : SaveRequest) (response : SaveResponse)
    (responseTime : option Z) (w : World) :
  let signature :=
    Matcher.createRequestSignature (sreq_method request) (sreq_url request) in
  let saved := mock_of signature request response responseTime (clock w) in
  JS.storable (sreq_body request) = true ->
  JS.storable (sres_body response) = true ->
  exists w',
    (saveMock env request response responseTime ≫= fun _ =>
     clearCache ≫= fun _ => loadMock env signature) w
    = (w', inr (Some saved))
    /\ mockCache w' = {[ cacheKey_of signature := saved ]}
    /\ serverLog w' = serverLog w.
Proof.
  intros signature saved _ _. eexists.
  rewrite bind_run, saveMock_run. cbv zeta beta iota. fold signature. fold saved.
  rewrite bind_run. unfold clearCache. rewrite modify_run. cbv beta iota.
  rewrite loadMock_miss_run by (world_simpl; apply lookup_empty).
  world_simpl. rewrite lookup_insert_eq. cbv zeta beta iota.
  split; [reflexivity|]. world_simpl. split; reflexivity.
Qed.

End Storage.

Lemma save_then_load_witness :
  exists w1 w2 m,
    @saveMock Host.platform Sample.env_record
      (mkSaveRequest "get" "/posts" None JS.VUndefined)
      (mkSaveResponse 200 (Some "OK") None (JS.VStr "[]")) (Some 150)
      Sample.world0
    = (w1, inr Sample.posts_path)
    /\ loadMock Sample.env_record
         (@Matcher.createRequestSignature Host.platform "get" "/posts") w1
       = (w2, inr (Some m))
    /\ method m = "GET" /\ status m = 200 /\ response m = JS.VStr "[]".
Proof.
  destruct (@save_then_load Host.platform Sample.env_record
              (mkSaveRequest "get" "/posts" None JS.VUndefined)
              (mkSaveResponse 200 (Some "OK") None (JS.VStr "[]")) (Some 150)
              Sample.world0 eq_refl eq_refl eq_refl)
    as (w1 & w2 & Hsave & Hload & _).
  exists w1, w2. eexists. split; [exact Hsave|]. split; [exact Hload|].
  repeat split.
Defined.

Lemma save_leaves_cache_stale_witness :
  let w := with_mockCache (fun c => <["GET:/posts" := Sample.posts_mock]> c)
             Sample.world0 in
  exists w1,
    fst (@saveMock Host.platform Sample.env_record
           (mkSaveRequest "get" "/posts" None JS.VUndefined)
           (mkSaveResponse 404 (Some "Not Found") None JS.VNull) None w) = w1
    /\ loadMock Sample.env_record
         (@Matcher.createRequestSignature Host.platform "get" "/posts") w1
       = (w1, inr (Some Sample.posts_mock)).
Proof.
  intros w.
  destruct (@save_leaves_cache_stale Host.platform Sample.env_record
              (mkSaveRequest "get" "/posts" None JS.VUndefined)
              (mkSaveResponse 404 (Some "Not Found") None JS.VNull) None
              w Sample.posts_mock eq_refl) as (w1 & Hsave & _ & _ & Hload).
  exists w1. split; [now rewrite Hsave|exact Hload].
Defined.

(** ** Preloading, then replaying *)

Section PreloadThenLoad.
Context {P : Platform}.
Variable env : Config.Env.

#[local] Abbreviation mockDir := (Config.mockDir (Config.getConfig env)).

(** X11. After a preload that read every listed file, [loadMock] answers
    the signature of every stored mock from the cache: the world is left as
    it is, so no task is called, and the answer is a mock stored under the
    same key. *)
Theorem preload_then_load_hits (w : World) :
  let listed := listing (files w) mockDir in
  (forall file, In file listed ->
     files w !! (mockDir +:+ "/" +:+ file) <> Some CorruptFile) ->
  exists w' count,
    preloadMocks env w = (w', inr count)
    /\ forall file m,
         In file listed ->
         files w !! (mockDir +:+ "/" +:+ file) = Some (MockFile m) ->
         let signature := Matcher.createRequestSignature (method m) (url m) in
         exists m',
           loadMock env signature w' = (w', inr (Some m'))
           /\ stored_under env w listed (cacheKey_of signature) m'.
Proof.
  intros listed Hok.
  set (w_list := with_taskLog (fun l => l ++ [ListMocks mockDir]) w).
  destruct (forEach_preload env listed w_list Hok) as (w' & Hrun & _ & _ & _ & Hput).
  exists w', (Z.of_nat (size (mockCache w'))). split.
  - unfold preloadMocks.
    assert (Hlist : listMocks env w = (w_list, inr listed)) by reflexivity.
    rewrite bind_run, Hlist. cbv beta iota. rewrite bind_run, Hrun. reflexivity.
  - intros file m Hin Hfile signature.
    destruct (Hput file m Hin Hfile) as (m' & Hcache & Hstored).
    exists m'. split; [|exact Hstored].
    apply loadMock_hit_run. exact Hcache.
Qed.

(** X13. A message is printed exactly when its level is not below the
    configured one: an error is printed under every configuration, and
    under the default one a debug message is not. *)
Theorem log_threshold (level : Config.LogLevel) (message : string) :
  (log env level message <> None
   <-> level_index (Config.logLevel (Config.getConfig env)) <= level_index level)
  /\ log env Config.error message = Some (console_error, "[MOCK ERROR] " +:+ message)
  /\ (Config.LOG_LEVEL env = None -> log env Config.debug message = None).
Proof.
  split; [|split].
  - unfold log. cbv zeta.
    destruct (Z.leb_spec (level_index (Config.logLevel (Config.getConfig env)))
                (level_index level)) as [Hle|Hlt].
    + split; [intros _; exact Hle|]. intros _. now destruct level.
    + split; [congruence|lia].
  - unfold log. cbv zeta.
    now destruct (Config.logLevel (Config.getConfig env)).
  - intros Hunset. unfold log, Config.getConfig. cbn [Config.logLevel].
    now rewrite Hunset.
Qed.

End PreloadThenLoad.

Lemma preload_then_load_hits_witness :
  exists w' count,
    @preloadMocks Host.platform Sample.env_replay Sample.world_recorded
    = (w', inr count)
    /\ exists m',
         loadMock Sample.env_replay
           (@Matcher.createRequestSignature Host.platform "GET" "/posts") w'
         = (w', inr (Some m')).
Proof.
  assert (Hlisted : listing (files Sample.world_recorded) "cypress/mocks"
                    = ["posts/get_posts.json"]) by (vm_compute; reflexivity).
  destruct (@preload_then_load_hits Host.platform Sample.env_replay
              Sample.world_recorded) as (w' & count & Hrun & Hhit).
  { change (Config.mockDir (Config.getConfig Sample.env_replay))
      with "cypress/mocks".
    rewrite Hlisted. intros file [<-|[]]. discriminate. }
  exists w', count. split; [exact Hrun|].
  destruct (Hhit "posts/get_posts.json" Sample.posts_mock) as (m' & Hload & _).
  - change (Config.mockDir (Config.getConfig Sample.env_replay))
      with "cypress/mocks".
    rewrite Hlisted. now left.
  - reflexivity.
  - exists m'. exact Hload.
Defined.

Lemma log_threshold_witness :
  log Sample.env_replay Config.debug "Looking for mock" = None.
Proof.
  destruct (log_threshold Sample.env_replay Config.debug "Looking for mock")
    as (_ & _ & Hquiet).
  apply Hquiet. reflexivity.
Defined.

(** ** What [sanitizeHeaders] returns *)

(** A loop that assigns at most one property per entry builds the assigned
    entries in order when the keys are distinct own keys. *)
Lemma assign_some {V W : Type} (step : JS.obj W -> string * V -> JS.obj W)
    (h : string * V -> option W) (props : list (string * V)) (acc : JS.obj W) :
  (forall acc kv, In kv props ->
     step acc kv = match h kv with
                   | Some x => JS.obj_set acc (fst kv) x
                   | None => acc
                   end) ->
  NoDup (JS.obj_keys props) ->
  forallb JS.own_key props = true ->
  (forall k, In k (JS.obj_keys props) -> ~ In k (JS.obj_keys acc)) ->
  fold_left step props acc
  = acc ++ omap (fun kv => match h kv with
                           | Some x => Some (fst kv, x)
                           | None => None
                           end) props.
Proof.
  revert acc.
  induction props as [|[k v] props IH]; intros acc Hstep Hnd Hown Hfresh;
    cbn [fold_left omap list_omap].
  - now rewrite app_nil_r.
  - apply NoDup_cons in Hnd as [Hk Hnd].
    cbn [forallb] in Hown. apply andb_prop in Hown as [Hk_own Hown].
    rewrite (Hstep acc (k, v)) by now left.
    assert (Hrest : forall acc' kv, In kv props ->
              step acc' kv = match h kv with
                             | Some x => JS.obj_set acc' (fst kv) x
                             | None => acc'
                             end)
      by (intros acc' kv Hin; apply Hstep; now right).
    destruct (h (k, v)) as [x|].
    + unfold JS.own_key in Hk_own. cbn [fst] in Hk_own.
      apply negb_true_iff in Hk_own.
      unfold JS.obj_set. cbn [fst]. rewrite Hk_own.
      rewrite obj_get_app_fresh.
      2: { apply obj_get_None_keys. apply Hfresh. now left. }
      rewrite IH; try assumption.
      * now rewrite <- app_assoc.
      * intros k' Hk'. unfold JS.obj_keys. rewrite map_app, in_app_iff.
        intros [Hin|[<-|[]]].
        -- apply (Hfresh k'); [now right|assumption].
        -- apply Hk. apply list_elem_of_In. exact Hk'.
    + apply IH; try assumption.
      intros k' Hk'. apply Hfresh. now right.
Qed.

Section HeaderEntries.
Variable config : Config.MockConfig.
Variable options : Sanitizer.SanitizeOptions.

#[local] Abbreviation masked := (Sanitizer.HStr Sanitizer.REMOVED).
#[local] Abbreviation is_cookie key :=
  (String.eqb (JS.toLowerCase key) "cookie"
   || String.eqb (JS.toLowerCase key) "set-cookie").

(** What becomes of one header. *)
#[local] Abbreviation kept entry :=
  (if Sanitizer.listed config (fst entry)
   then if Sanitizer.opt_maskAuthValues options then Some masked else None
   else if Sanitizer.opt_sanitizeCookies options && is_cookie (fst entry)
        then Some masked
        else Some (snd entry)).

(** One round of the loop assigns what is kept of the header, if
    anything. *)
Lemma sanitizeHeaders_step_kept (acc : Sanitizer.Headers)
    (entry : string * Sanitizer.HeaderValue) :
  Sanitizer.sanitizeHeaders_step config options acc entry
  = match kept entry with
    | Some x => JS.obj_set acc (fst entry) x
    | None => acc
    end.
Proof.
  destruct entry as [key value]. unfold Sanitizer.sanitizeHeaders_step.
  cbn [fst snd]. destruct (Sanitizer.listed config key).
  - now destruct (Sanitizer.opt_maskAuthValues options).
  - now destruct (Sanitizer.opt_sanitizeCookies options && is_cookie key).
Qed.

(** X14. With header sanitizing on, the headers returned are the given
    ones in their order, each with its name: a name on the configured list
    holds the sentinel when masking is on and is left out when it is off,
    a cookie header not on the list holds the sentinel when cookie
    sanitizing is on, and every other header keeps its value. *)
Theorem sanitizeHeaders_entries (headers : Sanitizer.Headers) :
  Sanitizer.opt_sanitizeHeaders options = true ->
  NoDup (JS.obj_keys headers) ->
  forallb JS.own_key headers = true ->
  Sanitizer.sanitizeHeaders config headers options
  = omap (fun entry => match kept entry with
                       | Some x => Some (fst entry, x)
                       | None => None
                       end) headers.
Proof.
  intros Hon Hnd Hown. unfold Sanitizer.sanitizeHeaders. rewrite Hon. cbn [negb].
  apply (assign_some (Sanitizer.sanitizeHeaders_step config options)
           (fun entry => kept entry) headers []); try assumption.
  - intros acc entry _. apply sanitizeHeaders_step_kept.
  - intros k _ [].
Qed.

(** X15. With masking off, a header whose name is on the configured list
    is not in what [sanitizeHeaders] returns: it is dropped, not kept. *)
Theorem sanitizeHeaders_drops_listed (headers : Sanitizer.Headers) (k : string) :
  Sanitizer.opt_sanitizeHeaders options = true ->
  Sanitizer.opt_maskAuthValues options = false ->
  Sanitizer.listed config k = true ->
  JS.obj_get (Sanitizer.sanitizeHeaders config headers options) k = None.
Proof.
  intros Hon Hoff Hlisted. unfold Sanitizer.sanitizeHeaders. rewrite Hon. cbn [negb].
  assert (Hgen : forall acc : Sanitizer.Headers,
             JS.obj_get acc k = None ->
             JS.obj_get
               (fold_left (Sanitizer.sanitizeHeaders_step config options) headers acc)
               k = None).
  { induction headers as [|[key value] headers IH]; intros acc Hacc; [exact Hacc|].
    cbn [fold_left]. apply IH. unfold Sanitizer.sanitizeHeaders_step.
    destruct (Sanitizer.listed config key) eqn:Hkey.
    - now rewrite Hoff.
    - assert (Hne : key <> k) by (intros ->; congruence).
      destruct (_ && _); now rewrite obj_get_set_other. }
  now apply Hgen.
Qed.

Lemma omap_kept_keys (headers : Sanitizer.Headers) :
  NoDup (JS.obj_keys headers) ->
  forallb JS.own_key headers = true ->
  NoDup (JS.obj_keys
           (omap (fun entry => match kept entry with
                               | Some x => Some (fst entry, x)
                               | None => None
                               end) headers))
  /\ forallb JS.own_key
       (omap (fun entry => match kept entry with
                           | Some x => Some (fst entry, x)
                           | None => None
                           end) headers) = true
  /\ forall k, In k (JS.obj_keys
                       (omap (fun entry => match kept entry with
                                           | Some x => Some (fst entry, x)
                                           | None => None
                                           end) headers)) ->
               In k (JS.obj_keys headers).
Proof.
  induction headers as [|[key value] headers IH]; intros Hnd Hown.
  - cbn. split; [constructor|]. split; [reflexivity|tauto].
  - apply NoDup_cons in Hnd as [Hk Hnd].
    cbn [forallb] in Hown. apply andb_prop in Hown as [Hk_own Hown].
    destruct (IH Hnd Hown) as (IHnd & IHown & IHin).
    cbn [omap list_omap fst snd].
    destruct (kept (key, value)) as [x|] eqn:Hkept; cbn [fst snd] in Hkept;
      rewrite Hkept.
    + cbn [JS.obj_keys map fst forallb]. split; [|split].
      * apply NoDup_cons. split; [|exact IHnd].
        intros Hin. apply Hk. apply list_elem_of_In, IHin, list_elem_of_In, Hin.
      * now rewrite IHown, andb_true_r.
      * intros k [<-|Hin]; [now left|right; now apply IHin].
    + split; [exact IHnd|]. split; [exact IHown|].
      intros k Hin. right. now apply IHin.
Qed.

(** X16. Sanitizing headers that were sanitized already changes nothing. *)
Theorem sanitizeHeaders_idempotent (headers : Sanitizer.Headers) :
  NoDup (JS.obj_keys headers) ->
  forallb JS.own_key headers = true ->
  Sanitizer.sanitizeHeaders config
    (Sanitizer.sanitizeHeaders config headers options) options
  = Sanitizer.sanitizeHeaders config headers options.
Proof.
  intros Hnd Hown.
  destruct (Sanitizer.opt_sanitizeHeaders options) eqn:Hon.
  2: { unfold Sanitizer.sanitizeHeaders. now rewrite Hon. }
  assert (Hentries : forall h : Sanitizer.Headers,
             NoDup (JS.obj_keys h) -> forallb JS.own_key h = true ->
             Sanitizer.sanitizeHeaders config h options
             = omap (fun entry => match kept entry with
                                  | Some x => Some (fst entry, x)
                                  | None => None
                                  end) h).
  { intros h Hnd_h Hown_h. unfold Sanitizer.sanitizeHeaders. rewrite Hon.
    cbn [negb].
    apply (assign_some (Sanitizer.sanitizeHeaders_step config options)
             (fun entry => kept entry) h []); try assumption.
    - intros acc entry _. apply sanitizeHeaders_step_kept.
    - intros k _ []. }
  rewrite (Hentries headers Hnd Hown).
  destruct (omap_kept_keys headers Hnd Hown) as (Hnd' & Hown' & _).
  rewrite (Hentries _ Hnd' Hown'). clear Hentries.
  clear. induction headers as [|[key value] headers IH]; [reflexivity|].
  cbn [omap list_omap fst snd].
  destruct (Sanitizer.listed config key) eqn:Hlisted.
  - destruct (Sanitizer.opt_maskAuthValues options) eqn:Hmask.
    + cbn [omap list_omap fst snd]. rewrite Hlisted. now rewrite <- IH at 2.
    + exact IH.
  - destruct (Sanitizer.opt_sanitizeCookies options && is_cookie key) eqn:Hcookie;
      cbn [omap list_omap fst snd]; rewrite Hlisted, Hcookie; now rewrite <- IH at 2.
Qed.

End HeaderEntries.

Lemma sanitizeHeaders_entries_witness :
  Sanitizer.sanitizeHeaders Config.defaultConfig
    [ ("Authorization", Sanitizer.HStr "Bearer abc123");
      ("accept", Sanitizer.HStr "application/json") ]
    Sanitizer.defaultSanitizeOptions
  = [ ("Authorization", Sanitizer.HStr Sanitizer.REMOVED);
      ("accept", Sanitizer.HStr "application/json") ].
Proof.
  rewrite (sanitizeHeaders_entries Config.defaultConfig
             Sanitizer.defaultSanitizeOptions).
  - reflexivity.
  - reflexivity.
  - apply (bool_decide_unpack _). vm_compute. exact I.
  - reflexivity.
Defined.

Lemma sanitizeHeaders_drops_listed_witness :
  JS.obj_get
    (Sanitizer.sanitizeHeaders Config.defaultConfig
       [ ("Authorization", Sanitizer.HStr "Bearer abc123");
         ("accept", Sanitizer.HStr "application/json") ]
       (Sanitizer.mkSanitizeOptions true true false false))
    "Authorization"
  = None.
Proof.
  apply (sanitizeHeaders_drops_listed Config.defaultConfig
           (Sanitizer.mkSanitizeOptions true true false false));
    reflexivity.
Defined.

Lemma sanitizeHeaders_idempotent_witness :
  let headers :=
    [ ("Authorization", Sanitizer.HStr "Bearer abc123");
      ("Cookie", Sanitizer.HStr "sid=1") ] in
  Sanitizer.sanitizeHeaders Config.defaultConfig
    (Sanitizer.sanitizeHeaders Config.defaultConfig headers
       Sanitizer.defaultSanitizeOptions)
    Sanitizer.defaultSanitizeOptions
  = Sanitizer.sanitizeHeaders Config.defaultConfig headers
      Sanitizer.defaultSanitizeOptions.
Proof.
  intros headers.
  apply (sanitizeHeaders_idempotent Config.defaultConfig
           Sanitizer.defaultSanitizeOptions headers).
  - apply (bool_decide_unpack _). vm_compute. exact I.
  - reflexivity.
Defined.

(** ** What [sanitizeUrl] returns *)

(** X17. The URL helpers pass the empty string for the base of a URL that
    starts with [http], and the constructor of [URL] rejects an empty base.
    On such a platform [sanitizeUrl] masks nothing in a URL that starts with
    [http]: it returns the URL as written, and so does
    [sanitizeRecordedData] in the [url] of its record, whatever the options
    are and whatever the sensitive parameters the query holds. *)
Theorem absolute_url_not_masked {P : Platform}
    (RegExp_replace_g : string -> string -> string -> string)
    (config : Config.MockConfig) (data : Sanitizer.RecordedData)
    (options : Sanitizer.SanitizeOptions) :
  (forall input, URL_new input EmptyString = None) ->
  JS.startsWith (Sanitizer.rd_url data) "http" = true ->
  Sanitizer.sanitizeUrl (Sanitizer.rd_url data) = Sanitizer.rd_url data
  /\ Sanitizer.rd_url
       (Sanitizer.sanitizeRecordedData RegExp_replace_g config data options)
     = Sanitizer.rd_url data.
Proof.
  intros Hbase Hhttp.
  assert (Hurl : Sanitizer.sanitizeUrl (Sanitizer.rd_url data)
                 = Sanitizer.rd_url data).
  { unfold Sanitizer.sanitizeUrl, Matcher.baseUrl_for.
    now rewrite Hhttp, Hbase. }
  split; [exact Hurl|].
  cbn [Sanitizer.sanitizeRecordedData Sanitizer.rd_url]. exact Hurl.
Qed.

Lemma absolute_url_not_masked_witness :
  Sanitizer.rd_url
    (@Sanitizer.sanitizeRecordedData Host.platform (fun _ _ s => s)
       Config.defaultConfig
       (Sanitizer.mkRecordedData "https://api.example.com/users?token=abc123"
          None None JS.VUndefined JS.VUndefined)
       Sanitizer.defaultSanitizeOptions)
  = "https://api.example.com/users?token=abc123"
  /\ @Sanitizer.sanitizeUrl Host.platform "/users?token=abc123"
     = "/users?token=***REMOVED***".
Proof.
  split; [|reflexivity].
  apply (@absolute_url_not_masked Host.platform).
  - intros input. reflexivity.
  - reflexivity.
Defined.

#[local] Abbreviation named k :=
  (fun kv : string * string => String.eqb (fst kv) k).

Lemma params_set_named_same (l : list (string * string)) (name value : string) :
  List.filter (named name) (Sanitizer.params_set l name value) = [(name, value)].
Proof.
  induction l as [|[k v] l IH]; cbn [Sanitizer.params_set].
  - cbn. now rewrite String.eqb_refl.
  - destruct (String.eqb_spec k name) as [->|Hne].
    + cbn [List.filter fst]. rewrite String.eqb_refl. f_equal. clear IH.
      induction l as [|[k' v'] l IHl]; [reflexivity|].
      cbn [List.filter fst]. destruct (String.eqb k' name) eqn:Hk'; cbn [negb].
      * exact IHl.
      * cbn [List.filter fst]. now rewrite Hk'.
    + cbn [List.filter fst]. apply String.eqb_neq in Hne. now rewrite Hne.
Qed.

Lemma params_set_named_other (l : list (string * string)) (name value k : string) :
  k <> name ->
  List.filter (named k) (Sanitizer.params_set l name value) = List.filter (named k) l.
Proof.
  intros Hk. induction l as [|[k' v'] l IH]; cbn [Sanitizer.params_set].
  - cbn. apply not_eq_sym in Hk. apply String.eqb_neq in Hk. now rewrite Hk.
  - destruct (String.eqb_spec k' name) as [->|Hne].
    + cbn [List.filter fst]. apply not_eq_sym in Hk. apply String.eqb_neq in Hk.
      rewrite Hk. clear IH.
      induction l as [|[k2 v2] l IHl]; [reflexivity|].
      cbn [List.filter fst]. destruct (String.eqb_spec k2 name) as [->|Hne2];
        cbn [negb].
      * now rewrite Hk.
      * cbn [List.filter fst]. destruct (String.eqb k2 k); [now f_equal|exact IHl].
    + cbn [List.filter fst]. destruct (String.eqb k' k); [now f_equal|exact IH].
Qed.

Lemma params_has_named (l : list (string * string)) (k : string) :
  Sanitizer.params_has l k = negb (Nat.eqb (length (List.filter (named k) l)) 0).
Proof.
  unfold Sanitizer.params_has.
  induction l as [|[k' v'] l IH]; [reflexivity|].
  cbn [existsb List.filter fst]. now destruct (String.eqb k' k).
Qed.

Lemma params_has_set (l : list (string * string)) (name value k : string) :
  Sanitizer.params_has (Sanitizer.params_set l name value) k
  = Sanitizer.params_has l k || String.eqb k name.
Proof.
  rewrite !params_has_named. destruct (String.eqb_spec k name) as [->|Hne].
  - rewrite params_set_named_same. now rewrite orb_true_r.
  - rewrite params_set_named_other by assumption. now rewrite orb_false_r.
Qed.

Section SanitizeUrl.
Context {P : Platform}.

Lemma sanitizeUrl_loop_idle (names : list string) (params : list (string * string))
    (search : string) :
  existsb (Sanitizer.params_has params) names = false ->
  fold_left Sanitizer.sanitizeUrl_step names (params, search) = (params, search).
Proof.
  induction names as [|name names IH]; [reflexivity|].
  cbn [existsb fold_left]. intros H. apply orb_false_elim in H as [Hname Hrest].
  unfold Sanitizer.sanitizeUrl_step at 2. rewrite Hname. now apply IH.
Qed.

(** The loop over the sensitive names, for any list of names. *)
Lemma sanitizeUrl_loop (names : list string) (params : list (string * string))
    (search : string) :
  let result := fold_left Sanitizer.sanitizeUrl_step names (params, search) in
  (forall k,
     List.filter (named k) (fst result)
     = if existsb (String.eqb k) names && Sanitizer.params_has params k
       then [(k, Sanitizer.REMOVED)]
       else List.filter (named k) params)
  /\ snd result
     = if existsb (Sanitizer.params_has params) names
       then Sanitizer.search_of_query (URLSearchParams_toString (fst result))
       else search.
Proof.
  revert params search. induction names as [|name names IH]; intros params search.
  - cbn. split; [reflexivity|reflexivity].
  - cbn [fold_left].
    assert (Hstep : Sanitizer.sanitizeUrl_step (params, search) name
                    = if Sanitizer.params_has params name
                      then (Sanitizer.params_set params name Sanitizer.REMOVED,
                            Sanitizer.search_of_query
                              (URLSearchParams_toString
                                 (Sanitizer.params_set params name
                                    Sanitizer.REMOVED)))
                      else (params, search)) by reflexivity.
    rewrite Hstep. clear Hstep.
    destruct (Sanitizer.params_has params name) eqn:Hhas.
    + destruct (IH (Sanitizer.params_set params name Sanitizer.REMOVED)
                  (Sanitizer.search_of_query
                     (URLSearchParams_toString
                        (Sanitizer.params_set params name Sanitizer.REMOVED))))
        as [Hentries Hsearch].
      cbv zeta in Hentries, Hsearch |- *. split.
      * intros k. rewrite Hentries. cbn [existsb]. rewrite params_has_set.
        destruct (String.eqb_spec k name) as [->|Hne].
        -- rewrite Hhas, orb_true_r, andb_true_r. cbn [orb andb].
           rewrite params_set_named_same.
           now destruct (existsb (String.eqb name) names).
        -- rewrite orb_false_r. cbn [orb].
           rewrite params_set_named_other by assumption. reflexivity.
      * cbn [existsb]. rewrite Hhas. cbn [orb].
        destruct (existsb (Sanitizer.params_has
                             (Sanitizer.params_set params name Sanitizer.REMOVED))
                    names) eqn:Hlater.
        -- exact Hsearch.
        -- now rewrite sanitizeUrl_loop_idle by exact Hlater.
    + destruct (IH params search) as [Hentries Hsearch].
      cbv zeta in Hentries, Hsearch |- *. split.
      * intros k. rewrite Hentries. cbn [existsb].
        destruct (String.eqb_spec k name) as [->|Hne]; [|reflexivity].
        rewrite Hhas, !andb_false_r. reflexivity.
      * rewrite Hsearch. cbn [existsb]. rewrite Hhas. reflexivity.
Qed.

(** X18. On a URL that parses, [sanitizeUrl] leaves a query without
    sensitive names as the parser printed it; otherwise the query printed
    is one in which every sensitive name that occurred occurs once, with
    the sentinel for value, and every other name has the entries it had, in
    their order. The pathname, and on an absolute URL the part before it and
    the fragment, are those of the parsed URL. *)
Theorem sanitizeUrl_masks (url : string) (urlObj : Web.URL) :
  URL_new url (Matcher.baseUrl_for url) = Some urlObj ->
  let params := URLSearchParams_parse (Web.search urlObj) in
  exists params' search',
    (forall k,
       List.filter (named k) params'
       = if existsb (String.eqb k) Sanitizer.sensitiveParams
            && Sanitizer.params_has params k
         then [(k, Sanitizer.REMOVED)]
         else List.filter (named k) params)
    /\ search'
       = (if existsb (Sanitizer.params_has params) Sanitizer.sensitiveParams
          then Sanitizer.search_of_query (URLSearchParams_toString params')
          else Web.search urlObj)
    /\ Sanitizer.sanitizeUrl url
       = if JS.startsWith url "http"
         then Web.href_prefix urlObj +:+ Web.pathname urlObj +:+ search'
              +:+ Web.hash urlObj
         else Web.pathname urlObj +:+ search'.
Proof.
  intros Hparse params.
  destruct (sanitizeUrl_loop Sanitizer.sensitiveParams params (Web.search urlObj))
    as [Hentries Hsearch].
  cbv zeta in Hentries, Hsearch.
  exists (fst (fold_left Sanitizer.sanitizeUrl_step Sanitizer.sensitiveParams
                 (params, Web.search urlObj))),
         (snd (fold_left Sanitizer.sanitizeUrl_step Sanitizer.sensitiveParams
                 (params, Web.search urlObj))).
  split; [exact Hentries|]. split; [exact Hsearch|].
  unfold Sanitizer.sanitizeUrl. rewrite Hparse. fold params.
  now destruct (fold_left Sanitizer.sanitizeUrl_step Sanitizer.sensitiveParams
                  (params, Web.search urlObj)).
Qed.

End SanitizeUrl.

Lemma sanitizeUrl_masks_witness :
  exists params' search',
    List.filter (named "token") params' = [("token", Sanitizer.REMOVED)]
    /\ List.filter (named "page") params' = [("page", "2")]
    /\ search' = Sanitizer.search_of_query
                   (@URLSearchParams_toString Host.platform params')
    /\ @Sanitizer.sanitizeUrl Host.platform "/users?token=abc&page=2&token=def"
       = "/users" +:+ search'.
Proof.
  destruct (@sanitizeUrl_masks Host.platform "/users?token=abc&page=2&token=def"
              (Web.mkURL "http://localhost" "http://localhost" "/users"
                 "?token=abc&page=2&token=def" "")
              eq_refl) as (params' & search' & Hentries & Hsearch & Hurl).
  exists params', search'.
  split; [exact (Hentries "token")|]. split; [exact (Hentries "page")|].
  split; [exact Hsearch|exact Hurl].
Defined.

(** X19. With body sanitizing off, as it is by default,
    [sanitizeRecordedData] keeps a truthy body as it is and puts
    [undefined] in the place of a falsy one: [null], [false], [0] and the
    empty string are not kept. *)
Theorem sanitizeRecordedData_bodies {P : Platform}
    (RegExp_replace_g : string -> string -> string -> string)
    (config : Config.MockConfig) (data : Sanitizer.RecordedData)
    (options : Sanitizer.SanitizeOptions) :
  Sanitizer.opt_sanitizePII options = false ->
  let sanitized :=
    Sanitizer.sanitizeRecordedData RegExp_replace_g config data options in
  Sanitizer.rd_requestBody sanitized
  = (if JS.value_truthy (Sanitizer.rd_requestBody data)
     then Sanitizer.rd_requestBody data else JS.VUndefined)
  /\ Sanitizer.rd_responseBody sanitized
     = (if JS.value_truthy (Sanitizer.rd_responseBody data)
        then Sanitizer.rd_responseBody data else JS.VUndefined).
Proof.
  intros Hoff.
  assert (Hbody : forall body,
             Sanitizer.sanitizeBody RegExp_replace_g body options = body).
  { intros body. destruct body; cbn [Sanitizer.sanitizeBody]; now rewrite Hoff. }
  cbn [Sanitizer.sanitizeRecordedData Sanitizer.rd_requestBody
       Sanitizer.rd_responseBody].
  now rewrite !Hbody.
Qed.

Lemma sanitizeRecordedData_bodies_witness :
  let data :=
    Sanitizer.mkRecordedData "/flags" None None (JS.VNum 0) (JS.VBool false) in
  let sanitized :=
    @Sanitizer.sanitizeRecordedData Host.platform (fun _ _ s => s)
      Config.defaultConfig data Sanitizer.defaultSanitizeOptions in
  Sanitizer.rd_requestBody sanitized = JS.VUndefined
  /\ Sanitizer.rd_responseBody sanitized = JS.VUndefined.
Proof.
  intros data sanitized.
  apply (@sanitizeRecordedData_bodies Host.platform (fun _ _ s => s)
           Config.defaultConfig data Sanitizer.defaultSanitizeOptions).
  reflexivity.
Defined.

(** X20. An escaped value, read as a pattern, stands for the value itself,
    so two values with the same escaped form are the same value. *)
Theorem escapeRegex_faithful (value1 value2 : string) :
  Sanitizer.literal_of (Sanitizer.escapeRegex value1) = value1
  /\ (Sanitizer.escapeRegex value1 = Sanitizer.escapeRegex value2 -> value1 = value2).
Proof.
  split; [apply literal_of_escapeRegex|].
  intros Heq.
  rewrite <- (literal_of_escapeRegex value1), <- (literal_of_escapeRegex value2).
  now rewrite Heq.
Qed.

Lemma escapeRegex_faithful_witness :
  Sanitizer.literal_of (Sanitizer.escapeRegex "a.b") = "a.b"
  /\ "a.b" = "a.b".
Proof.
  destruct (escapeRegex_faithful "a.b" "a.b") as [Hliteral Hinj].
  split; [exact Hliteral|]. apply Hinj. reflexivity.
Defined.

(** ** The handlers of the interceptor *)

Section Interception.
Context {P : Platform}.
Variable env : Config.Env.
Variable server : Request -> Response * Z.

#[local] Abbreviation signature_of req :=
  (Matcher.createRequestSignature (req_method req) (req_url req)).
#[local] Abbreviation sent req w :=
  (with_clock (fun t => t + snd (server req))
     (with_serverLog (fun l => l ++ [req]) w)).
#[local] Abbreviation saved_after req w2 :=
  (fst (saveMock env (Recorder.request_to_save env req)
          (Recorder.response_to_save env (fst (server req)))
          (Some (clock (sent req w2) - clock w2)) (sent req w2))).

Lemma replayHandler_run (req : Request) (w : World) :
  Matcher.shouldRecordUrl (Config.getConfig env) (req_url req) = Some true ->
  Recorder.replayHandler env server req w =
  match loadMock env (signature_of req)
          (with_counters (fun '(i, r, p) => (i + 1, r, p)) w) with
  | (w2, inr (Some mock)) =>
      (with_counters (fun '(i, r, p) => (i, r, p + 1)) w2,
       inr (Recorder.Replied
              {| Recorder.reply_statusCode := status mock;
                 Recorder.reply_body := response mock;
                 Recorder.reply_headers := responseHeaders mock |}))
  | (w2, inr None) =>
      if Config.autoFallback (Config.getConfig env)
      then (saved_after req w2, inr (Recorder.Forwarded (fst (server req))))
      else (w2, inr (Recorder.Replied (Recorder.mockNotFound req)))
  | (w2, inl e) => (w2, inl e)
  end.
Proof.
  intros Hfilter.
  unfold Recorder.replayHandler, Recorder.shouldRecord. rewrite Hfilter.
  step_cy. cbn [negb]. step_cy. rewrite bind_run.
  destruct (loadMock env (signature_of req) _) as [w2 [e|[mock|]]];
    cbv beta iota; [reflexivity| |].
  - step_cy. reflexivity.
  - destruct (Config.autoFallback (Config.getConfig env)); [|reflexivity].
    step_cy. rewrite bind_run, req_continue_run. cbv beta iota. step_cy.
    unfold Recorder.saveExchange. rewrite bind_run, saveMock_run.
    cbv beta iota zeta. rewrite mret_run. reflexivity.
Qed.

Lemma handler_skips (req : Request) (w : World) :
  Matcher.shouldRecordUrl (Config.getConfig env) (req_url req) = Some false ->
  Recorder.recordHandler env server req w
  = (sent req w, inr (Recorder.Forwarded (fst (server req))))
  /\ Recorder.replayHandler env server req w
     = (sent req w, inr (Recorder.Forwarded (fst (server req)))).
Proof.
  intros Hfilter.
  unfold Recorder.recordHandler, Recorder.replayHandler, Recorder.shouldRecord.
  rewrite Hfilter. split; step_cy; cbn [negb]; rewrite bind_run, req_continue_run;
    reflexivity.
Qed.

(** X21. A request that the filter excludes, and every request in
    passthrough mode, goes to the server once and its answer comes back as
    it is; nothing is counted, no task is called, and the cache and the
    files are as before. *)
Theorem unfiltered_request_forwarded (mode : Recorder.Mode) (req : Request)
    (w : World) :
  mode = Recorder.passthrough
  \/ Matcher.shouldRecordUrl (Config.getConfig env) (req_url req) = Some false ->
  exists w',
    Recorder.intercept env server mode req w
    = (w', inr (Recorder.Forwarded (fst (server req))))
    /\ serverLog w' = serverLog w ++ [req]
    /\ taskLog w' = taskLog w
    /\ files w' = files w
    /\ mockCache w' = mockCache w
    /\ (interceptedRequests w', recordedRequests w', replayedRequests w')
       = (interceptedRequests w, recordedRequests w, replayedRequests w).
Proof.
  intros Hcase. exists (sent req w). split; [|now repeat split].
  destruct mode.
  - destruct Hcase as [|Hfilter]; [discriminate|].
    apply (handler_skips req w Hfilter).
  - destruct Hcase as [|Hfilter]; [discriminate|].
    apply (handler_skips req w Hfilter).
  - cbn [Recorder.intercept]. now rewrite bind_run, req_continue_run.
Qed.

(** X22. In replay mode, when the URL passes the filter and [loadMock]
    finds a mock, the handler replies with the status, the body and the
    response headers of that mock and counts the request as intercepted and
    as replayed; nothing is sent to the server and no file changes,
    whether fallback is on or off. *)
Theorem replay_hit (req : Request) (w w1 : World) (mock : RecordedMock) :
  Matcher.shouldRecordUrl (Config.getConfig env) (req_url req) = Some true ->
  loadMock env (signature_of req) w = (w1, inr (Some mock)) ->
  exists w',
    Recorder.replayHandler env server req w
    = (w', inr (Recorder.Replied
                  {| Recorder.reply_statusCode := status mock;
                     Recorder.reply_body := response mock;
                     Recorder.reply_headers := responseHeaders mock |}))
    /\ serverLog w' = serverLog w
    /\ files w' = files w
    /\ (interceptedRequests w', recordedRequests w', replayedRequests w')
       = (interceptedRequests w1 + 1, recordedRequests w1, replayedRequests w1 + 1).
Proof.
  intros Hfilter Hload.
  rewrite (replayHandler_run req w Hfilter), loadMock_counters, Hload.
  cbn [fst snd]. eexists. split; [reflexivity|].
  apply loadMock_quiet in Hload as [Hlog Hfiles].
  world_simpl. now rewrite Hlog, Hfiles.
Qed.

End Interception.

Lemma unfiltered_request_forwarded_witness :
  exists w',
    @Recorder.intercept Host.platform Sample.env_record Sample.server
      Recorder.record
      (mkRequest "GET" "/static/app.js" [] JS.VUndefined) Sample.world0
    = (w', inr (Recorder.Forwarded
                  (fst (Sample.server
                          (mkRequest "GET" "/static/app.js" [] JS.VUndefined)))))
    /\ taskLog w' = []
    /\ files w' = ∅.
Proof.
  destruct (@unfiltered_request_forwarded Host.platform Sample.env_record
              Sample.server Recorder.record
              (mkRequest "GET" "/static/app.js" [] JS.VUndefined) Sample.world0
              (or_intror eq_refl))
    as (w' & Hrun & _ & Htasks & Hfiles & _).
  exists w'. split; [exact Hrun|]. split; [exact Htasks|exact Hfiles].
Defined.

Lemma replay_hit_witness :
  exists w',
    @Recorder.replayHandler Host.platform Sample.env_replay_strict Sample.server
      Sample.get_posts Sample.world_recorded
    = (w', inr (Recorder.Replied
                  {| Recorder.reply_statusCode := 200;
                     Recorder.reply_body := response Sample.posts_mock;
                     Recorder.reply_headers := responseHeaders Sample.posts_mock |}))
    /\ serverLog w' = [].
Proof.
  destruct (@replay_hit Host.platform Sample.env_replay_strict Sample.server
              Sample.get_posts Sample.world_recorded _ Sample.posts_mock
              eq_refl eq_refl)
    as (w' & Hrun & Hlog & _).
  exists w'. split; [exact Hrun|exact Hlog].
Defined.

Section RoundTrip.
Context {P : Platform}.
Variable env : Config.Env.
Variable server : Request -> Response * Z.

#[local] Abbreviation signature_of req :=
  (Matcher.createRequestSignature (req_method req) (req_url req)).
#[local] Abbreviation path_for req :=
  (Matcher.generateMockPath (Config.getConfig env) (signature_of req)).
#[local] Abbreviation reply_of mock :=
  {| Recorder.reply_statusCode := status mock;
     Recorder.reply_body := response mock;
     Recorder.reply_headers := responseHeaders mock |}.

(** A replay that finds nothing in the cache and a mock in the file of the
    request replies with that mock. *)
Lemma replay_from_file (req : Request) (w : World) (mock : RecordedMock) :
  Matcher.shouldRecordUrl (Config.getConfig env) (req_url req) = Some true ->
  mockCache w !! cacheKey_of (signature_of req) = None ->
  files w !! path_for req = Some (MockFile mock) ->
  exists w',
    Recorder.replayHandler env server req w
    = (w', inr (Recorder.Replied (reply_of mock)))
    /\ serverLog w' = serverLog w
    /\ files w' = files w.
Proof.
  intros Hfilter Hmiss Hfile.
  rewrite (replayHandler_run env server req w Hfilter), loadMock_counters.
  rewrite (loadMock_miss_run env (signature_of req) w Hmiss), Hfile.
  cbv zeta. cbn [fst snd]. eexists. split; [reflexivity|].
  world_simpl. now split.
Qed.

(** X23. Record, then replay: after a request is recorded, with nothing
    cached under its key, the replay of the same request under the same
    configuration is answered with the status and the body the server gave
    and with the sanitized response headers, and the server is not asked a
    second time. The body of the response is to be a value that the JSON
    text of the file gives back as it is. *)
Theorem record_then_replay (req : Request) (w : World) :
  Matcher.shouldRecordUrl (Config.getConfig env) (req_url req) = Some true ->
  mockCache w !! cacheKey_of (signature_of req) = None ->
  JS.storable (res_body (fst (server req))) = true ->
  let res := fst (server req) in
  exists w1 w2,
    Recorder.recordHandler env server req w = (w1, inr (Recorder.Forwarded res))
    /\ Recorder.replayHandler env server req w1
       = (w2, inr (Recorder.Replied
                     {| Recorder.reply_statusCode := res_statusCode res;
                        Recorder.reply_body := res_body res;
                        Recorder.reply_headers :=
                          match res_headers res with
                          | Some h =>
                              Some (Sanitizer.sanitizeHeaders (Config.getConfig env)
                                      h Sanitizer.defaultSanitizeOptions)
                          | None => None
                          end |}))
    /\ serverLog w2 = serverLog w ++ [req].
Proof.
  intros Hfilter Hmiss _ res.
  pose proof (recordHandler_run env server req w Hfilter) as Hrecord.
  cbv zeta in Hrecord. rewrite saveMock_run in Hrecord.
  cbv zeta in Hrecord. cbn [fst] in Hrecord.
  cbn [Recorder.request_to_save Recorder.response_to_save sreq_method sreq_url]
    in Hrecord.
  match type of Hrecord with
  | _ = (?w1, _) =>
      edestruct (replay_from_file req w1) as (w2 & Hrun & Hlog & _);
        [exact Hfilter
        |world_simpl; exact Hmiss
        |world_simpl; apply lookup_insert_eq
        |];
      exists w1, w2
  end.
  split; [exact Hrecord|]. split; [exact Hrun|].
  revert Hlog. world_simpl. intros ->. reflexivity.
Qed.

End RoundTrip.

Lemma record_then_replay_witness :
  exists w1 w2,
    @Recorder.recordHandler Host.platform Sample.env_record Sample.server
      Sample.get_posts Sample.world0
    = (w1, inr (Recorder.Forwarded (fst (Sample.server Sample.get_posts))))
    /\ @Recorder.replayHandler Host.platform Sample.env_record Sample.server
         Sample.get_posts w1
       = (w2, inr (Recorder.Replied
                     {| Recorder.reply_statusCode := 200;
                        Recorder.reply_body := JS.VObj [("ok", JS.VBool true)];
                        Recorder.reply_headers :=
                          Some [ ("content-type", Sanitizer.HStr "application/json");
                                 ("Set-Cookie", Sanitizer.HStr "***REMOVED***") ] |}))
    /\ serverLog w2 = [Sample.get_posts].
Proof.
  destruct (@record_then_replay Host.platform Sample.env_record Sample.server
              Sample.get_posts Sample.world0 eq_refl eq_refl eq_refl)
    as (w1 & w2 & Hrecord & Hreplay & Hlog).
  exists w1, w2. split; [exact Hrecord|]. split; [exact Hreplay|exact Hlog].
Defined.

Section Fallback.
Context {P : Platform}.
Variable env : Config.Env.
Variable server : Request -> Response * Z.

#[local] Abbreviation signature_of req :=
  (Matcher.createRequestSignature (req_method req) (req_url req)).
#[local] Abbreviation path_for req :=
  (Matcher.generateMockPath (Config.getConfig env) (signature_of req)).

(** X24. In replay mode with fallback on, a request that passes the filter
    and has neither a cached mock nor a file goes to the server and its
    answer comes back as it is; the exchange is written to the file of the
    request and listed among the mocks of the session, and it is counted as
    intercepted but neither as recorded nor as replayed. The next replay of
    the same request is answered from that file, without the server. The
    body of the response is to be a value that the JSON text of the file
    gives back as it is. *)
Theorem replay_fallback_records (req : Request) (w : World) :
  Matcher.shouldRecordUrl (Config.getConfig env) (req_url req) = Some true ->
  Config.autoFallback (Config.getConfig env) = true ->
  mockCache w !! cacheKey_of (signature_of req) = None ->
  files w !! path_for req = None ->
  JS.storable (res_body (fst (server req))) = true ->
  let res := fst (server req) in
  exists w1 w2,
    Recorder.replayHandler env server req w = (w1, inr (Recorder.Forwarded res))
    /\ (interceptedRequests w1, recordedRequests w1, replayedRequests w1)
       = (interceptedRequests w + 1, recordedRequests w, replayedRequests w)
    /\ sessionMocks w1 = sessionMocks w ++ [path_for req]
    /\ Recorder.replayHandler env server req w1
       = (w2, inr (Recorder.Replied
                     {| Recorder.reply_statusCode := res_statusCode res;
                        Recorder.reply_body := res_body res;
                        Recorder.reply_headers :=
                          match res_headers res with
                          | Some h =>
                              Some (Sanitizer.sanitizeHeaders (Config.getConfig env)
                                      h Sanitizer.defaultSanitizeOptions)
                          | None => None
                          end |}))
    /\ serverLog w2 = serverLog w ++ [req].
Proof.
  intros Hfilter Hfallback Hmiss Hfile _ res.
  pose proof (replayHandler_run env server req w Hfilter) as Hfirst.
  rewrite loadMock_counters in Hfirst.
  rewrite (loadMock_miss_run env (signature_of req) w Hmiss), Hfile in Hfirst.
  cbv zeta in Hfirst. cbn [fst snd] in Hfirst. rewrite Hfallback in Hfirst.
  rewrite saveMock_run in Hfirst. cbv zeta in Hfirst. cbn [fst] in Hfirst.
  cbn [Recorder.request_to_save Recorder.response_to_save sreq_method sreq_url]
    in Hfirst.
  match type of Hfirst with
  | _ = (?w1, _) =>
      edestruct (replay_from_file env server req w1) as (w2 & Hrun & Hlog & _);
        [exact Hfilter
        |world_simpl; exact Hmiss
        |world_simpl; apply lookup_insert_eq
        |];
      exists w1, w2
  end.
  split; [exact Hfirst|]. split; [reflexivity|]. split; [reflexivity|].
  split; [exact Hrun|].
  revert Hlog. world_simpl. intros ->. reflexivity.
Qed.

(** [loadMock] counts nothing. *)
Lemma loadMock_keeps_counters (signature : Matcher.RequestSignature) (w : World) :
  interceptedRequests (fst (loadMock env signature w)) = interceptedRequests w
  /\ recordedRequests (fst (loadMock env signature w)) = recordedRequests w
  /\ replayedRequests (fst (loadMock env signature w)) = replayedRequests w.
Proof.
  destruct (mockCache w !! cacheKey_of signature) as [cached|] eqn:Hcache.
  - now rewrite (loadMock_hit_run env signature w cached Hcache).
  - rewrite (loadMock_miss_run env signature w Hcache). cbv zeta.
    now destruct (files w !! _) as [[m| |]|].
Qed.

(** X25. Whatever the mode, the request and the outcome, failures included,
    a call of the handler counts the request at most once as intercepted,
    never lowers a counter, and counts it as recorded or replayed only if it
    counted it as intercepted; so the recorded and the replayed requests
    together never outnumber the intercepted ones. *)
Theorem counters_invariant (mode : Recorder.Mode) (req : Request) (w : World) :
  let w' := fst (Recorder.intercept env server mode req w) in
  interceptedRequests w <= interceptedRequests w' <= interceptedRequests w + 1
  /\ recordedRequests w <= recordedRequests w'
  /\ replayedRequests w <= replayedRequests w'
  /\ (recordedRequests w' - recordedRequests w)
     + (replayedRequests w' - replayedRequests w)
     <= interceptedRequests w' - interceptedRequests w.
Proof.
  destruct mode; cbn [Recorder.intercept].
  - destruct (Matcher.shouldRecordUrl (Config.getConfig env) (req_url req))
      as [[|]|] eqn:Hfilter.
    + rewrite (recordHandler_run env server req w Hfilter). cbv zeta.
      rewrite saveMock_run. cbv zeta. world_simpl. lia.
    + rewrite (proj1 (handler_skips env server req w Hfilter)). world_simpl. lia.
    + unfold Recorder.recordHandler, Recorder.shouldRecord. rewrite Hfilter.
      rewrite bind_run, fail_run. world_simpl. lia.
  - destruct (Matcher.shouldRecordUrl (Config.getConfig env) (req_url req))
      as [[|]|] eqn:Hfilter.
    + rewrite (replayHandler_run env server req w Hfilter), loadMock_counters.
      destruct (loadMock_keeps_counters (signature_of req) w) as (Hi & Hr & Hp).
      destruct (loadMock env (signature_of req) w) as [w2 [e|[mock|]]];
        cbn [fst snd] in *.
      * world_simpl. lia.
      * world_simpl. lia.
      * destruct (Config.autoFallback (Config.getConfig env)).
        -- rewrite saveMock_run. cbv zeta. world_simpl. lia.
        -- world_simpl. lia.
    + rewrite (proj2 (handler_skips env server req w Hfilter)). world_simpl. lia.
    + unfold Recorder.replayHandler, Recorder.shouldRecord. rewrite Hfilter.
      rewrite bind_run, fail_run. world_simpl. lia.
  - rewrite bind_run, req_continue_run. cbv beta iota. rewrite mret_run.
    world_simpl. lia.
Qed.

End Fallback.

Lemma replay_fallback_records_witness :
  exists w1 w2,
    @Recorder.replayHandler Host.platform Sample.env_replay Sample.server
      Sample.get_posts Sample.world0
    = (w1, inr (Recorder.Forwarded (fst (Sample.server Sample.get_posts))))
    /\ (interceptedRequests w1, recordedRequests w1, replayedRequests w1) = (1, 0, 0)
    /\ sessionMocks w1 = [Sample.posts_path]
    /\ snd (@Recorder.replayHandler Host.platform Sample.env_replay Sample.server
              Sample.get_posts w1)
       = inr (Recorder.Replied
                {| Recorder.reply_statusCode := 200;
                   Recorder.reply_body := JS.VObj [("ok", JS.VBool true)];
                   Recorder.reply_headers :=
                     Some [ ("content-type", Sanitizer.HStr "application/json");
                            ("Set-Cookie", Sanitizer.HStr "***REMOVED***") ] |})
    /\ serverLog w2 = [Sample.get_posts].
Proof.
  destruct (@replay_fallback_records Host.platform Sample.env_replay Sample.server
              Sample.get_posts Sample.world0 eq_refl eq_refl eq_refl eq_refl
              eq_refl)
    as (w1 & w2 & Hfirst & Hcount & Hsession & Hsecond & Hlog).
  exists w1, w2. split; [exact Hfirst|]. split; [exact Hcount|].
  split; [exact Hsession|]. split; [now rewrite Hsecond|exact Hlog].
Defined.

(** ** The flags and the mode *)

Section Flags.
Context {P : Platform}.
Variable env : Config.Env.
Variable server : Request -> Response * Z.

#[local] Abbreviation signature_of req :=
  (Matcher.createRequestSignature (req_method req) (req_url req)).

Lemma loadMock_flags (recording replaying : bool)
    (signature : Matcher.RequestSignature) (w : World) :
  loadMock env signature (with_flags recording replaying w)
  = (with_flags recording replaying (fst (loadMock env signature w)),
     snd (loadMock env signature w)).
Proof.
  destruct (mockCache w !! cacheKey_of signature) as [cached|] eqn:Hcache.
  - rewrite (loadMock_hit_run env signature (with_flags recording replaying w)
               cached Hcache).
    now rewrite (loadMock_hit_run env signature w cached Hcache).
  - rewrite (loadMock_miss_run env signature (with_flags recording replaying w)
               Hcache).
    rewrite (loadMock_miss_run env signature w Hcache). cbv zeta. world_simpl.
    now destruct (files w !! _) as [[m| |]|].
Qed.

Lemma handler_ignores_flags (mode : Recorder.Mode) (req : Request)
    (recording replaying : bool) (w : World) :
  Recorder.intercept env server mode req (with_flags recording replaying w)
  = (with_flags recording replaying
       (fst (Recorder.intercept env server mode req w)),
     snd (Recorder.intercept env server mode req w)).
Proof.
  destruct mode; cbn [Recorder.intercept].
  - destruct (Matcher.shouldRecordUrl (Config.getConfig env) (req_url req))
      as [[|]|] eqn:Hfilter.
    + rewrite !(recordHandler_run env server req _ Hfilter). cbv zeta.
      rewrite !saveMock_run. cbv zeta. world_simpl. reflexivity.
    + rewrite !(proj1 (handler_skips env server req _ Hfilter)). world_simpl.
      reflexivity.
    + unfold Recorder.recordHandler, Recorder.shouldRecord. rewrite Hfilter.
      rewrite !bind_run, !fail_run. reflexivity.
  - destruct (Matcher.shouldRecordUrl (Config.getConfig env) (req_url req))
      as [[|]|] eqn:Hfilter.
    + rewrite !(replayHandler_run env server req _ Hfilter), !loadMock_counters.
      rewrite loadMock_flags.
      destruct (loadMock env (signature_of req) w) as [w2 [e|[mock|]]];
        cbn [fst snd].
      * world_simpl. reflexivity.
      * world_simpl. reflexivity.
      * destruct (Config.autoFallback (Config.getConfig env)).
        -- rewrite !saveMock_run. cbv zeta. world_simpl. reflexivity.
        -- world_simpl. reflexivity.
    + rewrite !(proj2 (handler_skips env server req _ Hfilter)). world_simpl.
      reflexivity.
    + unfold Recorder.replayHandler, Recorder.shouldRecord. rewrite Hfilter.
      rewrite !bind_run, !fail_run. reflexivity.
  - rewrite !bind_run, !req_continue_run. cbv beta iota. rewrite !mret_run.
    world_simpl. reflexivity.
Qed.

(** X26. [stopNetworkRecorder] clears the two flags and nothing else, and
    the handlers never read them: a request that arrives after it is
    handled exactly as it would have been without it, with the same outcome
    and the same changes. *)
Theorem stop_leaves_handler_active (mode : Recorder.Mode) (req : Request)
    (w : World) :
  (Recorder.stopNetworkRecorder ≫= fun _ => Recorder.intercept env server mode req) w
  = (with_flags false false (fst (Recorder.intercept env server mode req w)),
     snd (Recorder.intercept env server mode req w)).
Proof.
  rewrite bind_run. unfold Recorder.stopNetworkRecorder. rewrite modify_run.
  cbv beta iota. apply handler_ignores_flags.
Qed.

(** X27. [initNetworkRecorder] answers with the mode of the environment and
    leaves the three counters at zero and the flags set for that mode, never
    both; the cache, the list of the session and the files are as
    before. *)
Theorem initNetworkRecorder_state (w : World) :
  exists w',
    Recorder.initNetworkRecorder env w = (w', inr (Recorder.getMode env))
    /\ snd (Recorder.getRecorderState w')
       = inr {| Recorder.st_isRecording :=
                  match Recorder.getMode env with
                  | Recorder.record => true
                  | _ => false
                  end;
                Recorder.st_isReplaying :=
                  match Recorder.getMode env with
                  | Recorder.replay => true
                  | _ => false
                  end;
                Recorder.st_interceptedRequests := 0;
                Recorder.st_recordedRequests := 0;
                Recorder.st_replayedRequests := 0 |}
    /\ mockCache w' = mockCache w
    /\ sessionMocks w' = sessionMocks w
    /\ files w' = files w.
Proof.
  unfold Recorder.initNetworkRecorder. cbv zeta.
  destruct (Recorder.getMode env); eexists;
    (split; [rewrite bind_run, modify_run; cbv beta iota;
             rewrite bind_run, modify_run; cbv beta iota;
             rewrite mret_run; reflexivity|]);
    unfold Recorder.getRecorderState; rewrite gets_run; world_simpl;
    repeat split.
Qed.

End Flags.

Lemma lower_upper_char (c : ascii) :
  JS.lower_char (JS.upper_char c) = JS.lower_char c.
Proof. destruct c as [[] [] [] [] [] [] [] []]; reflexivity. Qed.

Lemma lower_char_idem (c : ascii) : JS.lower_char (JS.lower_char c) = JS.lower_char c.
Proof. destruct c as [[] [] [] [] [] [] [] []]; reflexivity. Qed.

Lemma toLowerCase_toUpperCase (s : string) :
  JS.toLowerCase (JS.toUpperCase s) = JS.toLowerCase s.
Proof.
  unfold JS.toLowerCase, JS.toUpperCase.
  induction s as [|c s IH]; cbn [JS.map_string]; [reflexivity|].
  now rewrite lower_upper_char, IH.
Qed.

Lemma toLowerCase_idem (s : string) :
  JS.toLowerCase (JS.toLowerCase s) = JS.toLowerCase s.
Proof.
  unfold JS.toLowerCase.
  induction s as [|c s IH]; cbn [JS.map_string]; [reflexivity|].
  now rewrite lower_char_idem, IH.
Qed.

(** X28. The mode does not depend on the case of [MODE]: the value written
    in upper case or in lower case gives the mode of the value as it is. *)
Theorem getMode_ignores_case (mode : string) (dir : option string)
    (fallback : option bool) (level : option Config.LogLevel) :
  Recorder.getMode (Config.mkEnv (Some (JS.toUpperCase mode)) dir fallback level)
  = Recorder.getMode (Config.mkEnv (Some mode) dir fallback level)
  /\ Recorder.getMode (Config.mkEnv (Some (JS.toLowerCase mode)) dir fallback level)
     = Recorder.getMode (Config.mkEnv (Some mode) dir fallback level).
Proof.
  unfold Recorder.getMode. cbn [Config.MODE].
  now rewrite toLowerCase_toUpperCase, toLowerCase_idem.
Qed.

Lemma filter_none {A : Type} (f : A -> bool) (l : list A) :
  forallb (fun x => negb (f x)) l = true -> List.filter f l = [].
Proof.
  induction l as [|x l IH]; cbn [forallb List.filter]; [reflexivity|].
  intros H. apply andb_prop in H as [Hx Hl]. apply negb_true_iff in Hx.
  rewrite Hx. now apply IH.
Qed.

(** The segments that [generateMockPath] keeps for the directory, and a run
    of segments none of which it keeps. *)
#[local] Abbreviation names_directory :=
  (fun s : string => JS.truthy s && negb (Matcher.all_digits s)).
#[local] Abbreviation skipped segments :=
  (forallb (fun s : string => negb (names_directory s)) segments = true).

(** X29. The directory of a mock under the mock directory is named by the
    first two segments of the pathname that are neither empty nor made of
    digits only, in their order, whatever follows them; by the one such
    segment when there is no second; and by [api] only when there is none.
    The mock file lies in that directory. *)
Theorem generateMockPath_directory (config : Config.MockConfig)
    (signature : Matcher.RequestSignature) :
  let segments := JS.split "/" (Matcher.pathname signature) in
  let under directory :=
    Config.mockDir config +:+ "/" +:+ directory +:+ "/"
    +:+ Matcher.generateMockFilename signature in
  (skipped segments ->
   Matcher.generateMockPath config signature = under "api")
  /\ (forall pre s1 rest,
        segments = pre ++ s1 :: rest ->
        skipped pre -> names_directory s1 = true -> skipped rest ->
        Matcher.generateMockPath config signature = under s1)
  /\ (forall pre s1 mid s2 post,
        segments = pre ++ s1 :: mid ++ s2 :: post ->
        skipped pre -> names_directory s1 = true ->
        skipped mid -> names_directory s2 = true ->
        Matcher.generateMockPath config signature = under (s1 +:+ "/" +:+ s2)).
Proof.
  intros segments under. subst under. unfold Matcher.generateMockPath.
  change (JS.split "/" (Matcher.pathname signature)) with segments.
  cbv zeta. split; [|split].
  - intros Hnone. rewrite (filter_none _ _ Hnone). reflexivity.
  - intros pre s1 rest -> Hpre Hs1 Hrest.
    rewrite List.filter_app, (filter_none _ _ Hpre). cbn [List.filter app].
    rewrite Hs1, (filter_none _ _ Hrest).
    cbn [firstn JS.join String.concat].
    apply andb_prop in Hs1 as [Htruthy _]. now rewrite Htruthy.
  - intros pre s1 mid s2 post -> Hpre Hs1 Hmid Hs2.
    rewrite List.filter_app, (filter_none _ _ Hpre). cbn [List.filter app].
    rewrite Hs1, List.filter_app, (filter_none _ _ Hmid).
    cbn [List.filter app]. rewrite Hs2.
    cbn [firstn JS.join String.concat].
    apply andb_prop in Hs1 as [Htruthy _].
    now rewrite (truthy_append_l _ _ Htruthy).
Qed.

Lemma generateMockPath_directory_witness :
  Matcher.generateMockPath Config.defaultConfig
    (@Matcher.createRequestSignature Host.platform "GET" "/posts/1/comments/5")
  = "cypress/mocks/posts/comments/get_posts_1_comments_5.json"
  /\ Matcher.generateMockPath Config.defaultConfig
       (@Matcher.createRequestSignature Host.platform "GET" "/42")
     = "cypress/mocks/api/get_42.json".
Proof.
  split.
  - destruct (generateMockPath_directory Config.defaultConfig
                (@Matcher.createRequestSignature Host.platform "GET"
                   "/posts/1/comments/5")) as (_ & _ & Htwo).
    apply (Htwo [EmptyString] "posts" ["1"] "comments" ["5"]); reflexivity.
  - destruct (generateMockPath_directory Config.defaultConfig
                (@Matcher.createRequestSignature Host.platform "GET" "/42"))
      as (Hnone & _ & _).
    apply Hnone. reflexivity.
Defined.

Lemma saved_mock_is_listed_witness :
  exists w1 w2 w3 listed,
    @saveMock Host.platform Sample.env_record
      (mkSaveRequest "GET" "/posts" None JS.VUndefined)
      (mkSaveResponse 200 (Some "OK") None (JS.VStr "[]")) None Sample.world0
    = (w1, inr Sample.posts_path)
    /\ mockExists Sample.env_record
         (@Matcher.createRequestSignature Host.platform "GET" "/posts") w1
       = (w2, inr true)
    /\ listMocks Sample.env_record w2 = (w3, inr listed)
    /\ exists file, In file listed /\ "cypress/mocks" +:+ "/" +:+ file = Sample.posts_path.
Proof.
  destruct (@saved_mock_is_listed Host.platform Sample.env_record
              (mkSaveRequest "GET" "/posts" None JS.VUndefined)
              (mkSaveResponse 200 (Some "OK") None (JS.VStr "[]")) None
              Sample.world0)
    as (w1 & w2 & w3 & listed & file & Hsave & Hexists & Hlist & Hin & Hpath).
  - vm_compute. reflexivity.
  - exists w1, w2, w3, listed. split; [exact Hsave|]. split; [exact Hexists|].
    split; [exact Hlist|]. exists file. split; [exact Hin|exact Hpath].
Defined.

Lemma clearAllMocks_forgets_witness :
  exists w1,
    clearAllMocks Sample.env_replay Sample.world_recorded = (w1, inr true)
    /\ snd (loadMock Sample.env_replay
              (@Matcher.createRequestSignature Host.platform "GET" "/posts") w1)
       = inr None.
Proof.
  destruct (clearAllMocks_forgets Sample.env_replay Sample.world_recorded)
    as (w1 & Hclear & _ & _ & _ & Hload).
  exists w1. split; [exact Hclear|]. apply Hload.
  vm_compute. reflexivity.
Defined.

Lemma clearCache_refreshes_witness :
  let w := with_mockCache (fun c => <["GET:/posts" := Sample.posts_mock]> c)
             Sample.world0 in
  exists w' m,
    (@saveMock Host.platform Sample.env_record
       (mkSaveRequest "get" "/posts" None JS.VUndefined)
       (mkSaveResponse 404 (Some "Not Found") None JS.VNull) None ≫= fun _ =>
     clearCache ≫= fun _ =>
     loadMock Sample.env_record
       (@Matcher.createRequestSignature Host.platform "get" "/posts")) w
    = (w', inr (Some m))
    /\ status m = 404.
Proof.
  intros w.
  destruct (@clearCache_refreshes Host.platform Sample.env_record
              (mkSaveRequest "get" "/posts" None JS.VUndefined)
              (mkSaveResponse 404 (Some "Not Found") None JS.VNull) None w
              eq_refl eq_refl) as (w' & Hrun & _).
  exists w'. eexists. split; [exact Hrun|reflexivity].
Defined.

(* ===================================================================== *)
(** * Saving and loading dynamic values *)
(* ===================================================================== *)

(** ** Occurrences in a string *)

Lemma includes_nil (sub : string) :
  JS.includes EmptyString sub = String.prefix sub EmptyString.
Proof. cbn [JS.includes]. now rewrite orb_false_r. Qed.

Lemma includes_cons (c : ascii) (s sub : string) :
  JS.includes (String c s) sub
  = String.prefix sub (String c s) || JS.includes s sub.
Proof. reflexivity. Qed.

Lemma includes_prefix (s sub : string) :
  String.prefix sub s = true -> JS.includes s sub = true.
Proof.
  intros H. destruct s; [now rewrite includes_nil|].
  now rewrite includes_cons, H.
Qed.

Lemma prefix_app_l (sub a b : string) :
  String.prefix sub a = true -> String.prefix sub (a +:+ b) = true.
Proof.
  revert a. induction sub as [|c sub IH]; intros a H; [apply prefix_nil|].
  destruct a as [|d a]; [discriminate|].
  rewrite append_cons, prefix_cons. rewrite prefix_cons in H.
  apply andb_prop in H as [-> H]. now rewrite (IH a H).
Qed.

Lemma includes_app_l (a b sub : string) :
  JS.includes a sub = true -> JS.includes (a +:+ b) sub = true.
Proof.
  induction a as [|c a IH].
  - rewrite includes_nil. intros H. apply includes_prefix.
    destruct sub; [apply prefix_nil|discriminate].
  - rewrite append_cons, !includes_cons. intros H.
    apply orb_prop in H as [H|H].
    + now rewrite <- append_cons, (prefix_app_l _ _ b H).
    + now rewrite (IH H), orb_true_r.
Qed.

Lemma includes_app_r (a b sub : string) :
  JS.includes b sub = true -> JS.includes (a +:+ b) sub = true.
Proof.
  intros H. induction a as [|c a IH]; [now rewrite append_nil_l|].
  now rewrite append_cons, includes_cons, IH, orb_true_r.
Qed.

Lemma includes_app_false (a b sub : string) :
  JS.includes (a +:+ b) sub = false ->
  JS.includes a sub = false /\ JS.includes b sub = false.
Proof.
  intros H. split.
  - destruct (JS.includes a sub) eqn:Ha; [|reflexivity].
    now rewrite (includes_app_l a b sub Ha) in H.
  - destruct (JS.includes b sub) eqn:Hb; [|reflexivity].
    now rewrite (includes_app_r a b sub Hb) in H.
Qed.

Lemma includes_false_prefix (s sub : string) :
  JS.includes s sub = false -> String.prefix sub s = false.
Proof.
  intros H. destruct (String.prefix sub s) eqn:Hp; [|reflexivity].
  now rewrite (includes_prefix s sub Hp) in H.
Qed.

Lemma occurrences_cons (c : ascii) (s sub : string) :
  JS.occurrences (String c s) sub
  = ((if String.prefix sub (String c s) then 1 else 0) + JS.occurrences s sub)%nat.
Proof. reflexivity. Qed.

Lemma occurrences_app_r (a b sub : string) :
  (JS.occurrences b sub <= JS.occurrences (a +:+ b) sub)%nat.
Proof.
  induction a as [|c a IH]; [now rewrite append_nil_l|].
  rewrite append_cons, occurrences_cons. lia.
Qed.

Lemma occurrences_at_head (sub rest : string) :
  JS.truthy sub = true ->
  (1 + JS.occurrences rest sub <= JS.occurrences (sub +:+ rest) sub)%nat.
Proof.
  destruct sub as [|c sub]; [discriminate|]. intros _.
  rewrite append_cons, occurrences_cons, <- append_cons, prefix_append.
  pose proof (occurrences_app_r sub rest (String c sub)). lia.
Qed.

(** ** Replacement with a template without a dollar sign *)

Lemma getSubstitution_plain (matched before after template : string) :
  JS.dollar_free template = true ->
  JS.getSubstitution matched before after template = template.
Proof.
  unfold JS.dollar_free.
  induction template as [|c template IH]; [reflexivity|].
  cbn [JS.forall_string JS.getSubstitution]. intros H.
  apply andb_prop in H as [Hc H]. apply negb_true_iff in Hc. rewrite Hc.
  now rewrite (IH H).
Qed.

Lemma replaceAll_go_nil (lit template : string) (skip : nat) (before : string) :
  JS.replaceAll_go lit template skip before EmptyString
  = if String.prefix lit EmptyString
    then JS.getSubstitution lit before EmptyString template
    else EmptyString.
Proof. reflexivity. Qed.

Lemma replaceAll_go_cons (lit template : string) (skip : nat) (before : string)
    (c : ascii) (r : string) :
  JS.replaceAll_go lit template skip before (String c r)
  = match skip with
    | S k => JS.replaceAll_go lit template k (before +:+ String c EmptyString) r
    | O =>
        if String.prefix lit (String c r) then
          JS.getSubstitution lit before
            (JS.drop (String.length lit) (String c r)) template
          +:+ match String.length lit with
              | O => String c
                       (JS.replaceAll_go lit template O
                          (before +:+ String c EmptyString) r)
              | S k => JS.replaceAll_go lit template k
                         (before +:+ String c EmptyString) r
              end
        else String c
               (JS.replaceAll_go lit template O
                  (before +:+ String c EmptyString) r)
    end.
Proof. reflexivity. Qed.

Lemma replaceFirst_go_eq (pat template before s : string) :
  JS.replaceFirst_go pat template before s
  = if String.prefix pat s then
      JS.getSubstitution pat before (JS.drop (String.length pat) s) template
      +:+ JS.drop (String.length pat) s
    else
      match s with
      | EmptyString => EmptyString
      | String c r =>
          String c
            (JS.replaceFirst_go pat template (before +:+ String c EmptyString) r)
      end.
Proof. destruct s; reflexivity. Qed.

Lemma truthy_length (s : string) :
  JS.truthy s = true -> exists k, String.length s = S k.
Proof. destruct s; [discriminate|]. intros _. now eexists. Qed.

Lemma prefix_of_nil (s : string) :
  JS.truthy s = true -> String.prefix s EmptyString = false.
Proof. destruct s; [discriminate|reflexivity]. Qed.

Section Replacing.
Variables lit template : string.
Hypothesis lit_truthy : JS.truthy lit = true.
Hypothesis template_plain : JS.dollar_free template = true.

Lemma replaceAll_go_before (s : string) :
  forall (skip : nat) (before before' : string),
    JS.replaceAll_go lit template skip before s
    = JS.replaceAll_go lit template skip before' s.
Proof.
  induction s as [|c s IH]; intros skip before before'.
  - rewrite !replaceAll_go_nil. now rewrite !getSubstitution_plain.
  - rewrite !replaceAll_go_cons. destruct skip as [|k]; [|apply IH].
    rewrite !getSubstitution_plain by assumption.
    destruct (String.prefix lit (String c s)).
    + f_equal. destruct (String.length lit); [f_equal|]; apply IH.
    + f_equal. apply IH.
Qed.

Lemma replaceAll_go_skip (skip : nat) :
  forall (before s : string),
    JS.replaceAll_go lit template skip before s
    = JS.replaceAll_go lit template O before (JS.drop skip s).
Proof.
  induction skip as [|k IH]; intros before s; [now destruct s|].
  destruct s as [|c s]; [reflexivity|].
  rewrite replaceAll_go_cons. cbn [JS.drop]. rewrite IH.
  apply replaceAll_go_before.
Qed.

Lemma replaceAll_nil : JS.replaceAll EmptyString lit template = EmptyString.
Proof.
  unfold JS.replaceAll. rewrite replaceAll_go_nil.
  now rewrite (prefix_of_nil lit lit_truthy).
Qed.

Lemma replaceAll_match (s : string) :
  String.prefix lit s = true ->
  JS.replaceAll s lit template
  = template +:+ JS.replaceAll (JS.drop (String.length lit) s) lit template.
Proof.
  intros Hp. destruct s as [|c s].
  { now rewrite (prefix_of_nil lit lit_truthy) in Hp. }
  unfold JS.replaceAll. rewrite replaceAll_go_cons, Hp.
  rewrite getSubstitution_plain by assumption. f_equal.
  destruct (truthy_length lit lit_truthy) as [k ->]. cbn [JS.drop].
  rewrite replaceAll_go_skip. apply replaceAll_go_before.
Qed.

Lemma replaceAll_nomatch (c : ascii) (s : string) :
  String.prefix lit (String c s) = false ->
  JS.replaceAll (String c s) lit template
  = String c (JS.replaceAll s lit template).
Proof.
  intros Hp. unfold JS.replaceAll. rewrite replaceAll_go_cons, Hp.
  f_equal. apply replaceAll_go_before.
Qed.

Lemma replaceFirst_go_before (s : string) :
  forall before before' : string,
    JS.replaceFirst_go lit template before s
    = JS.replaceFirst_go lit template before' s.
Proof.
  induction s as [|c s IH]; intros before before';
    rewrite (replaceFirst_go_eq lit template before),
            (replaceFirst_go_eq lit template before');
    rewrite !getSubstitution_plain by assumption.
  - reflexivity.
  - destruct (String.prefix lit (String c s)); [reflexivity|].
    f_equal. apply IH.
Qed.

Lemma replaceFirst_match (s : string) :
  String.prefix lit s = true ->
  JS.replaceFirst s lit template
  = template +:+ JS.drop (String.length lit) s.
Proof.
  intros Hp. unfold JS.replaceFirst. rewrite replaceFirst_go_eq, Hp.
  now rewrite getSubstitution_plain.
Qed.

Lemma replaceFirst_nomatch (c : ascii) (s : string) :
  String.prefix lit (String c s) = false ->
  JS.replaceFirst (String c s) lit template
  = String c (JS.replaceFirst s lit template).
Proof.
  intros Hp. unfold JS.replaceFirst. rewrite replaceFirst_go_eq, Hp.
  f_equal. apply replaceFirst_go_before.
Qed.

End Replacing.

(** ** Braces *)

Lemma prefix_head_neq (c d : ascii) (p s : string) :
  c <> d -> String.prefix (String c p) (String d s) = false.
Proof. intros H. rewrite prefix_cons. apply Ascii.eqb_neq in H. now rewrite H. Qed.

(** A string that holds no [b] cannot reach over a [b] of the text. *)
Lemma prefix_stops (b : ascii) (q y rest : string) :
  JS.forall_string (fun c => negb (Ascii.eqb c b)) q = true ->
  String.prefix q (y +:+ String b rest) = String.prefix q y.
Proof.
  revert y. induction q as [|c q IH]; intros y Hq; [now rewrite !prefix_nil|].
  cbn [JS.forall_string] in Hq. apply andb_prop in Hq as [Hc Hq].
  apply negb_true_iff, Ascii.eqb_neq in Hc.
  destruct y as [|d y].
  - rewrite append_nil_l. now rewrite (prefix_head_neq c b q rest Hc).
  - rewrite append_cons, !prefix_cons. now rewrite (IH y Hq).
Qed.

Lemma brace_free_open (s : string) :
  JS.brace_free s = true ->
  JS.forall_string (fun c => negb (Ascii.eqb c "{")) s = true.
Proof.
  apply forall_string_impl. intros c H. now apply andb_prop in H as [H _].
Qed.

Lemma brace_free_close (s : string) :
  JS.brace_free s = true ->
  JS.forall_string (fun c => negb (Ascii.eqb c "}")) s = true.
Proof.
  apply forall_string_impl. intros c H. now apply andb_prop in H as [_ H].
Qed.

Lemma brace_free_cons (c : ascii) (s : string) :
  JS.brace_free (String c s) = true ->
  c <> "{"%char /\ c <> "}"%char /\ JS.brace_free s = true.
Proof.
  unfold JS.brace_free. cbn [JS.forall_string]. intros H.
  apply andb_prop in H as [Hc Hs]. apply andb_prop in Hc as [Ho Hcl].
  apply negb_true_iff, Ascii.eqb_neq in Ho.
  apply negb_true_iff, Ascii.eqb_neq in Hcl. auto.
Qed.

Lemma token_eq (field : string) :
  Sanitizer.token field = String "{" (String "{" (field +:+ "}}")).
Proof. unfold Sanitizer.token. now rewrite !append_cons, append_nil_l. Qed.

Lemma token_app (field rest : string) :
  Sanitizer.token field +:+ rest
  = String "{" (String "{" (field +:+ String "}" (String "}" rest))).
Proof.
  rewrite token_eq, !append_cons, append_assoc.
  now rewrite !append_cons, append_nil_l.
Qed.

Lemma token_truthy (field : string) : JS.truthy (Sanitizer.token field) = true.
Proof. now rewrite token_eq. Qed.

Lemma token_length (field : string) :
  String.length (Sanitizer.token field) = (String.length field + 4)%nat.
Proof.
  rewrite token_eq. cbn [String.length]. rewrite length_append.
  cbn [String.length]. lia.
Qed.

Lemma token_head (key : string) (c : ascii) (s : string) :
  c <> "{"%char -> String.prefix (Sanitizer.token key) (String c s) = false.
Proof. intros H. rewrite token_eq. apply prefix_head_neq. congruence. Qed.

(** The rest of a token after its two opening braces holds no opening
    brace. *)
Lemma token_tail_open (key : string) :
  JS.brace_free key = true ->
  JS.forall_string (fun c => negb (Ascii.eqb c "{")) (key +:+ "}}") = true.
Proof.
  intros H. rewrite forall_string_append, (brace_free_open key H). reflexivity.
Qed.

(** An occurrence of a token that starts in the text before another token
    ends before that token. *)
Lemma token_before_token (key y rest : string) :
  JS.brace_free key = true ->
  JS.truthy y = true ->
  String.prefix (Sanitizer.token key) (y +:+ String "{" (String "{" rest))
  = String.prefix (Sanitizer.token key) y.
Proof.
  intros Hkey Hy. destruct y as [|x1 y]; [discriminate|].
  rewrite token_eq, append_cons, !prefix_cons. f_equal.
  destruct y as [|x2 y].
  - rewrite append_nil_l, prefix_cons. cbn [Ascii.eqb Bool.eqb andb].
    destruct key as [|c key].
    + rewrite append_nil_l. apply prefix_head_neq. discriminate.
    + rewrite append_cons. apply prefix_head_neq.
      now apply brace_free_cons in Hkey as (H & _ & _).
  - rewrite append_cons, !prefix_cons. f_equal.
    apply (prefix_stops "{"). now apply token_tail_open.
Qed.

(** An occurrence of a token that starts where another token starts is
    that token. *)
Lemma token_at_token (key field rest : string) :
  JS.brace_free key = true ->
  JS.brace_free field = true ->
  String.prefix (Sanitizer.token key) (Sanitizer.token field +:+ rest)
  = String.eqb key field.
Proof.
  intros Hkey Hfield. rewrite token_app, token_eq, !prefix_cons.
  cbn [Ascii.eqb Bool.eqb andb].
  revert field Hfield. induction key as [|c key IH]; intros field Hfield.
  - destruct field as [|d field].
    { rewrite !append_nil_l, !prefix_cons, prefix_nil. reflexivity. }
    rewrite append_nil_l, append_cons. cbn [String.eqb].
    apply prefix_head_neq.
    apply brace_free_cons in Hfield as (_ & H & _). congruence.
  - apply brace_free_cons in Hkey as (_ & Hc & Hkey').
    destruct field as [|d field].
    + rewrite append_nil_l, append_cons. cbn [String.eqb].
      now apply prefix_head_neq.
    + apply brace_free_cons in Hfield as (_ & _ & Hfield').
      rewrite !append_cons, prefix_cons. cbn [String.eqb].
      rewrite (IH Hkey' field Hfield').
      now destruct (Ascii.eqb c d).
Qed.

(** No token starts inside another token. *)
Lemma token_inside_field (key field rest : string) :
  JS.brace_free field = true ->
  String.prefix (Sanitizer.token key) (String "{" (field +:+ String "}" rest))
  = false.
Proof.
  intros Hfield. rewrite token_eq, prefix_cons. cbn [Ascii.eqb Bool.eqb andb].
  destruct field as [|d field].
  - rewrite append_nil_l. apply prefix_head_neq. discriminate.
  - rewrite append_cons. apply prefix_head_neq.
    apply brace_free_cons in Hfield as (H & _ & _). congruence.
Qed.

(** ** The saved forms of a string *)

Section Tokens.
Variable patterns : list (string * string).

#[local] Abbreviation saved_form := (Sanitizer.tokenized patterns).

Lemma tokenized_cons_char (c0 : ascii) (s t : string)
    (tokens : list (string * string)) :
  saved_form s t tokens -> saved_form (String c0 s) (String c0 t) tokens.
Proof.
  intros H. destruct H as [chunk|chunk field value rest saved tokens Hin H].
  - constructor.
  - rewrite <- !append_cons. now constructor.
Qed.

Lemma tokenized_prepend (x s t : string) (tokens : list (string * string)) :
  saved_form s t tokens -> saved_form (x +:+ s) (x +:+ t) tokens.
Proof.
  intros H. induction x as [|c x IH]; [now rewrite !append_nil_l|].
  rewrite !append_cons. now apply tokenized_cons_char.
Qed.

Lemma tokenized_app (s1 t1 s2 t2 : string) (tokens1 tokens2 : list (string * string)) :
  saved_form s1 t1 tokens1 -> saved_form s2 t2 tokens2 ->
  saved_form (s1 +:+ s2) (t1 +:+ t2) (tokens1 ++ tokens2).
Proof.
  intros H1 H2.
  induction H1 as [chunk|chunk field value rest saved tokens Hin H1 IH].
  - now apply tokenized_prepend.
  - rewrite !append_assoc. cbn [app]. now constructor.
Qed.

Lemma tokenized_value (field value rest saved : string)
    (tokens : list (string * string)) :
  In (field, value) patterns -> saved_form rest saved tokens ->
  saved_form (value +:+ rest) (Sanitizer.token field +:+ saved)
    ((field, value) :: tokens).
Proof.
  intros Hin H.
  rewrite <- (append_nil_l (value +:+ rest)).
  rewrite <- (append_nil_l (Sanitizer.token field +:+ saved)).
  now constructor.
Qed.

Lemma tokenized_nil_inv (s t : string) : saved_form s t [] -> t = s.
Proof. intros H. now inversion H. Qed.

Lemma tokenized_In (s t : string) (tokens : list (string * string)) :
  saved_form s t tokens -> forall token, In token tokens -> In token patterns.
Proof.
  induction 1 as [chunk|chunk field value rest saved tokens Hin H IH];
    intros token [].
  - now subst.
  - now apply IH.
Qed.

(** Every token stands for an occurrence of its value in the string. *)
Lemma tokenized_occurs (s t : string) (tokens : list (string * string)) :
  saved_form s t tokens ->
  forall value, JS.truthy value = true -> In value (map snd tokens) ->
  (1 <= JS.occurrences s value)%nat.
Proof.
  induction 1 as [chunk|chunk field value0 rest saved tokens Hin H IH];
    intros value Hvalue Hmem; [destruct Hmem|].
  cbn [map snd] in Hmem. destruct Hmem as [<-|Hmem].
  - pose proof (occurrences_app_r chunk (value0 +:+ rest) value0).
    pose proof (occurrences_at_head value0 rest Hvalue). lia.
  - pose proof (IH value Hvalue Hmem).
    pose proof (occurrences_app_r chunk (value0 +:+ rest) value).
    pose proof (occurrences_app_r value0 rest value). lia.
Qed.

(** When every tracked value occurs once at most, no two tokens stand for
    the same value. *)
Lemma tokenized_values_distinct (s t : string) (tokens : list (string * string)) :
  saved_form s t tokens ->
  (forall p, In p patterns -> JS.truthy (snd p) = true) ->
  (forall p, In p patterns -> (JS.occurrences s (snd p) <= 1)%nat) ->
  NoDup (map snd tokens).
Proof.
  intros H Htruthy.
  induction H as [chunk|chunk field value rest saved tokens Hin H IH];
    intros Honce; [constructor|].
  cbn [map snd]. apply NoDup_cons. split.
  - intros Hmem. apply list_elem_of_In in Hmem.
    pose proof (tokenized_occurs _ _ _ H value (Htruthy _ Hin) Hmem).
    pose proof (Honce _ Hin) as Hle. cbn [snd] in Hle.
    pose proof (occurrences_app_r chunk (value +:+ rest) value).
    pose proof (occurrences_at_head value rest (Htruthy _ Hin)). lia.
  - apply IH. intros p Hp. pose proof (Honce p Hp).
    pose proof (occurrences_app_r chunk (value +:+ rest) (snd p)).
    pose proof (occurrences_app_r value rest (snd p)). lia.
Qed.

(** *** One round of the loop of [applyDynamicPlaceholders] *)

Section ApplyStep.
Variables field value : string.
Hypothesis pattern_listed : In (field, value) patterns.
Hypothesis value_truthy : JS.truthy value = true.
Hypothesis value_brace_free : JS.brace_free value = true.
Hypothesis field_plain : JS.dollar_free field = true.

#[local] Abbreviation replaced s :=
  (JS.replaceAll s value (Sanitizer.token field)).

Lemma token_plain : JS.dollar_free (Sanitizer.token field) = true.
Proof.
  rewrite token_eq. unfold JS.dollar_free in *. cbn [JS.forall_string].
  rewrite forall_string_append, field_plain. reflexivity.
Qed.

Lemma value_not_at_brace (b : ascii) (s : string) :
  b = "{"%char \/ b = "}"%char ->
  String.prefix value (String b s) = false.
Proof.
  intros Hb. destruct value as [|c v] eqn:Hv; [discriminate|].
  apply prefix_head_neq.
  apply brace_free_cons in value_brace_free as (Ho & Hc & _).
  destruct Hb; congruence.
Qed.

Lemma value_stops (b : ascii) (y rest : string) :
  b = "{"%char \/ b = "}"%char ->
  String.prefix value (y +:+ String b rest) = String.prefix value y.
Proof.
  intros [->| ->]; apply prefix_stops.
  - now apply brace_free_open.
  - now apply brace_free_close.
Qed.

Lemma replaced_nil : replaced EmptyString = EmptyString.
Proof. exact (replaceAll_nil value _ value_truthy). Qed.

Lemma replaced_match (s : string) :
  String.prefix value s = true ->
  replaced s
  = Sanitizer.token field +:+ replaced (JS.drop (String.length value) s).
Proof. exact (replaceAll_match value _ value_truthy token_plain s). Qed.

Lemma replaced_nomatch (c : ascii) (s : string) :
  String.prefix value (String c s) = false ->
  replaced (String c s) = String c (replaced s).
Proof. exact (replaceAll_nomatch value _ token_plain c s). Qed.

(** The replacement in a chunk does not depend on what follows a brace. *)
Lemma replaced_chunk (b : ascii) (rest : string) (n : nat) :
  b = "{"%char \/ b = "}"%char ->
  forall chunk, (String.length chunk <= n)%nat ->
    replaced (chunk +:+ String b rest)
    = replaced chunk +:+ replaced (String b rest).
Proof.
  intros Hb. induction n as [|n IH]; intros chunk Hlen.
  - destruct chunk; [|cbn in Hlen; lia].
    now rewrite replaced_nil, !append_nil_l.
  - destruct chunk as [|a chunk].
    { now rewrite replaced_nil, !append_nil_l. }
    destruct (String.prefix value (String a chunk)) eqn:Hp.
    + pose proof Hp as Hsplit. apply prefix_split in Hsplit.
      set (tail := JS.drop (String.length value) (String a chunk)) in *.
      rewrite (replaced_match (String a chunk) Hp). fold tail.
      rewrite Hsplit at 1. rewrite append_assoc.
      rewrite replaced_match by apply prefix_append.
      rewrite drop_append, append_assoc. f_equal. apply IH.
      apply (f_equal String.length) in Hsplit.
      rewrite length_append in Hsplit.
      destruct (truthy_length value value_truthy) as [k Hk].
      cbn [String.length] in Hsplit, Hlen. lia.
    + rewrite append_cons, replaced_nomatch.
      2: { rewrite <- append_cons. now rewrite value_stops. }
      rewrite (replaced_nomatch a chunk Hp), append_cons. f_equal.
      apply IH. cbn [String.length] in Hlen. lia.
Qed.

(** The replacement in a chunk is a saved form of the chunk, with a token
    when the value occurs in it. *)
Lemma replaced_tokenized (n : nat) :
  forall chunk, (String.length chunk <= n)%nat ->
    exists tokens,
      saved_form chunk (replaced chunk) tokens
      /\ (forall token, In token tokens -> token = (field, value))
      /\ (JS.includes chunk value = true -> tokens <> []).
Proof.
  induction n as [|n IH]; intros chunk Hlen.
  - destruct chunk; [|cbn in Hlen; lia].
    exists []. rewrite replaced_nil. split; [constructor|]. split; [intros ? []|].
    rewrite includes_nil, (prefix_of_nil value value_truthy). discriminate.
  - destruct chunk as [|a chunk].
    { exists []. rewrite replaced_nil. split; [constructor|]. split; [intros ? []|].
      rewrite includes_nil, (prefix_of_nil value value_truthy). discriminate. }
    destruct (String.prefix value (String a chunk)) eqn:Hp.
    + pose proof Hp as Hsplit. apply prefix_split in Hsplit.
      set (tail := JS.drop (String.length value) (String a chunk)) in *.
      destruct (IH tail) as (tokens & Hsaved & Hall & _).
      { apply (f_equal String.length) in Hsplit.
        rewrite length_append in Hsplit.
        destruct (truthy_length value value_truthy) as [k Hk].
        cbn [String.length] in Hsplit, Hlen. lia. }
      exists ((field, value) :: tokens).
      rewrite (replaced_match (String a chunk) Hp). fold tail.
      split; [|split].
      * rewrite Hsplit at 1. now apply tokenized_value.
      * intros token [<-|Hin]; [reflexivity|now apply Hall].
      * discriminate.
    + destruct (IH chunk) as (tokens & Hsaved & Hall & Hsome).
      { cbn [String.length] in Hlen. lia. }
      exists tokens. rewrite (replaced_nomatch a chunk Hp).
      split; [now apply tokenized_cons_char|]. split; [exact Hall|].
      rewrite includes_cons, Hp. exact Hsome.
Qed.

(** The replacement passes over a token whose field does not hold the
    value. *)
Lemma replaced_absent (x rest : string) (b : ascii) :
  b = "{"%char \/ b = "}"%char ->
  JS.includes x value = false ->
  replaced (x +:+ String b rest) = x +:+ replaced (String b rest).
Proof.
  intros Hb. induction x as [|c x IH]; intros Hinc;
    [now rewrite !append_nil_l|].
  rewrite includes_cons in Hinc. apply orb_false_elim in Hinc as [Hp Hinc].
  rewrite append_cons, replaced_nomatch.
  - rewrite append_cons. f_equal. now apply IH.
  - rewrite <- append_cons. now rewrite value_stops.
Qed.

Lemma replaced_token (field' rest : string) :
  JS.includes field' value = false ->
  replaced (Sanitizer.token field' +:+ rest)
  = Sanitizer.token field' +:+ replaced rest.
Proof.
  intros Hinc. rewrite !token_app.
  rewrite !replaced_nomatch by (apply value_not_at_brace; auto).
  rewrite (replaced_absent field' _ "}") by auto.
  now rewrite !replaced_nomatch by (apply value_not_at_brace; auto).
Qed.

(** One round keeps a saved form a saved form, adds tokens of its own
    pattern only, and removes none. *)
Lemma replaced_saved_form (s t : string) (tokens : list (string * string)) :
  saved_form s t tokens ->
  (forall token, In token tokens -> JS.includes (fst token) value = false) ->
  exists tokens',
    saved_form s (replaced t) tokens'
    /\ (forall token, In token tokens' -> In token tokens \/ token = (field, value))
    /\ (tokens <> [] \/ JS.includes t value = true -> tokens' <> []).
Proof.
  induction 1 as [chunk|chunk field' value' rest saved tokens Hin H IH];
    intros Hclear.
  - destruct (replaced_tokenized (String.length chunk) chunk (le_n _))
      as (tokens' & Hsaved & Hall & Hsome).
    exists tokens'. split; [exact Hsaved|]. split; [auto|].
    intros [Hne|Hinc]; [congruence|now apply Hsome].
  - destruct (replaced_tokenized (String.length chunk) chunk (le_n _))
      as (tokens1 & Hsaved1 & Hall1 & _).
    destruct IH as (tokens2 & Hsaved2 & Hall2 & _).
    { intros token Htoken. apply Hclear. now right. }
    exists (tokens1 ++ (field', value') :: tokens2).
    rewrite token_app at 1.
    rewrite (replaced_chunk "{" _ (String.length chunk)) by auto.
    rewrite <- token_app.
    rewrite replaced_token by (apply (Hclear (field', value')); now left).
    split; [|split].
    + apply tokenized_app; [exact Hsaved1|].
      now apply tokenized_value.
    + intros token Htoken. apply in_app_iff in Htoken as [H1|[<-|H2]].
      * right. now apply Hall1.
      * left. now left.
      * destruct (Hall2 token H2) as [H3|H3]; [left; now right|now right].
    + intros _. now destruct tokens1.
Qed.

End ApplyStep.

End Tokens.

(** *** One round of the loop of [resolveDynamicPlaceholders] *)

Section ResolveStep.
Variable patterns : list (string * string).
Variables key template : string.
Hypothesis key_brace_free : JS.brace_free key = true.
Hypothesis template_plain : JS.dollar_free template = true.

#[local] Abbreviation saved_form := (Sanitizer.tokenized patterns).
#[local] Abbreviation sought := (Sanitizer.token key).
#[local] Abbreviation resolved s := (JS.replaceFirst s sought template).

Lemma resolved_nomatch (c : ascii) (s : string) :
  String.prefix sought (String c s) = false ->
  resolved (String c s) = String c (resolved s).
Proof. exact (replaceFirst_nomatch sought template template_plain c s). Qed.

(** The token sought is not found in a chunk that does not hold it, even
    with a token after the chunk. *)
Lemma resolved_chunk (chunk rest : string) :
  JS.includes chunk sought = false ->
  resolved (chunk +:+ String "{" (String "{" rest))
  = chunk +:+ resolved (String "{" (String "{" rest))
  /\ JS.includes (chunk +:+ String "{" (String "{" rest)) sought
     = JS.includes (String "{" (String "{" rest)) sought.
Proof.
  induction chunk as [|c chunk IH]; intros Hinc; [now rewrite !append_nil_l|].
  rewrite includes_cons in Hinc. apply orb_false_elim in Hinc as [Hp Hinc].
  destruct (IH Hinc) as [IH1 IH2].
  assert (Hhere : String.prefix sought
                    (String c (chunk +:+ String "{" (String "{" rest))) = false).
  { rewrite <- append_cons.
    now rewrite (token_before_token key (String c chunk) rest key_brace_free). }
  rewrite !append_cons. split.
  - rewrite (resolved_nomatch _ _ Hhere). now rewrite IH1.
  - now rewrite includes_cons, Hhere, IH2.
Qed.

Lemma resolved_field (x rest : string) :
  JS.brace_free x = true ->
  resolved (x +:+ String "}" rest) = x +:+ resolved (String "}" rest)
  /\ JS.includes (x +:+ String "}" rest) sought
     = JS.includes (String "}" rest) sought.
Proof.
  induction x as [|c x IH]; intros Hx; [now rewrite !append_nil_l|].
  apply brace_free_cons in Hx as (Hc & _ & Hx). destruct (IH Hx) as [IH1 IH2].
  rewrite !append_cons. split.
  - rewrite resolved_nomatch by now apply token_head. now rewrite IH1.
  - now rewrite includes_cons, (token_head key c _ Hc), IH2.
Qed.

(** The token sought is not found inside the token of another field. *)
Lemma resolved_other (field rest : string) :
  JS.brace_free field = true ->
  key <> field ->
  resolved (Sanitizer.token field +:+ rest)
  = Sanitizer.token field +:+ resolved rest
  /\ JS.includes (Sanitizer.token field +:+ rest) sought
     = JS.includes rest sought.
Proof.
  intros Hfield Hne.
  assert (H0 : String.prefix sought (Sanitizer.token field +:+ rest) = false).
  { rewrite (token_at_token key field rest key_brace_free Hfield).
    now apply String.eqb_neq. }
  rewrite token_app in H0. rewrite !token_app.
  pose proof (token_inside_field key field (String "}" rest) Hfield) as H1.
  destruct (resolved_field field (String "}" rest) Hfield) as [Hf1 Hf2].
  assert (Hclose : forall r, String.prefix sought (String "}" r) = false)
    by (intros r; apply token_head; discriminate).
  split.
  - rewrite (resolved_nomatch _ _ H0), (resolved_nomatch _ _ H1), Hf1.
    now rewrite !resolved_nomatch by apply Hclose.
  - rewrite includes_cons, H0, includes_cons, H1, Hf2.
    now rewrite !includes_cons, !Hclose.
Qed.

Lemma resolved_hit (rest : string) :
  resolved (sought +:+ rest) = template +:+ rest.
Proof.
  rewrite (replaceFirst_match sought template template_plain)
    by apply prefix_append.
  now rewrite drop_append.
Qed.

Section OnSavedForm.
Hypothesis fields_brace_free :
  forall p, In p patterns -> JS.brace_free (fst p) = true.

(** A key without a token in the saved form is not found in it. *)
Lemma resolved_miss (original t : string) (tokens : list (string * string)) :
  saved_form original t tokens ->
  JS.includes original sought = false ->
  (forall token, In token tokens -> fst token <> key) ->
  JS.includes t sought = false.
Proof.
  induction 1 as [chunk|chunk field value rest saved tokens Hin H IH];
    intros Hinc Hother; [exact Hinc|].
  apply includes_app_false in Hinc as [Hchunk Hinc].
  apply includes_app_false in Hinc as [_ Hrest].
  rewrite token_app.
  rewrite (proj2 (resolved_chunk chunk _ Hchunk)), <- token_app.
  rewrite (proj2 (resolved_other field saved (fields_brace_free _ Hin)
                    (not_eq_sym (Hother _ (or_introl eq_refl))))).
  apply IH; [exact Hrest|]. intros token Htoken. apply Hother. now right.
Qed.

(** A key with one token in the saved form gets the template in the place
    of that token, which leaves a saved form without that token. *)
Lemma resolved_token (original t : string) (tokens : list (string * string)) :
  saved_form original t tokens ->
  JS.includes original sought = false ->
  NoDup (map fst tokens) ->
  In (key, template) tokens ->
  exists tokens',
    saved_form original (resolved t) tokens'
    /\ (forall token, In token tokens' -> In token tokens /\ fst token <> key)
    /\ NoDup (map fst tokens').
Proof.
  induction 1 as [chunk|chunk field value rest saved tokens Hin H IH];
    intros Hinc Hnd Hkey; [destruct Hkey|].
  apply includes_app_false in Hinc as [Hchunk Hinc].
  apply includes_app_false in Hinc as [_ Hrest].
  cbn [map fst] in Hnd. apply NoDup_cons in Hnd as [Hfresh Hnd].
  rewrite token_app, (proj1 (resolved_chunk chunk _ Hchunk)), <- token_app.
  destruct (String.eqb_spec key field) as [<-|Hne].
  - assert (Hvalue : value = template).
    { destruct Hkey as [[= ->]|Hkey]; [reflexivity|].
      exfalso. apply Hfresh. apply list_elem_of_In.
      change key with (fst (key, template)). now apply in_map. }
    subst value. rewrite resolved_hit. exists tokens. split; [|split].
    + now apply tokenized_prepend, tokenized_prepend.
    + intros token Htoken. split; [now right|].
      intros Heq. apply Hfresh. apply list_elem_of_In. rewrite <- Heq.
      now apply in_map.
    + exact Hnd.
  - destruct Hkey as [[= Heq _]|Hkey]; [congruence|].
    destruct (IH Hrest Hnd Hkey) as (tokens' & Hsaved & Hsub & Hnd').
    rewrite (proj1 (resolved_other field saved (fields_brace_free _ Hin) Hne)).
    exists ((field, value) :: tokens'). split; [|split].
    + now constructor.
    + intros token [<-|Htoken].
      * split; [now left|]. cbn [fst]. congruence.
      * destruct (Hsub token Htoken) as [Hmem Hother]. split; [now right|exact Hother].
    + cbn [map fst]. apply NoDup_cons. split; [|exact Hnd'].
      intros Hmem. apply Hfresh. apply list_elem_of_In.
      apply list_elem_of_In, in_map_iff in Hmem as (token & <- & Htoken).
      apply in_map. now apply (Hsub token Htoken).
Qed.

End OnSavedForm.

End ResolveStep.

(** ** Saving, then loading *)

(** A loop that assigns one property per entry builds the entries in order
    when the keys are distinct own keys. *)
Lemma assign_each {V W : Type} (step : JS.obj W -> string * V -> JS.obj W)
    (h : string * V -> W) (props : list (string * V)) (acc : JS.obj W) :
  (forall acc kv, In kv props -> step acc kv = JS.obj_set acc (fst kv) (h kv)) ->
  NoDup (JS.obj_keys props) ->
  forallb JS.own_key props = true ->
  (forall k, In k (JS.obj_keys props) -> ~ In k (JS.obj_keys acc)) ->
  fold_left step props acc = acc ++ map (fun kv => (fst kv, h kv)) props.
Proof.
  intros Hstep Hnd Hown Hfresh.
  rewrite (assign_some step (fun kv => Some (h kv)) props acc); auto.
Qed.

Lemma includes_middle (a sub b : string) :
  JS.includes (a +:+ sub +:+ b) sub = true.
Proof. apply includes_app_r, includes_prefix, prefix_append. Qed.

(** Tokens of distinct values whose fields determine their values have
    distinct fields. *)
Lemma fields_distinct (tokens : list (string * string)) :
  (forall t1 t2, In t1 tokens -> In t2 tokens -> fst t1 = fst t2 -> snd t1 = snd t2) ->
  NoDup (map snd tokens) -> NoDup (map fst tokens).
Proof.
  induction tokens as [|token tokens IH]; intros Hfun Hnd; [constructor|].
  cbn [map] in Hnd |- *. apply NoDup_cons in Hnd as [Hfresh Hnd].
  apply NoDup_cons. split.
  - intros Hmem. apply Hfresh. apply list_elem_of_In.
    apply list_elem_of_In, in_map_iff in Hmem as (token' & Heq & Hin).
    rewrite (Hfun token token'); [now apply in_map|now left|now right|now symmetry].
  - apply IH; [|exact Hnd]. intros t1 t2 H1 H2. apply Hfun; now right.
Qed.

Section Placeholders.
Variable config : Config.MockConfig.
Variable patterns : list (string * string).
Variable values : JS.obj JS.value.

#[local] Abbreviation placeholder := (Config.dynamicPlaceholder config).
#[local] Abbreviation apply_ph d :=
  (Sanitizer.applyDynamicPlaceholders config d patterns).
#[local] Abbreviation resolve_ph d :=
  (Sanitizer.resolveDynamicPlaceholders config d values).
#[local] Abbreviation saved_form := (Sanitizer.tokenized patterns).

Hypothesis values_bind_patterns :
  forall field value,
    In (field, value) patterns -> JS.obj_get values field = Some (JS.VStr value).
Hypothesis safe : Sanitizer.tokens_safe config patterns values = true.

Lemma tracked_bound (key : string) (value : JS.value) :
  Sanitizer.tracked patterns key value = true ->
  JS.obj_get values key = Some value.
Proof.
  unfold Sanitizer.tracked, Sanitizer.find_pattern.
  destruct (List.find _ patterns) as [[field pv]|] eqn:Hfind; [|discriminate].
  apply find_some in Hfind as [Hin Hkey]. simpl in Hkey.
  apply String.eqb_eq in Hkey. subst field.
  destruct value; simpl; try discriminate.
  intros Heq. apply String.eqb_eq in Heq. subst. now apply values_bind_patterns.
Qed.

(** What [tokens_safe] says, one fact at a time. *)
Lemma safe_keys : NoDup (JS.obj_keys values).
Proof.
  unfold Sanitizer.tokens_safe in safe.
  apply andb_prop in safe as [H _]. apply andb_prop in H as [H _].
  apply andb_prop in H as [H _]. now apply bool_decide_eq_true in H.
Qed.

Lemma safe_key (kv : string * JS.value) :
  In kv values -> JS.brace_free (fst kv) = true.
Proof.
  unfold Sanitizer.tokens_safe in safe.
  apply andb_prop in safe as [H _]. apply andb_prop in H as [H _].
  apply andb_prop in H as [_ H]. rewrite forallb_forall in H. apply H.
Qed.

Lemma safe_pattern (p : string * string) :
  In p patterns ->
  JS.dollar_free (fst p) = true
  /\ JS.truthy (snd p) = true
  /\ JS.brace_free (snd p) = true
  /\ JS.dollar_free (snd p) = true
  /\ JS.includes placeholder (Sanitizer.token (fst p)) = false.
Proof.
  unfold Sanitizer.tokens_safe in safe.
  apply andb_prop in safe as [H _]. apply andb_prop in H as [_ H].
  rewrite forallb_forall in H. intros Hin. specialize (H p Hin).
  apply andb_prop in H as [H H5]. apply andb_prop in H as [H H4].
  apply andb_prop in H as [H H3]. apply andb_prop in H as [H1 H2].
  apply negb_true_iff in H5. auto.
Qed.

Lemma safe_clear : Sanitizer.fields_clear patterns = true.
Proof.
  unfold Sanitizer.tokens_safe in safe. now apply andb_prop in safe as [_ H].
Qed.

Lemma safe_field (p : string * string) :
  In p patterns -> JS.brace_free (fst p) = true.
Proof.
  destruct p as [field value]. intros Hin.
  apply values_bind_patterns, obj_get_In in Hin.
  apply (safe_key _ Hin).
Qed.

(** *** Saving a string *)

#[local] Abbreviation save_round data :=
  (fun (result : string) (pr : string * string) =>
     let '(field, value) := pr in
     if JS.includes data value
     then JS.replaceAll result
            (Sanitizer.literal_of (Sanitizer.escapeRegex value))
            ("{{" +:+ field +:+ "}}")
     else result).

Lemma save_rounds (s : string) (rounds : list (string * string)) :
  forall (result : string) (tokens : list (string * string)),
    (forall p, In p rounds -> In p patterns) ->
    Sanitizer.fields_clear rounds = true ->
    (forall token q, In token tokens -> In q rounds ->
       JS.includes (fst token) (snd q) = false) ->
    saved_form s result tokens ->
    exists tokens',
      saved_form s (fold_left (save_round s) rounds result) tokens'
      /\ (tokens <> []
          \/ (result = s
              /\ exists p, In p rounds /\ JS.includes s (snd p) = true) ->
          tokens' <> []).
Proof.
  induction rounds as [|[field value] rounds IH];
    intros result tokens Hsub Hclear Htokens Hsaved.
  - exists tokens. split; [exact Hsaved|].
    intros [Hne|(_ & p & [] & _)]. exact Hne.
  - cbn [fold_left]. cbn [Sanitizer.fields_clear] in Hclear.
    apply andb_prop in Hclear as [Hfield Hclear].
    rewrite forallb_forall in Hfield.
    assert (Hrest : forall p, In p rounds -> In p patterns)
      by (intros p Hp; apply Hsub; now right).
    destruct (safe_pattern (field, value) (Hsub _ (or_introl eq_refl)))
      as (Hplain & Htruthy & Hbrace & _ & _). cbn [fst snd] in *.
    destruct (JS.includes s value) eqn:Hactive.
    + rewrite literal_of_escapeRegex.
      change ("{{" +:+ field +:+ "}}") with (Sanitizer.token field).
      destruct (replaced_saved_form patterns field value
                  (Hsub _ (or_introl eq_refl)) Htruthy Hbrace Hplain
                  s result tokens Hsaved)
        as (tokens1 & Hsaved1 & Hfrom & Hsome).
      { intros token Htoken.
        apply (Htokens token (field, value) Htoken). now left. }
      assert (Hclear1 : forall token q, In token tokens1 -> In q rounds ->
                JS.includes (fst token) (snd q) = false).
      { intros token q Htoken Hq. destruct (Hfrom token Htoken) as [Hold| ->].
        - apply (Htokens token q Hold). now right.
        - cbn [fst]. apply negb_true_iff. now apply Hfield. }
      destruct (IH _ tokens1 Hrest Hclear Hclear1 Hsaved1)
        as (tokens' & Hsaved' & Hsome').
      exists tokens'. split; [exact Hsaved'|]. intros Hcase.
      apply Hsome'. left. apply Hsome.
      destruct Hcase as [Hne|[-> _]]; [now left|now right].
    + assert (Hclear0 : forall token q, In token tokens -> In q rounds ->
                JS.includes (fst token) (snd q) = false).
      { intros token q Htoken Hq. apply (Htokens token q Htoken). now right. }
      destruct (IH result tokens Hrest Hclear Hclear0 Hsaved)
        as (tokens' & Hsaved' & Hsome').
      exists tokens'. split; [exact Hsaved'|]. intros Hcase.
      apply Hsome'. destruct Hcase as [Hne|[Heq (p & [<-|Hp] & Hinc)]].
      * now left.
      * cbn [snd] in Hinc. congruence.
      * right. split; [exact Heq|]. now exists p.
Qed.

(** A saved string is a saved form of the string, with a token in it when
    the string holds a tracked value. *)
Lemma applyToString_saved_form (s : string) :
  exists tokens,
    saved_form s (Sanitizer.applyToString s patterns) tokens
    /\ ((exists p, In p patterns /\ JS.includes s (snd p) = true) ->
        tokens <> []).
Proof.
  destruct (save_rounds s patterns s [] (fun p H => H) safe_clear)
    as (tokens & Hsaved & Hsome).
  - intros token q [].
  - constructor.
  - exists tokens. split; [exact Hsaved|]. intros Hactive.
    apply Hsome. right. now split.
Qed.

Lemma saved_form_token (s t : string) (tokens : list (string * string)) :
  saved_form s t tokens -> tokens <> [] ->
  exists p, In p patterns /\ JS.includes t (Sanitizer.token (fst p)) = true.
Proof.
  intros H Hne. destruct H as [chunk|chunk field value rest saved tokens Hin H];
    [congruence|].
  exists (field, value). split; [exact Hin|]. apply includes_middle.
Qed.

Lemma applyToString_not_placeholder (s : string) :
  Sanitizer.restorable_string config patterns values s = true ->
  String.eqb (Sanitizer.applyToString s patterns) placeholder = false.
Proof.
  intros Hs. unfold Sanitizer.restorable_string in Hs.
  apply andb_prop in Hs as [Hs _]. apply andb_prop in Hs as [Hne _].
  apply negb_true_iff in Hne.
  destruct (applyToString_saved_form s) as (tokens & Hsaved & _).
  destruct tokens as [|token tokens].
  - now rewrite (tokenized_nil_inv _ _ _ Hsaved).
  - destruct (saved_form_token _ _ _ Hsaved) as (p & Hin & Hinc); [discriminate|].
    apply String.eqb_neq. intros Heq. rewrite Heq in Hinc.
    destruct (safe_pattern p Hin) as (_ & _ & _ & _ & Hfree). congruence.
Qed.

(** *** Loading a saved string *)

#[local] Abbreviation load_round :=
  (fun (result : string) (kv : string * JS.value) =>
     JS.replaceFirst result ("{{" +:+ fst kv +:+ "}}") (JS.toString (snd kv))).

Lemma load_rounds (s : string) (entries : list (string * JS.value)) :
  forall (current : string) (tokens : list (string * string)),
    NoDup (JS.obj_keys entries) ->
    (forall kv, In kv entries ->
       JS.brace_free (fst kv) = true
       /\ JS.includes s (Sanitizer.token (fst kv)) = false) ->
    (forall key entry value,
       In (key, entry) entries -> In (key, value) patterns ->
       entry = JS.VStr value) ->
    saved_form s current tokens ->
    NoDup (map fst tokens) ->
    (forall token, In token tokens -> In (fst token) (JS.obj_keys entries)) ->
    fold_left load_round entries current = s.
Proof.
  induction entries as [|[key entry] entries IH];
    intros current tokens Hnd Hentries Hbound Hsaved Hfields Hkeys.
  - cbn [fold_left]. destruct tokens as [|token tokens].
    + now apply tokenized_nil_inv in Hsaved.
    + destruct (Hkeys token (or_introl eq_refl)).
  - cbn [fold_left fst snd]. cbn [JS.obj_keys map fst] in Hnd.
    apply NoDup_cons in Hnd as [Hfresh Hnd].
    destruct (Hentries (key, entry) (or_introl eq_refl)) as [Hbrace Hfree].
    cbn [fst] in Hbrace, Hfree.
    change ("{{" +:+ key +:+ "}}") with (Sanitizer.token key).
    assert (Hentries' : forall kv, In kv entries ->
              JS.brace_free (fst kv) = true
              /\ JS.includes s (Sanitizer.token (fst kv)) = false)
      by (intros kv Hkv; apply Hentries; now right).
    assert (Hbound' : forall key' entry' value,
              In (key', entry') entries -> In (key', value) patterns ->
              entry' = JS.VStr value)
      by (intros key' entry' value Hin; apply Hbound; now right).
    destruct (in_dec string_dec key (map fst tokens)) as [Hmem|Hnone].
    + apply in_map_iff in Hmem as ([field value] & Heq & Htoken).
      cbn [fst] in Heq. subst field.
      pose proof (tokenized_In _ _ _ _ Hsaved _ Htoken) as Hpattern.
      rewrite (Hbound key entry value (or_introl eq_refl) Hpattern).
      cbn [JS.toString].
      destruct (safe_pattern _ Hpattern) as (_ & _ & _ & Hplain & _).
      cbn [snd] in Hplain.
      destruct (resolved_token patterns key value Hbrace Hplain safe_field
                  s current tokens Hsaved Hfree Hfields Htoken)
        as (tokens' & Hsaved' & Hsub & Hfields').
      apply (IH _ tokens' Hnd Hentries' Hbound' Hsaved' Hfields').
      intros token Hin. destruct (Hsub token Hin) as [Hold Hother].
      destruct (Hkeys token Hold) as [Heq|Hrest]; [|exact Hrest].
      cbn [fst] in Heq. congruence.
    + rewrite replaceFirst_absent.
      * apply (IH _ tokens Hnd Hentries' Hbound' Hsaved Hfields).
        intros token Hin. destruct (Hkeys token Hin) as [Heq|Hrest];
          [|exact Hrest].
        exfalso. apply Hnone. cbn [fst] in Heq. rewrite Heq. now apply in_map.
      * apply (resolved_miss patterns key EmptyString Hbrace eq_refl safe_field
                 s current tokens Hsaved Hfree).
        intros token Hin Heq. apply Hnone. rewrite <- Heq. now apply in_map.
Qed.

(** Loading undoes what saving did to a restorable string. *)
Lemma resolveString_applyToString (s : string) :
  Sanitizer.restorable_string config patterns values s = true ->
  Sanitizer.resolveString config (Sanitizer.applyToString s patterns) values
  = JS.VStr s.
Proof.
  intros Hs. unfold Sanitizer.resolveString.
  rewrite (applyToString_not_placeholder s Hs). f_equal.
  unfold Sanitizer.restorable_string in Hs.
  apply andb_prop in Hs as [Hs Hfree]. apply andb_prop in Hs as [_ Honce].
  rewrite forallb_forall in Hfree, Honce.
  destruct (applyToString_saved_form s) as (tokens & Hsaved & _).
  apply (load_rounds s values _ tokens safe_keys).
  - intros kv Hkv. split; [now apply safe_key|].
    apply negb_true_iff. now apply Hfree.
  - intros key entry value Hentry Hpattern.
    apply values_bind_patterns in Hpattern.
    rewrite (obj_get_nodup values key entry safe_keys Hentry) in Hpattern.
    congruence.
  - exact Hsaved.
  - apply fields_distinct.
    + intros [f1 v1] [f2 v2] H1 H2 Heq. cbn [fst snd] in *. subst f2.
      apply (tokenized_In _ _ _ _ Hsaved) in H1, H2.
      apply values_bind_patterns in H1, H2. congruence.
    + apply (tokenized_values_distinct patterns s _ tokens Hsaved).
      * intros p Hp. now apply safe_pattern.
      * intros p Hp. apply Nat.leb_le. now apply Honce.
  - intros [field value] Htoken. cbn [fst].
    apply (tokenized_In _ _ _ _ Hsaved) in Htoken.
    apply values_bind_patterns, obj_get_In in Htoken.
    change field with (fst (field, JS.VStr value)). now apply in_map.
Qed.

(** What saving makes of a restorable value is not the sentinel. *)
Lemma apply_not_placeholder (d : JS.value) :
  Sanitizer.restorable config patterns values d = true ->
  JS.strict_eq_string (apply_ph d) placeholder = false.
Proof.
  destruct d; simpl; try reflexivity.
  apply applyToString_not_placeholder.
Qed.

(** C9, as amended. When the value map binds the field of every pattern to
    the value of that pattern, and the tokens cannot be mistaken for one
    another or for the text around them, loading undoes saving on every
    restorable value: each tracked field, which saving replaces by the
    sentinel, gets its value back from the map, and each tracked value in a
    string, which saving replaces by the token of a field, is put back in
    the place of that token. Saving does put a token in every string that
    holds a tracked value. *)
Theorem placeholders_roundtrip :
  (forall d,
     Sanitizer.restorable config patterns values d = true ->
     resolve_ph (apply_ph d) = d)
  /\ (forall s,
        (exists p, In p patterns /\ JS.includes s (snd p) = true) ->
        exists p,
          In p patterns
          /\ JS.includes (Sanitizer.applyToString s patterns)
               (Sanitizer.token (fst p)) = true).
Proof.
  split.
  2: { intros s Hactive.
       destruct (applyToString_saved_form s) as (tokens & Hsaved & Hsome).
       apply (saved_form_token _ _ _ Hsaved). now apply Hsome. }
  intros d.
  induction d as [| | | |s|items IH|props IH] using value_nested_ind;
    try reflexivity.
  - intros Hd. cbn [Sanitizer.restorable] in Hd.
    cbn [Sanitizer.applyDynamicPlaceholders Sanitizer.resolveDynamicPlaceholders].
    now apply resolveString_applyToString.
  - intros Hd. simpl in Hd |- *. f_equal.
    rewrite map_map. rewrite <- (map_id items) at 2.
    apply map_ext_in. intros item Hin.
    rewrite Forall_forall in IH. apply IH; [now apply list_elem_of_In|].
    rewrite forallb_forall in Hd. now apply Hd.
  - intros Hd.
    cbn [Sanitizer.restorable] in Hd.
    apply andb_prop in Hd as [Hnd Hall]. apply bool_decide_eq_true in Hnd.
    assert (Hown : forallb JS.own_key props = true).
    { rewrite forallb_forall in Hall |- *. intros kv Hin.
      specialize (Hall kv Hin). now apply andb_prop in Hall as [? _]. }
    set (saved := fun kv : string * JS.value =>
           if Sanitizer.tracked patterns (fst kv) (snd kv)
           then JS.VStr placeholder else apply_ph (snd kv)).
    set (loaded := fun kv : string * JS.value =>
           if JS.strict_eq_string (snd kv) placeholder && JS.obj_has values (fst kv)
           then match JS.obj_get values (fst kv) with
                | Some v => v
                | None => JS.VUndefined
                end
           else resolve_ph (snd kv)).
    cbn [Sanitizer.applyDynamicPlaceholders].
    rewrite (assign_each _ saved props []); try assumption.
    2: { intros acc kv _. unfold saved, Sanitizer.tracked.
         destruct (Sanitizer.find_pattern patterns (fst kv)); [|reflexivity].
         now destruct (JS.strict_eq_string (snd kv) (snd p)). }
    2: { intros k _ []. }
    cbn [app Sanitizer.resolveDynamicPlaceholders].
    rewrite (assign_each _ loaded (map (fun kv => (fst kv, saved kv)) props) []).
    2: { intros acc kv _. unfold loaded.
         now destruct (JS.strict_eq_string (snd kv) placeholder && JS.obj_has values (fst kv)). }
    2: { unfold JS.obj_keys in *. rewrite map_map. simpl. exact Hnd. }
    2: { rewrite forallb_forall in Hown |- *. intros kv Hin.
         apply in_map_iff in Hin as (kv' & <- & Hin'). exact (Hown kv' Hin'). }
    2: { intros k _ []. }
    cbn [app]. f_equal. rewrite map_map. rewrite <- (map_id props) at 2.
    apply map_ext_in. intros [key value] Hin. cbn [fst snd].
    rewrite forallb_forall in Hall. specialize (Hall _ Hin).
    apply andb_prop in Hall as [_ Hcase]. cbn [fst snd] in Hcase.
    unfold loaded, saved. cbn [fst snd]. f_equal.
    destruct (Sanitizer.tracked patterns key value) eqn:Htracked.
    + apply tracked_bound in Htracked. cbn [snd JS.strict_eq_string].
      rewrite String.eqb_refl. unfold JS.obj_has. now rewrite Htracked.
    + simpl in Hcase. rewrite (apply_not_placeholder _ Hcase). simpl.
      rewrite Forall_forall in IH. apply (IH (key, value)); [|exact Hcase].
      now apply list_elem_of_In.
Qed.

End Placeholders.

Lemma placeholders_roundtrip_witness :
  let patterns := [("id", "abc"); ("createdAt", "2026-01-13")] in
  let values := [("id", JS.VStr "abc"); ("createdAt", JS.VStr "2026-01-13")] in
  let d :=
    JS.VObj [ ("id", JS.VStr "abc");
              ("note", JS.VStr "order abc shipped");
              ("tags", JS.VArr [JS.VStr "a"; JS.VNum 1; JS.VNull]);
              ("meta", JS.VObj [ ("createdAt", JS.VStr "2026-01-13");
                                 ("log", JS.VStr "abc on 2026-01-13") ]) ] in
  Sanitizer.applyDynamicPlaceholders Config.defaultConfig d patterns
  = JS.VObj [ ("id", JS.VStr "{{DYNAMIC}}");
              ("note", JS.VStr "order {{id}} shipped");
              ("tags", JS.VArr [JS.VStr "a"; JS.VNum 1; JS.VNull]);
              ("meta", JS.VObj [ ("createdAt", JS.VStr "{{DYNAMIC}}");
                                 ("log", JS.VStr "{{id}} on {{createdAt}}") ]) ]
  /\ Sanitizer.resolveDynamicPlaceholders Config.defaultConfig
       (Sanitizer.applyDynamicPlaceholders Config.defaultConfig d patterns) values
     = d
  /\ exists p,
       In p patterns
       /\ JS.includes (Sanitizer.applyToString "order abc shipped" patterns)
            (Sanitizer.token (fst p)) = true.
Proof.
  intros patterns values d. split; [reflexivity|].
  destruct (placeholders_roundtrip Config.defaultConfig patterns values)
    as [Hround Htoken].
  - intros field value Hin. in_list Hin; injection Hin as <- <-; reflexivity.
  - vm_compute. reflexivity.
  - split.
    + apply Hround. vm_compute. reflexivity.
    + apply Htoken. exists ("id", "abc"). split; [now left|reflexivity].
Defined.

(** C9, as stated, fails on a value that already holds the sentinel: with no
    pattern at all the hypothesis on the value map is met, saving leaves the
    string as it is, and loading replaces it by the default of the map. *)
Lemma placeholders_sentinel_not_restored :
  let patterns : list (string * string) := [] in
  let values := [("_default", JS.VStr "x")] in
  let d := JS.VStr "{{DYNAMIC}}" in
  (forall field value,
     In (field, value) patterns -> JS.obj_get values field = Some (JS.VStr value))
  /\ Sanitizer.resolveDynamicPlaceholders Config.defaultConfig
       (Sanitizer.applyDynamicPlaceholders Config.defaultConfig d patterns) values
     = JS.VStr "x"
  /\ Sanitizer.resolveDynamicPlaceholders Config.defaultConfig
       (Sanitizer.applyDynamicPlaceholders Config.defaultConfig d patterns) values
     <> d.
Proof.
  intros patterns values d. split; [intros ? ? []|].
  split; [reflexivity|]. vm_compute. discriminate.
Qed.

(** The other ways in which loading does not give back what was saved, one
    for each condition of the amended claim. *)

(** Saving replaces every occurrence of a tracked value in a string, loading
    only the first token. *)
Example placeholders_second_token_left :
  let patterns := [("id", "abc")] in
  let values := [("id", JS.VStr "abc")] in
  Sanitizer.applyDynamicPlaceholders Config.defaultConfig (JS.VStr "abcabc") patterns
  = JS.VStr "{{id}}{{id}}"
  /\ Sanitizer.resolveDynamicPlaceholders Config.defaultConfig
       (JS.VStr "{{id}}{{id}}") values
     = JS.VStr "abc{{id}}".
Proof. split; reflexivity. Qed.

(** A string that holds the token of a key before it is saved comes back
    with the value of that key. *)
Example placeholders_token_in_data :
  let values := [("id", JS.VStr "abc")] in
  Sanitizer.resolveDynamicPlaceholders Config.defaultConfig
    (Sanitizer.applyDynamicPlaceholders Config.defaultConfig
       (JS.VStr "see {{id}}") [])
    values
  = JS.VStr "see abc".
Proof. reflexivity. Qed.

(** A dollar sign in a tracked value is read as part of a replacement
    template on load. *)
Example placeholders_dollar_in_value :
  let patterns := [("id", "a$&b")] in
  let values := [("id", JS.VStr "a$&b")] in
  Sanitizer.resolveDynamicPlaceholders Config.defaultConfig
    (Sanitizer.applyDynamicPlaceholders Config.defaultConfig
       (JS.VStr "x a$&b") patterns)
    values
  = JS.VStr "x a{{id}}b".
Proof. reflexivity. Qed.

(** A dollar sign in a field is read as part of a replacement template on
    save, and the token that is written is not the token of the field. *)
Example placeholders_dollar_in_field :
  let patterns := [("a$$b", "abc")] in
  let values := [("a$$b", JS.VStr "abc")] in
  Sanitizer.applyDynamicPlaceholders Config.defaultConfig (JS.VStr "x abc") patterns
  = JS.VStr "x {{a$b}}"
  /\ Sanitizer.resolveDynamicPlaceholders Config.defaultConfig
       (JS.VStr "x {{a$b}}") values
     = JS.VStr "x {{a$b}}".
Proof. split; reflexivity. Qed.

(** A tracked value that occurs in the field of a pattern listed before it
    is replaced inside the token of that field. *)
Example placeholders_value_in_field :
  let patterns := [("id", "abc"); ("name", "id")] in
  let values := [("id", JS.VStr "abc"); ("name", JS.VStr "id")] in
  Sanitizer.applyDynamicPlaceholders Config.defaultConfig (JS.VStr "abc id") patterns
  = JS.VStr "{{{{name}}}} {{name}}"
  /\ Sanitizer.resolveDynamicPlaceholders Config.defaultConfig
       (JS.VStr "{{{{name}}}} {{name}}") values
     = JS.VStr "{{id}} {{name}}".
Proof. split; reflexivity. Qed.

(** A brace in a tracked value or in a key lets a token be found where
    none was written. *)
Example placeholders_brace_in_key :
  let patterns := [("a", "1"); ("b", "3")] in
  let values :=
    [("a}}{{b", JS.VStr "2"); ("a", JS.VStr "1"); ("b", JS.VStr "3")] in
  Sanitizer.applyDynamicPlaceholders Config.defaultConfig (JS.VStr "13") patterns
  = JS.VStr "{{a}}{{b}}"
  /\ Sanitizer.resolveDynamicPlaceholders Config.defaultConfig
       (JS.VStr "{{a}}{{b}}") values
     = JS.VStr "2".
Proof. split; reflexivity. Qed.

Example placeholders_brace_in_value :
  let patterns := [("id", "abc"); ("open", "{")] in
  let values := [("id", JS.VStr "abc"); ("open", JS.VStr "{")] in
  Sanitizer.resolveDynamicPlaceholders Config.defaultConfig
    (Sanitizer.applyDynamicPlaceholders Config.defaultConfig
       (JS.VStr "abc {") patterns)
    values
  <> JS.VStr "abc {".
Proof. vm_compute. discriminate. Qed.

(** The empty value occurs everywhere. *)
Example placeholders_empty_value :
  let patterns := [("id", "")] in
  let values := [("id", JS.VStr "")] in
  Sanitizer.applyDynamicPlaceholders Config.defaultConfig (JS.VStr "ab") patterns
  = JS.VStr "{{id}}a{{id}}b{{id}}"
  /\ Sanitizer.resolveDynamicPlaceholders Config.defaultConfig
       (JS.VStr "{{id}}a{{id}}b{{id}}") values
     = JS.VStr "a{{id}}b{{id}}".
Proof. split; reflexivity. Qed.

(** A field whose token is the sentinel: the string that is saved is the
    sentinel, which loading resolves from the default of the map. *)
Example placeholders_field_is_sentinel :
  let patterns := [("DYNAMIC", "abc")] in
  let values := [("DYNAMIC", JS.VStr "abc")] in
  Sanitizer.applyDynamicPlaceholders Config.defaultConfig
    (JS.VArr [JS.VStr "abc"]) patterns
  = JS.VArr [JS.VStr "{{DYNAMIC}}"]
  /\ Sanitizer.resolveDynamicPlaceholders Config.defaultConfig
       (JS.VArr [JS.VStr "{{DYNAMIC}}"]) values
     = JS.VArr [JS.VStr "{{DYNAMIC}}"].
Proof. split; reflexivity. Qed.
